(** * amcheck: verification of nbtree indexes (contrib/amcheck/verify_nbtree.c)

    A shallow embedding of the B-Tree verifier.  Pages are the private
    copies the verifier works on, seen through the access macros of the
    storage and nbtree headers.  [ereport(ERROR, ...)] is a non-local exit
    and is modelled by the [Raise] outcome; unbounded [for (;;)] loops take
    a bound on their iterations and answer [Spin] when it is used up. *)

From Stdlib Require Import ZArith NArith List Bool Lia Ascii Sorted.
Import ListNotations.
Open Scope Z_scope.

(** ** Storage layer: item pointers, line pointers, index tuples *)

(** Modelled from the spec: storage/itemptr.h is not among the sources; a
    table-row or child reference is a block number and an offset. *)
Record ItemPointerData := mkTid { ip_blkid : Z; ip_posid : Z }.

(** Modelled from the spec: storage/itemid.h is not among the sources; a
    line pointer holds the byte offset of its tuple, a state and a length. *)
Record ItemIdData := mkItemId { lp_off : Z; lp_flags : Z; lp_len : Z }.

Definition LP_UNUSED : Z := 0.
Definition LP_NORMAL : Z := 1.
Definition LP_REDIRECT : Z := 2.
Definition LP_DEAD : Z := 3.

Definition ItemIdGetOffset (itemid : ItemIdData) : Z := lp_off itemid.
Definition ItemIdGetLength (itemid : ItemIdData) : Z := lp_len itemid.
Definition ItemIdGetFlags (itemid : ItemIdData) : Z := lp_flags itemid.
Definition ItemIdIsUsed (itemid : ItemIdData) : bool :=
  negb (lp_flags itemid =? LP_UNUSED).
Definition ItemIdIsRedirected (itemid : ItemIdData) : bool :=
  lp_flags itemid =? LP_REDIRECT.
Definition ItemIdIsDead (itemid : ItemIdData) : bool :=
  lp_flags itemid =? LP_DEAD.

(** A datum fetched from a tuple: passed by value, or a pointer to the
    bytes of a variable-length value (header included). *)
Inductive Datum : Type :=
| Dval (v : Z)
| Dptr (bytes : list Z).

Definition DatumGetPointer (d : Datum) : list Z :=
  match d with Dptr b => b | Dval _ => [] end.
Definition PointerGetDatum (b : list Z) : Datum := Dptr b.

(** Modelled from the spec: access/itup.h is not among the sources.  An
    index tuple carries its reference [t_tid], the size and flag bits of
    [t_info], its attribute values as [index_getattr] returns them, and,
    for a boundary tuple that kept a tie-break reference, that reference
    in its last bytes. *)
Record IndexTupleData := mkItup {
  t_tid : ItemPointerData;
  t_info : Z;
  t_values : list Datum;
  t_isnull : list bool;
  t_tail_tid : ItemPointerData
}.

Definition INDEX_SIZE_MASK : Z := 0x1FFF.
Definition INDEX_AM_RESERVED_BIT : Z := 0x2000.
Definition INDEX_VAR_MASK : Z := 0x4000.

Definition IndexTupleSize (itup : IndexTupleData) : Z :=
  Z.land (t_info itup) INDEX_SIZE_MASK.
Definition IndexTupleHasVarwidths (itup : IndexTupleData) : bool :=
  negb (Z.land (t_info itup) INDEX_VAR_MASK =? 0).

Definition index_getattr (itup : IndexTupleData) (attnum : Z) : Datum * bool :=
  (nth (Z.to_nat (attnum - 1)) (t_values itup) (Dval 0),
   nth (Z.to_nat (attnum - 1)) (t_isnull itup) true).

Definition ItemPointerGetBlockNumberNoCheck (p : ItemPointerData) : Z := ip_blkid p.
Definition ItemPointerGetOffsetNumberNoCheck (p : ItemPointerData) : Z := ip_posid p.

(** ** nbtree pages *)

(** Modelled from the spec: access/nbtree.h is not among the sources.  The
    trailer of a page holds the sibling links, the level and one bit per
    flag of the data model. *)
Record BTPageOpaqueData := mkOpaque {
  btpo_prev : Z;
  btpo_next : Z;
  btpo_level : Z;
  btpo_flags : Z
}.

Record BTMetaPageData := mkMeta {
  btm_magic : Z;
  btm_version : Z;
  btm_root : Z;
  btm_level : Z;
  btm_fastroot : Z;
  btm_fastlevel : Z
}.

(** The flag bits of [btpo_flags]. *)
Definition BTP_LEAF : Z := 1.
Definition BTP_ROOT : Z := 2.
Definition BTP_DELETED : Z := 4.
Definition BTP_META : Z := 8.
Definition BTP_HALF_DEAD : Z := 16.
Definition BTP_SPLIT_END : Z := 32.
Definition BTP_HAS_GARBAGE : Z := 64.
Definition BTP_INCOMPLETE_SPLIT : Z := 128.

(** Reserved block and offset numbers, and the sizes of the default 8 kB
    block layout. *)
Definition P_NONE : Z := 0.
Definition P_HIKEY : Z := 1.
Definition P_FIRSTKEY : Z := 2.
Definition BTREE_METAPAGE : Z := 0.
Definition BTREE_MAGIC : Z := 0x053162.
Definition BTREE_VERSION : Z := 4.
Definition BTREE_MIN_VERSION : Z := 2.
Definition InvalidBlockNumber : Z := 0xFFFFFFFF.
Definition BLCKSZ : Z := 8192.
Definition SizeOfPageHeaderData : Z := 24.
Definition sizeof_ItemIdData : Z := 4.
Definition sizeof_BTPageOpaqueData : Z := 16.
Definition MaxIndexTuplesPerPage : Z :=
  (BLCKSZ - SizeOfPageHeaderData) / (16 + sizeof_ItemIdData).
Definition BTMaxItemSize : Z := 2704.
Definition BTMaxItemSizeNoHeapTid : Z := 2712.
Definition TOAST_INDEX_TARGET : Z := 510.

Definition flag_set (flags mask : Z) : bool := negb (Z.land flags mask =? 0).

Definition P_LEFTMOST (o : BTPageOpaqueData) : bool := btpo_prev o =? P_NONE.
Definition P_RIGHTMOST (o : BTPageOpaqueData) : bool := btpo_next o =? P_NONE.
Definition P_ISLEAF (o : BTPageOpaqueData) : bool := flag_set (btpo_flags o) BTP_LEAF.
Definition P_ISROOT (o : BTPageOpaqueData) : bool := flag_set (btpo_flags o) BTP_ROOT.
Definition P_ISDELETED (o : BTPageOpaqueData) : bool := flag_set (btpo_flags o) BTP_DELETED.
Definition P_ISMETA (o : BTPageOpaqueData) : bool := flag_set (btpo_flags o) BTP_META.
Definition P_ISHALFDEAD (o : BTPageOpaqueData) : bool := flag_set (btpo_flags o) BTP_HALF_DEAD.
Definition P_IGNORE (o : BTPageOpaqueData) : bool :=
  flag_set (btpo_flags o) (Z.lor BTP_DELETED BTP_HALF_DEAD).
Definition P_HAS_GARBAGE (o : BTPageOpaqueData) : bool :=
  flag_set (btpo_flags o) BTP_HAS_GARBAGE.
Definition P_INCOMPLETE_SPLIT (o : BTPageOpaqueData) : bool :=
  flag_set (btpo_flags o) BTP_INCOMPLETE_SPLIT.
Definition P_FIRSTDATAKEY (o : BTPageOpaqueData) : Z :=
  if P_RIGHTMOST o then P_HIKEY else P_FIRSTKEY.

(** Modelled from the spec: storage/bufpage.h is not among the sources.  A
    page is the verifier's private copy of one block: its log-position
    stamp, the end of its line-pointer array, the line pointers by offset
    number, the tuples by byte offset, the trailer, and its contents read
    as tree metadata. *)
Record PageData := mkPage {
  pd_lsn : Z;
  pd_lower : Z;
  pd_linp : Z -> ItemIdData;
  pd_item : Z -> IndexTupleData;
  pd_special : BTPageOpaqueData;
  pd_meta : BTMetaPageData
}.

Definition PageGetLSN (page : PageData) : Z := pd_lsn page.
Definition PageGetSpecialPointer (page : PageData) : BTPageOpaqueData := pd_special page.
Definition BTPageGetMeta (page : PageData) : BTMetaPageData := pd_meta page.
Definition PageGetItemId (page : PageData) (offset : Z) : ItemIdData := pd_linp page offset.
Definition PageGetItem (page : PageData) (itemid : ItemIdData) : IndexTupleData :=
  pd_item page (lp_off itemid).
Definition PageGetMaxOffsetNumber (page : PageData) : Z :=
  if pd_lower page <=? SizeOfPageHeaderData then 0
  else (pd_lower page - SizeOfPageHeaderData) / sizeof_ItemIdData.
Definition OffsetNumberNext (offset : Z) : Z := 1 + offset.

(** Tuple accessors of nbtree.h: a tuple with the alternative-reference bit
    keeps its attribute count and status bits in the offset half of
    [t_tid]. *)
Definition INDEX_ALT_TID_MASK : Z := INDEX_AM_RESERVED_BIT.
Definition BT_N_KEYS_OFFSET_MASK : Z := 0x0FFF.
Definition BT_HEAP_TID_ATTR : Z := 0x1000.

Definition BTreeInnerTupleGetDownLink (itup : IndexTupleData) : Z :=
  ItemPointerGetBlockNumberNoCheck (t_tid itup).
Definition BTreeTupleGetTopParent (itup : IndexTupleData) : Z :=
  ItemPointerGetBlockNumberNoCheck (t_tid itup).
Definition BTreeTupleGetHeapTID (itup : IndexTupleData) : option ItemPointerData :=
  if flag_set (t_info itup) INDEX_ALT_TID_MASK then
    if flag_set (ItemPointerGetOffsetNumberNoCheck (t_tid itup)) BT_HEAP_TID_ATTR
    then Some (t_tail_tid itup)
    else None
  else Some (t_tid itup).

(** ** The index relation *)

Record FormData_pg_attribute := mkAtt {
  attnum : Z;
  attbyval : bool;
  attlen : Z;
  attstorage : ascii
}.

Record RelationData := mkRel {
  rd_natts : Z;
  rd_nkeyatts : Z;
  rd_att : list FormData_pg_attribute
}.

Definition IndexRelationGetNumberOfAttributes (rel : RelationData) : Z := rd_natts rel.
Definition IndexRelationGetNumberOfKeyAttributes (rel : RelationData) : Z := rd_nkeyatts rel.
Definition RelationGetDescr (rel : RelationData) : list FormData_pg_attribute := rd_att rel.

Definition BTreeTupleGetNAtts (itup : IndexTupleData) (rel : RelationData) : Z :=
  if flag_set (t_info itup) INDEX_ALT_TID_MASK
  then Z.land (ItemPointerGetOffsetNumberNoCheck (t_tid itup)) BT_N_KEYS_OFFSET_MASK
  else IndexRelationGetNumberOfAttributes rel.

(** verify_nbtree.c:51 *)
Definition BTreeTupleGetNKeyAtts (itup : IndexTupleData) (rel : RelationData) : Z :=
  Z.min (IndexRelationGetNumberOfKeyAttributes rel) (BTreeTupleGetNAtts itup rel).

(** Insertion scan key (nbtree.h): the comparable key built from a tuple. *)
Record BTScanInsertData := mkScanKey {
  sk_heapkeyspace : bool;
  sk_pivotsearch : bool;
  sk_scantid : option ItemPointerData;
  sk_keysz : Z;
  sk_scankeys : list Datum
}.

(** ** Variable-length values

    The header macros of postgres.h, which is not among the sources, in
    their little-endian form: the low bits of the first byte tell a 1-byte
    header from a 4-byte one, and a 4-byte header keeps the size in its
    upper 30 bits. *)

Definition VARHDRSZ : Z := 4.
Definition VARHDRSZ_SHORT : Z := 1.
Definition VARATT_SHORT_MAX : Z := 0x7F.

Definition va_header1 (p : list Z) : Z := nth 0 p 0.
Definition va_header4 (p : list Z) : Z :=
  nth 0 p 0 + 256 * nth 1 p 0 + 65536 * nth 2 p 0 + 16777216 * nth 3 p 0.

Definition VARATT_IS_4B_U (p : list Z) : bool := Z.land (va_header1 p) 0x03 =? 0x00.
Definition VARATT_IS_4B_C (p : list Z) : bool := Z.land (va_header1 p) 0x03 =? 0x02.
Definition VARATT_IS_1B_E (p : list Z) : bool := va_header1 p =? 0x01.
Definition VARSIZE_4B (p : list Z) : Z :=
  Z.land (Z.shiftr (va_header4 p) 2) 0x3FFFFFFF.

Definition VARATT_IS_EXTERNAL (p : list Z) : bool := VARATT_IS_1B_E p.
Definition VARATT_IS_COMPRESSED (p : list Z) : bool := VARATT_IS_4B_C p.
Definition VARSIZE (p : list Z) : Z := VARSIZE_4B p.
Definition VARDATA (p : list Z) : list Z := skipn (Z.to_nat VARHDRSZ) p.
(** [VARSIZE] is a [uint32] and [VARHDRSZ] an [int32], so their difference is
    taken in 32 unsigned bits and wraps for a size field below 4;
    [VARHDRSZ_SHORT] is an [offsetof], a [size_t] of 64 bits, so the sum
    does not wrap again. *)
Definition VARATT_CONVERTED_SHORT_SIZE (p : list Z) : Z :=
  (VARSIZE p - VARHDRSZ) mod 4294967296 + VARHDRSZ_SHORT.
Definition VARATT_CAN_MAKE_SHORT (p : list Z) : bool :=
  VARATT_IS_4B_U p && (VARATT_CONVERTED_SHORT_SIZE p <=? VARATT_SHORT_MAX).
Definition SET_VARSIZE_SHORT_header (len : Z) : Z :=
  Z.lor (Z.land (Z.shiftl len 1) 0xFF) 0x01.

(** ** Bloom filter *)

(** Modelled from the spec: lib/bloomfilter.c is not among the sources.  The
    filter is a fixed-size bit array plus a seed; adding an element sets the
    bits its hashes select, and an element is reported absent when one of
    its bits is clear. *)
Record bloom_filter := mkBloom {
  bf_bitset : N;
  bf_nbits : N;
  bf_seed : Z
}.

(** ** Corruption reports *)

Inductive report : Type :=
| BufferReadFailed (blocknum : Z)
| InvalidMetaPage (blocknum : Z)
| MetaPageCorrupt
| VersionMismatch (version : Z)
| InvalidLeafLevel (level blocknum : Z)
| InvalidInternalLevel (blocknum : Z)
| TooManyItems (blocknum : Z)
| InternalLacksItems (blocknum : Z)
| LeafLacksHighKey (blocknum : Z)
| InternalHalfDead (blocknum : Z)
| InternalHasGarbage (blocknum : Z)
| LinePointerPastEnd (block offset : Z)
| InvalidLinePointerStorage (block offset : Z)
| NonPivotLacksHeapTid (targetblock : Z)
| WrongHighKeyAtts (block : Z)
| TupleSizeMismatch (block offset : Z)
| WrongNumberOfAtts (block offset : Z)
| NotFoundFromRoot (block offset : Z)
| RowSizeExceeded (block offset : Z)
| HighKeyInvariant (block offset : Z)
| ItemOrderInvariant (block offset nextoffset : Z)
| CrossPageOrderInvariant (block offset : Z)
| DownlinkToDeleted (parent child : Z)
| DownlinkLowerBound (parent child offset : Z)
| LeafLacksDownlink (block : Z)
| DownlinkLevelMismatch (target child : Z)
| DownlinkToDeletedLeaf (target leafblock : Z)
| InternalLacksDownlink (block level : Z)
| HeapTupleLacksIndexTuple (tid : ItemPointerData)
| ExternalVarlena (tid : ItemPointerData)
| DeletedBlockReached (current leftcurrent prev : Z)
| FellOffEnd (current : Z)
| NotLeftmost (current : Z)
| NotTrueRoot (current : Z)
| LinksDisagree (current leftcurrent prev : Z)
| LevelMismatch (current expected found : Z)
| CircularLink (current : Z).

(** What a call does: return, raise a report, or still be looping when the
    iteration bound ran out. *)
Inductive outcome (A : Type) : Type :=
| Ok (a : A)
| Raise (e : report)
| Spin.

Arguments Ok {A} a.
Arguments Raise {A} e.
Arguments Spin {A}.

Definition bind {A B : Type} (m : outcome A) (k : A -> outcome B) : outcome B :=
  match m with
  | Ok a => k a
  | Raise e => Raise e
  | Spin => Spin
  end.

Notation "x <- m ;; k" := (bind m (fun x => k))
  (at level 61, m at next level, right associativity).
Notation "' pat <- m ;; k" := (bind m (fun x => match x with pat => k end))
  (at level 61, pat pattern, m at next level, right associativity).

Definition is_ok {A : Type} (m : outcome A) : bool :=
  match m with Ok _ => true | _ => false end.

(** ** Verification state (BtreeCheckState) *)

(** [reads] is not a field of the C structure: it counts the buffer reads
    made so far, which is the point in the history of the index file at
    which the next page is fetched. *)
Record BtreeCheckState := mkState {
  rel : RelationData;
  heapkeyspace : bool;
  readonly : bool;
  heapallindexed : bool;
  rootdescend : bool;
  target : PageData;
  targetblock : Z;
  targetlsn : Z;
  filter : bloom_filter;
  downlinkfilter : bloom_filter;
  rightsplit : bool;
  heaptuplespresent : Z;
  reads : nat
}.

Definition set_reads (st : BtreeCheckState) (n : nat) : BtreeCheckState :=
  mkState (rel st) (heapkeyspace st) (readonly st) (heapallindexed st) (rootdescend st)
          (target st) (targetblock st) (targetlsn st) (filter st) (downlinkfilter st)
          (rightsplit st) (heaptuplespresent st) n.
Definition set_target (st : BtreeCheckState) (p : PageData) : BtreeCheckState :=
  mkState (rel st) (heapkeyspace st) (readonly st) (heapallindexed st) (rootdescend st)
          p (targetblock st) (targetlsn st) (filter st) (downlinkfilter st)
          (rightsplit st) (heaptuplespresent st) (reads st).
Definition set_targetblock (st : BtreeCheckState) (b : Z) : BtreeCheckState :=
  mkState (rel st) (heapkeyspace st) (readonly st) (heapallindexed st) (rootdescend st)
          (target st) b (targetlsn st) (filter st) (downlinkfilter st)
          (rightsplit st) (heaptuplespresent st) (reads st).
Definition set_targetlsn (st : BtreeCheckState) (l : Z) : BtreeCheckState :=
  mkState (rel st) (heapkeyspace st) (readonly st) (heapallindexed st) (rootdescend st)
          (target st) (targetblock st) l (filter st) (downlinkfilter st)
          (rightsplit st) (heaptuplespresent st) (reads st).
Definition set_filter (st : BtreeCheckState) (f : bloom_filter) : BtreeCheckState :=
  mkState (rel st) (heapkeyspace st) (readonly st) (heapallindexed st) (rootdescend st)
          (target st) (targetblock st) (targetlsn st) f (downlinkfilter st)
          (rightsplit st) (heaptuplespresent st) (reads st).
Definition set_downlinkfilter (st : BtreeCheckState) (f : bloom_filter) : BtreeCheckState :=
  mkState (rel st) (heapkeyspace st) (readonly st) (heapallindexed st) (rootdescend st)
          (target st) (targetblock st) (targetlsn st) (filter st) f
          (rightsplit st) (heaptuplespresent st) (reads st).
Definition set_rightsplit (st : BtreeCheckState) (b : bool) : BtreeCheckState :=
  mkState (rel st) (heapkeyspace st) (readonly st) (heapallindexed st) (rootdescend st)
          (target st) (targetblock st) (targetlsn st) (filter st) (downlinkfilter st)
          b (heaptuplespresent st) (reads st).
Definition set_heaptuplespresent (st : BtreeCheckState) (n : Z) : BtreeCheckState :=
  mkState (rel st) (heapkeyspace st) (readonly st) (heapallindexed st) (rootdescend st)
          (target st) (targetblock st) (targetlsn st) (filter st) (downlinkfilter st)
          (rightsplit st) n (reads st).

(** ** Collaborators of the verifier

    The page store, the nbtree access method, tuple formation and hashing
    are supplied by the surrounding database.  [ReadBuffer n blk] is the
    content of block [blk] when the [n]-th read of the run copies it
    ([ReadBufferExtended], [LockBuffer], [_bt_checkpage], [memcpy]); [None]
    stands for a block that cannot be read or that nbtree's own page check
    rejects. *)
Class Collaborators := {
  ReadBuffer : nat -> Z -> option PageData;
  _bt_compare : RelationData -> BTScanInsertData -> PageData -> Z -> Z;
  _bt_check_natts : RelationData -> bool -> PageData -> Z -> bool;
  _bt_mkscankey : RelationData -> IndexTupleData -> BTScanInsertData;
  _bt_search : RelationData -> BTScanInsertData -> nat -> option PageData;
  _bt_binsrch_insert : RelationData -> PageData -> BTScanInsertData -> IndexTupleData -> Z;
  index_form_tuple : list FormData_pg_attribute -> list Datum -> list bool -> IndexTupleData;
  pg_detoast_datum : list Z -> list Z;
  tuple_image : IndexTupleData -> list Z;
  bloom_hash : Z -> list Z -> list N
}.

Section Verifier.

Context {collab : Collaborators}.

(** *** Bloom filter operations *)

(** Modelled from the spec: the operations of lib/bloomfilter.c, which is
    not among the sources.  The hashes of an element select bits of the
    array; adding the element sets them, and the element is reported absent
    when one of them is clear. *)
Definition bloom_position (f : bloom_filter) (h : N) : N := N.modulo h (bf_nbits f).

Definition bloom_add_element (f : bloom_filter) (elem : list Z) : bloom_filter :=
  mkBloom (fold_left (fun bits h => N.lor bits (N.shiftl 1 (bloom_position f h)))
                     (bloom_hash (bf_seed f) elem) (bf_bitset f))
          (bf_nbits f) (bf_seed f).

Definition bloom_lacks_element (f : bloom_filter) (elem : list Z) : bool :=
  existsb (fun h => negb (N.testbit (bf_bitset f) (bloom_position f h)))
          (bloom_hash (bf_seed f) elem).

(** The four bytes of a block number, as hashed for the downlink filter. *)
Definition BlockNumber_image (b : Z) : list Z :=
  [b mod 256; (b / 256) mod 256; (b / 65536) mod 256; (b / 16777216) mod 256].

(** *** Page Accessor: palloc_btree_page (verify_nbtree.c:2467) *)

Definition palloc_btree_page (st : BtreeCheckState) (blocknum : Z)
  : outcome (PageData * BtreeCheckState) :=
  match ReadBuffer (reads st) blocknum with
  | None => Raise (BufferReadFailed blocknum)
  | Some page =>
    let st' := set_reads st (S (reads st)) in
    let opaque := PageGetSpecialPointer page in
    if P_ISMETA opaque && negb (blocknum =? BTREE_METAPAGE) then
      Raise (InvalidMetaPage blocknum)
    else if blocknum =? BTREE_METAPAGE then
      let metad := BTPageGetMeta page in
      if negb (P_ISMETA opaque) || negb (btm_magic metad =? BTREE_MAGIC) then
        Raise MetaPageCorrupt
      else if (btm_version metad <? BTREE_MIN_VERSION)
              || (btm_version metad >? BTREE_VERSION) then
        Raise (VersionMismatch (btm_version metad))
      else Ok (page, st')
    else if P_ISLEAF opaque && negb (P_ISDELETED opaque)
            && negb (btpo_level opaque =? 0) then
      Raise (InvalidLeafLevel (btpo_level opaque) blocknum)
    else if negb (P_ISLEAF opaque) && negb (P_ISDELETED opaque)
            && (btpo_level opaque =? 0) then
      Raise (InvalidInternalLevel blocknum)
    else
      let maxoffset := PageGetMaxOffsetNumber page in
      if maxoffset >? MaxIndexTuplesPerPage then
        Raise (TooManyItems blocknum)
      else if negb (P_ISLEAF opaque) && negb (P_ISDELETED opaque)
              && (maxoffset <? P_FIRSTDATAKEY opaque) then
        Raise (InternalLacksItems blocknum)
      else if P_ISLEAF opaque && negb (P_ISDELETED opaque)
              && negb (P_RIGHTMOST opaque) && (maxoffset <? P_HIKEY) then
        Raise (LeafLacksHighKey blocknum)
      else if negb (P_ISLEAF opaque) && P_ISHALFDEAD opaque then
        Raise (InternalHalfDead blocknum)
      else if negb (P_ISLEAF opaque) && P_HAS_GARBAGE opaque then
        Raise (InternalHasGarbage blocknum)
      else Ok (page, st')
  end.

(** *** PageGetItemIdCareful (verify_nbtree.c:2651) *)

Definition PageGetItemIdCareful (st : BtreeCheckState) (block : Z) (page : PageData)
           (offset : Z) : outcome ItemIdData :=
  let itemid := PageGetItemId page offset in
  if ItemIdGetOffset itemid + ItemIdGetLength itemid >? BLCKSZ - sizeof_BTPageOpaqueData then
    Raise (LinePointerPastEnd block offset)
  else if ItemIdIsRedirected itemid || negb (ItemIdIsUsed itemid)
          || (ItemIdGetLength itemid =? 0) then
    Raise (InvalidLinePointerStorage block offset)
  else Ok itemid.

(** *** BTreeTupleGetHeapTIDCareful (verify_nbtree.c:2696) *)

Definition BTreeTupleGetHeapTIDCareful (st : BtreeCheckState) (itup : IndexTupleData)
           (nonpivot : bool) : outcome (option ItemPointerData) :=
  let result := BTreeTupleGetHeapTID itup in
  let targetblock := targetblock st in
  match result with
  | None => if nonpivot then Raise (NonPivotLacksHeapTid targetblock) else Ok result
  | Some _ => Ok result
  end.

(** *** Scan Key Builder: bt_mkscankey_pivotsearch (verify_nbtree.c:2627) *)

Definition bt_mkscankey_pivotsearch (rel : RelationData) (itup : IndexTupleData)
  : BTScanInsertData :=
  let skey := _bt_mkscankey rel itup in
  mkScanKey (sk_heapkeyspace skey) true (sk_scantid skey) (sk_keysz skey)
            (sk_scankeys skey).

(** *** Invariant Oracle *)

(** offset_is_negative_infinity (verify_nbtree.c:2252) *)
Definition offset_is_negative_infinity (opaque : BTPageOpaqueData) (offset : Z) : bool :=
  negb (P_ISLEAF opaque) && (offset =? P_FIRSTDATAKEY opaque).

Definition is_null {A : Type} (p : option A) : bool :=
  match p with None => true | Some _ => false end.

(** invariant_leq_offset (verify_nbtree.c:2350) *)
Definition invariant_leq_offset (st : BtreeCheckState) (key : BTScanInsertData)
           (upperbound : Z) : bool :=
  let cmp := _bt_compare (rel st) key (target st) upperbound in
  cmp <=? 0.

(** invariant_l_offset (verify_nbtree.c:2287) *)
Definition invariant_l_offset (st : BtreeCheckState) (key : BTScanInsertData)
           (upperbound : Z) : outcome bool :=
  itemid <- PageGetItemIdCareful st (targetblock st) (target st) upperbound ;;
  if negb (sk_heapkeyspace key) then Ok (invariant_leq_offset st key upperbound)
  else
    let cmp := _bt_compare (rel st) key (target st) upperbound in
    if cmp =? 0 then
      let ritup := PageGetItem (target st) itemid in
      let topaque := PageGetSpecialPointer (target st) in
      let nonpivot := P_ISLEAF topaque && (upperbound >=? P_FIRSTDATAKEY topaque) in
      let uppnkeyatts := BTreeTupleGetNKeyAtts ritup (rel st) in
      rheaptid <- BTreeTupleGetHeapTIDCareful st ritup nonpivot ;;
      if sk_keysz key =? uppnkeyatts then
        Ok (is_null (sk_scantid key) && negb (is_null rheaptid))
      else Ok (sk_keysz key <? uppnkeyatts)
    else Ok (cmp <? 0).

(** invariant_g_offset (verify_nbtree.c:2373) *)
Definition invariant_g_offset (st : BtreeCheckState) (key : BTScanInsertData)
           (lowerbound : Z) : bool :=
  let cmp := _bt_compare (rel st) key (target st) lowerbound in
  if negb (sk_heapkeyspace key) then cmp >=? 0
  else cmp >? 0.

(** invariant_l_nontarget_offset (verify_nbtree.c:2409) *)
Definition invariant_l_nontarget_offset (st : BtreeCheckState) (key : BTScanInsertData)
           (nontargetblock : Z) (nontarget : PageData) (upperbound : Z) : outcome bool :=
  itemid <- PageGetItemIdCareful st nontargetblock nontarget upperbound ;;
  let cmp := _bt_compare (rel st) key nontarget upperbound in
  if negb (sk_heapkeyspace key) then Ok (cmp <=? 0)
  else if cmp =? 0 then
    let child := PageGetItem nontarget itemid in
    let copaque := PageGetSpecialPointer nontarget in
    let nonpivot := P_ISLEAF copaque && (upperbound >=? P_FIRSTDATAKEY copaque) in
    let uppnkeyatts := BTreeTupleGetNKeyAtts child (rel st) in
    childheaptid <- BTreeTupleGetHeapTIDCareful st child nonpivot ;;
    if sk_keysz key =? uppnkeyatts then
      Ok (is_null (sk_scantid key) && negb (is_null childheaptid))
    else Ok (sk_keysz key <? uppnkeyatts)
  else Ok (cmp <? 0).

(** *** Fingerprint Engine: bt_normalize_tuple (verify_nbtree.c:2056) *)

(** One turn of the loop over the attributes (lines 2071-2133): the datum to
    keep for the attribute, and whether it forces a new tuple to be
    formed. *)
Definition bt_normalize_attribute (itup : IndexTupleData) (att : FormData_pg_attribute)
  : outcome (Datum * bool * bool) :=
  let '(d, isnull) := index_getattr itup (attnum att) in
  if attbyval att || negb (attlen att =? -1) || isnull then Ok (d, isnull, false)
  else
    let p := DatumGetPointer d in
    if VARATT_IS_EXTERNAL p then Raise (ExternalVarlena (t_tid itup))
    else if negb (VARATT_IS_COMPRESSED p) && (VARSIZE p >? TOAST_INDEX_TARGET)
            && (Ascii.eqb (attstorage att) "x" || Ascii.eqb (attstorage att) "m") then
      Ok (d, isnull, true)
    else if VARATT_IS_COMPRESSED p then
      Ok (PointerGetDatum (pg_detoast_datum p), isnull, true)
    else if VARATT_CAN_MAKE_SHORT p then
      let len := VARATT_CONVERTED_SHORT_SIZE p in
      let data := SET_VARSIZE_SHORT_header len
                  :: firstn (Z.to_nat (len - 1)) (VARDATA p) in
      Ok (PointerGetDatum data, isnull, true)
    else Ok (d, isnull, false).

Fixpoint bt_normalize_attributes (itup : IndexTupleData)
         (atts : list FormData_pg_attribute) (formnewtup : bool)
  : outcome (list Datum * list bool * bool) :=
  match atts with
  | [] => Ok ([], [], formnewtup)
  | att :: rest =>
    '(d, isnull, forced) <- bt_normalize_attribute itup att ;;
    '(normalized, isnulls, formnewtup') <-
      bt_normalize_attributes itup rest (formnewtup || forced) ;;
    Ok (d :: normalized, isnull :: isnulls, formnewtup')
  end.

Definition set_t_tid (itup : IndexTupleData) (tid : ItemPointerData) : IndexTupleData :=
  mkItup tid (t_info itup) (t_values itup) (t_isnull itup) (t_tail_tid itup).

Definition bt_normalize_tuple (st : BtreeCheckState) (itup : IndexTupleData)
  : outcome IndexTupleData :=
  let tupleDescriptor := RelationGetDescr (rel st) in
  if negb (IndexTupleHasVarwidths itup) then Ok itup
  else
    '(normalized, isnull, formnewtup) <-
      bt_normalize_attributes itup tupleDescriptor false ;;
    if negb formnewtup then Ok itup
    else
      let reformed := index_form_tuple tupleDescriptor normalized isnull in
      Ok (set_t_tid reformed (t_tid itup)).

(** *** Root-Descent Prober: bt_rootdescend (verify_nbtree.c:2191) *)

Definition bt_rootdescend (st : BtreeCheckState) (itup : IndexTupleData) : bool :=
  let key := _bt_mkscankey (rel st) itup in
  match _bt_search (rel st) key (reads st) with
  | Some page =>
    let offnum := _bt_binsrch_insert (rel st) page key itup in
    (offnum <=? PageGetMaxOffsetNumber page)
    && (_bt_compare (rel st) key page offnum =? 0)
  | None => false
  end.

(** *** bt_right_page_check_scankey (verify_nbtree.c:1396) *)

(** The [for (;;)] loop of lines 1438-1458: step right over ignorable pages. *)
Fixpoint bt_right_page_step (fuel : nat) (st : BtreeCheckState) (targetnext : Z)
  : outcome (Z * PageData * BtreeCheckState) :=
  match fuel with
  | O => Spin
  | S fuel' =>
    '(rightpage, st1) <- palloc_btree_page st targetnext ;;
    let opaque := PageGetSpecialPointer rightpage in
    if negb (P_IGNORE opaque) || P_RIGHTMOST opaque then Ok (targetnext, rightpage, st1)
    else bt_right_page_step fuel' st1 (btpo_next opaque)
  end.

Definition bt_right_page_check_scankey (fuel : nat) (st : BtreeCheckState)
  : outcome (option BTScanInsertData * BtreeCheckState) :=
  let opaque := PageGetSpecialPointer (target st) in
  if P_RIGHTMOST opaque then Ok (None, st)
  else
    '(targetnext, rightpage, st1) <- bt_right_page_step fuel st (btpo_next opaque) ;;
    let opaque := PageGetSpecialPointer rightpage in
    let nline := PageGetMaxOffsetNumber rightpage in
    if P_ISLEAF opaque && (nline >=? P_FIRSTDATAKEY opaque) then
      rightitem <- PageGetItemIdCareful st1 targetnext rightpage (P_FIRSTDATAKEY opaque) ;;
      Ok (Some (bt_mkscankey_pivotsearch (rel st1) (PageGetItem rightpage rightitem)), st1)
    else if negb (P_ISLEAF opaque)
            && (nline >=? OffsetNumberNext (P_FIRSTDATAKEY opaque)) then
      rightitem <- PageGetItemIdCareful st1 targetnext rightpage
                                        (OffsetNumberNext (P_FIRSTDATAKEY opaque)) ;;
      Ok (Some (bt_mkscankey_pivotsearch (rel st1) (PageGetItem rightpage rightitem)), st1)
    else Ok (None, st1).

(** *** bt_downlink_check (verify_nbtree.c:1603) *)

(** The offsets [first], [first + 1], ..., [max] a [for] loop over a page
    visits.  No offset wraps around: the line-pointer array ends inside the
    page, far below the largest offset number. *)
Definition page_offsets (first max : Z) : list Z :=
  map (fun i => first + Z.of_nat i) (seq 0 (Z.to_nat (max + 1 - first))).

Fixpoint bt_downlink_check_items (st : BtreeCheckState) (targetkey : BTScanInsertData)
         (childblock : Z) (child : PageData) (offsets : list Z) : outcome unit :=
  match offsets with
  | [] => Ok tt
  | offset :: rest =>
    let copaque := PageGetSpecialPointer child in
    if offset_is_negative_infinity copaque offset then
      bt_downlink_check_items st targetkey childblock child rest
    else
      holds <- invariant_l_nontarget_offset st targetkey childblock child offset ;;
      if negb holds then Raise (DownlinkLowerBound (targetblock st) childblock offset)
      else bt_downlink_check_items st targetkey childblock child rest
  end.

Definition bt_downlink_check (st : BtreeCheckState) (targetkey : BTScanInsertData)
           (childblock : Z) : outcome BtreeCheckState :=
  '(child, st1) <- palloc_btree_page st childblock ;;
  let copaque := PageGetSpecialPointer child in
  let maxoffset := PageGetMaxOffsetNumber child in
  if P_ISDELETED copaque then Raise (DownlinkToDeleted (targetblock st1) childblock)
  else
    _ <- bt_downlink_check_items st1 targetkey childblock child
                                 (page_offsets (P_FIRSTDATAKEY copaque) maxoffset) ;;
    Ok st1.

(** *** bt_downlink_missing_check (verify_nbtree.c:1757) *)

Definition uint32 (z : Z) : Z := z mod 4294967296.

(** The [for (;;)] loop of lines 1845-1872: follow first downlinks to a leaf. *)
Fixpoint bt_downlink_missing_descend (fuel : nat) (st : BtreeCheckState)
         (level childblk : Z) : outcome (Z * PageData * BtreeCheckState) :=
  match fuel with
  | O => Spin
  | S fuel' =>
    '(child, st1) <- palloc_btree_page st childblk ;;
    let copaque := PageGetSpecialPointer child in
    if P_ISLEAF copaque then Ok (childblk, child, st1)
    else if negb (btpo_level copaque =? uint32 (level - 1)) then
      Raise (DownlinkLevelMismatch (targetblock st1) childblk)
    else
      let level := btpo_level copaque in
      itemid <- PageGetItemIdCareful st1 childblk child (P_FIRSTDATAKEY copaque) ;;
      let itup := PageGetItem child itemid in
      bt_downlink_missing_descend fuel' st1 level (BTreeInnerTupleGetDownLink itup)
  end.

Definition bt_downlink_missing_check (fuel : nat) (st : BtreeCheckState)
  : outcome BtreeCheckState :=
  let topaque := PageGetSpecialPointer (target st) in
  if P_ISROOT topaque then Ok st
  else if rightsplit st then Ok st
  else if negb (bloom_lacks_element (downlinkfilter st)
                                    (BlockNumber_image (targetblock st))) then Ok st
  else if P_ISLEAF topaque then Raise (LeafLacksDownlink (targetblock st))
  else
    let level := btpo_level topaque in
    itemid <- PageGetItemIdCareful st (targetblock st) (target st)
                                   (P_FIRSTDATAKEY topaque) ;;
    let itup := PageGetItem (target st) itemid in
    '(childblk, child, st1) <-
      bt_downlink_missing_descend fuel st level (BTreeInnerTupleGetDownLink itup) ;;
    let copaque := PageGetSpecialPointer child in
    if P_ISDELETED copaque then Raise (DownlinkToDeletedLeaf (targetblock st1) childblk)
    else
      resumable <-
        (if P_ISHALFDEAD copaque && negb (P_RIGHTMOST copaque) then
           itemid <- PageGetItemIdCareful st1 childblk child P_HIKEY ;;
           Ok (BTreeTupleGetTopParent (PageGetItem child itemid) =? targetblock st1)
         else Ok false) ;;
      if resumable then Ok st1
      else Raise (InternalLacksDownlink (targetblock st1) (btpo_level topaque)).

(** *** Page Validator: bt_target_page_check (verify_nbtree.c:966) *)

(** How one turn of the loop over the items ends: go on with the next
    offset, or leave the function at once ([return], line 1341). *)
Inductive flow : Type := NextItem | LeavePage.

(** Lines 1025-1178 of the loop body: line pointer, stored length, number of
    attributes, downlink fingerprint, [continue] on the negative-infinity
    item ([None]), root descent, scan key, size limit, fingerprint. *)
Definition bt_target_item_prologue (st : BtreeCheckState) (offset : Z)
  : outcome (option (ItemIdData * IndexTupleData * BTScanInsertData) * BtreeCheckState) :=
  let topaque := PageGetSpecialPointer (target st) in
  itemid <- PageGetItemIdCareful st (targetblock st) (target st) offset ;;
  let itup := PageGetItem (target st) itemid in
  let tupsize := IndexTupleSize itup in
  if negb (tupsize =? ItemIdGetLength itemid) then
    Raise (TupleSizeMismatch (targetblock st) offset)
  else if negb (_bt_check_natts (rel st) (heapkeyspace st) (target st) offset) then
    Raise (WrongNumberOfAtts (targetblock st) offset)
  else
    let st1 :=
      if heapallindexed st && readonly st && negb (P_ISLEAF topaque) then
        let childblock := BTreeInnerTupleGetDownLink itup in
        set_downlinkfilter st (bloom_add_element (downlinkfilter st)
                                                 (BlockNumber_image childblock))
      else st in
    if offset_is_negative_infinity topaque offset then Ok (None, st1)
    else if rootdescend st1 && P_ISLEAF topaque && negb (bt_rootdescend st1 itup) then
      Raise (NotFoundFromRoot (targetblock st1) offset)
    else
      let skey := bt_mkscankey_pivotsearch (rel st1) itup in
      let lowersizelimit :=
        sk_heapkeyspace skey
        && (P_ISLEAF topaque || is_null (BTreeTupleGetHeapTID itup)) in
      if tupsize >? (if lowersizelimit then BTMaxItemSize else BTMaxItemSizeNoHeapTid) then
        Raise (RowSizeExceeded (targetblock st1) offset)
      else if heapallindexed st1 && P_ISLEAF topaque && negb (ItemIdIsDead itemid) then
        norm <- bt_normalize_tuple st1 itup ;;
        Ok (Some (itemid, itup, skey),
            set_filter st1 (bloom_add_element (filter st1) (tuple_image norm)))
      else Ok (Some (itemid, itup, skey), st1).

(** The high-key bound of lines 1225-1227: what the entry is tested with. *)
Definition bt_high_key_bound (st : BtreeCheckState) (skey : BTScanInsertData)
  : outcome bool :=
  let topaque := PageGetSpecialPointer (target st) in
  if P_ISLEAF topaque then Ok (invariant_leq_offset st skey P_HIKEY)
  else invariant_l_offset st skey P_HIKEY.

(** Lines 1225-1247: high key check. *)
Definition bt_high_key_check (st : BtreeCheckState) (offset : Z)
           (skey : BTScanInsertData) : outcome unit :=
  let topaque := PageGetSpecialPointer (target st) in
  if negb (P_RIGHTMOST topaque) then
    holds <- bt_high_key_bound st skey ;;
    if negb holds then Raise (HighKeyInvariant (targetblock st) offset)
    else Ok tt
  else Ok tt.

(** Lines 1313-1353: last item check, reached when the item order check did
    not fire and [offset] is the last one. *)
Definition bt_last_item_check (fuel : nat) (st : BtreeCheckState) (offset : Z)
  : outcome (flow * BtreeCheckState) :=
  let max := PageGetMaxOffsetNumber (target st) in
  '(rightkey, st1) <- bt_right_page_check_scankey fuel st ;;
  match rightkey with
  | Some rightkey =>
    if negb (invariant_g_offset st1 rightkey max) then
      if negb (readonly st1) then
        '(fresh, st2) <- palloc_btree_page st1 (targetblock st1) ;;
        let st3 := set_target st2 fresh in
        let topaque := PageGetSpecialPointer (target st3) in
        if P_IGNORE topaque then Ok (LeavePage, st3)
        else Raise (CrossPageOrderInvariant (targetblock st3) offset)
      else Raise (CrossPageOrderInvariant (targetblock st1) offset)
    else Ok (NextItem, st1)
  | None => Ok (NextItem, st1)
  end.

(** Lines 1255-1353: item order check, else last item check. *)
Definition bt_item_order_check (fuel : nat) (st : BtreeCheckState) (offset : Z)
           (skey : BTScanInsertData) : outcome (flow * BtreeCheckState) :=
  let max := PageGetMaxOffsetNumber (target st) in
  if OffsetNumberNext offset <=? max then
    holds <- invariant_l_offset st skey (OffsetNumberNext offset) ;;
    if negb holds then
      _ <- PageGetItemIdCareful st (targetblock st) (target st) (OffsetNumberNext offset) ;;
      Raise (ItemOrderInvariant (targetblock st) offset (OffsetNumberNext offset))
    else if offset =? max then bt_last_item_check fuel st offset
    else Ok (NextItem, st)
  else if offset =? max then bt_last_item_check fuel st offset
  else Ok (NextItem, st).

(** One turn of the loop of lines 1013-1369. *)
Definition bt_target_page_check_item (fuel : nat) (st : BtreeCheckState) (offset : Z)
  : outcome (flow * BtreeCheckState) :=
  let topaque := PageGetSpecialPointer (target st) in
  '(entry, st1) <- bt_target_item_prologue st offset ;;
  match entry with
  | None => Ok (NextItem, st1)
  | Some (itemid, itup, skey) =>
    _ <- bt_high_key_check st1 offset skey ;;
    '(next, st2) <- bt_item_order_check fuel st1 offset skey ;;
    match next with
    | LeavePage => Ok (LeavePage, st2)
    | NextItem =>
      if negb (P_ISLEAF topaque) && readonly st2 then
        let childblock := BTreeInnerTupleGetDownLink itup in
        st3 <- bt_downlink_check st2 skey childblock ;;
        Ok (NextItem, st3)
      else Ok (NextItem, st2)
    end
  end.

Fixpoint bt_target_page_check_items (fuel : nat) (st : BtreeCheckState)
         (offsets : list Z) : outcome (flow * BtreeCheckState) :=
  match offsets with
  | [] => Ok (NextItem, st)
  | offset :: rest =>
    '(next, st1) <- bt_target_page_check_item fuel st offset ;;
    match next with
    | LeavePage => Ok (LeavePage, st1)
    | NextItem => bt_target_page_check_items fuel st1 rest
    end
  end.

Definition bt_target_page_check (fuel : nat) (st : BtreeCheckState)
  : outcome BtreeCheckState :=
  let topaque := PageGetSpecialPointer (target st) in
  let max := PageGetMaxOffsetNumber (target st) in
  _ <- (if negb (P_RIGHTMOST topaque) then
          _ <- PageGetItemIdCareful st (targetblock st) (target st) P_HIKEY ;;
          if negb (_bt_check_natts (rel st) (heapkeyspace st) (target st) P_HIKEY) then
            Raise (WrongHighKeyAtts (targetblock st))
          else Ok tt
        else Ok tt) ;;
  '(next, st1) <- bt_target_page_check_items fuel st
                    (page_offsets (P_FIRSTDATAKEY topaque) max) ;;
  match next with
  | LeavePage => Ok st1
  | NextItem =>
    if heapallindexed st1 && readonly st1 then bt_downlink_missing_check fuel st1
    else Ok st1
  end.

(** *** Level Walker: bt_check_level_from_leftmost (verify_nbtree.c:679) *)

Record BtreeLevel := mkLevel {
  level : Z;
  leftmost : Z;
  istruerootlevel : bool
}.

Definition InvalidBtreeLevel : Z := InvalidBlockNumber.

(** bt_leftmost_ignoring_half_dead (verify_nbtree.c:877): the [while] loop,
    entered with [all_half_dead] true. *)
Fixpoint bt_leftmost_walk (fuel : nat) (st : BtreeCheckState)
         (start reached reached_from : Z) : outcome (bool * BtreeCheckState) :=
  if reached =? P_NONE then Ok (true, st)
  else
    match fuel with
    | O => Spin
    | S fuel' =>
      '(page, st1) <- palloc_btree_page st reached ;;
      let reached_opaque := PageGetSpecialPointer page in
      let all_half_dead :=
        P_ISHALFDEAD reached_opaque
        && negb (reached =? start)
        && negb (reached =? reached_from)
        && (btpo_next reached_opaque =? reached_from) in
      if all_half_dead then
        bt_leftmost_walk fuel' st1 start (btpo_prev reached_opaque) reached
      else Ok (false, st1)
    end.

Definition bt_leftmost_ignoring_half_dead (fuel : nat) (st : BtreeCheckState)
           (start : Z) (start_opaque : BTPageOpaqueData)
  : outcome (bool * BtreeCheckState) :=
  bt_leftmost_walk fuel st start (btpo_prev start_opaque) start.

(** The variables of the walk along one level. *)
Record level_walk := mkWalk {
  leftcurrent : Z;
  current : Z;
  nextleveldown : BtreeLevel
}.

(** The tail of the loop body from the label [nextpage] (lines 841-861):
    cycle detection, the incomplete-split marker, the step to the right. *)
Definition bt_check_level_nextpage (st : BtreeCheckState) (w : level_walk)
           (opaque : BTPageOpaqueData) : outcome (level_walk * BtreeCheckState) :=
  if (current w =? leftcurrent w) || (current w =? btpo_prev opaque) then
    Raise (CircularLink (current w))
  else
    Ok (mkWalk (current w) (btpo_next opaque) (nextleveldown w),
        set_rightsplit st (P_INCOMPLETE_SPLIT opaque)).

(** Lines 748-811: on the first page of the level that is not ignorable,
    check the caller's expectations and prepare the next level down. *)
Definition bt_check_level_first_page (fuel : nat) (st : BtreeCheckState)
           (lvl : BtreeLevel) (w : level_walk) (opaque : BTPageOpaqueData)
  : outcome (level_walk * BtreeCheckState) :=
  st1 <- (if readonly st then
            '(isleftmost, st') <-
              bt_leftmost_ignoring_half_dead fuel st (current w) opaque ;;
            if negb isleftmost then Raise (NotLeftmost (current w))
            else if istruerootlevel lvl && negb (P_ISROOT opaque) then
              Raise (NotTrueRoot (current w))
            else Ok st'
          else Ok st) ;;
  if negb (P_ISLEAF opaque) then
    itemid <- PageGetItemIdCareful st1 (targetblock st1) (target st1)
                                   (P_FIRSTDATAKEY opaque) ;;
    let itup := PageGetItem (target st1) itemid in
    Ok (mkWalk (leftcurrent w) (current w)
               (mkLevel (uint32 (btpo_level opaque - 1))
                        (BTreeInnerTupleGetDownLink itup) false),
        st1)
  else
    Ok (mkWalk (leftcurrent w) (current w) (mkLevel InvalidBtreeLevel P_NONE false),
        st1).

(** One turn of the [do ... while] loop (lines 703-863). *)
Definition bt_check_level_page (fuel : nat) (st : BtreeCheckState) (lvl : BtreeLevel)
           (w : level_walk) : outcome (level_walk * BtreeCheckState) :=
  let st0 := set_targetblock st (current w) in
  '(page, st1) <- palloc_btree_page st0 (targetblock st0) ;;
  let st2 := set_targetlsn (set_target st1 page) (PageGetLSN page) in
  let opaque := PageGetSpecialPointer (target st2) in
  if P_IGNORE opaque then
    if readonly st2 && P_ISDELETED opaque then
      Raise (DeletedBlockReached (current w) (leftcurrent w) (btpo_prev opaque))
    else if P_RIGHTMOST opaque then Raise (FellOffEnd (current w))
    else bt_check_level_nextpage st2 w opaque
  else
    '(w1, st3) <-
      (if leftmost (nextleveldown w) =? InvalidBlockNumber then
         bt_check_level_first_page fuel st2 lvl w opaque
       else Ok (w, st2)) ;;
    if readonly st3 && negb (btpo_prev opaque =? leftcurrent w1)
       && negb (leftcurrent w1 =? P_NONE) then
      Raise (LinksDisagree (current w1) (leftcurrent w1) (btpo_prev opaque))
    else if negb (level lvl =? btpo_level opaque) then
      Raise (LevelMismatch (current w1) (level lvl) (btpo_level opaque))
    else
      st4 <- bt_target_page_check fuel st3 ;;
      bt_check_level_nextpage st4 w1 opaque.

Fixpoint bt_check_level_pages (pages fuel : nat) (st : BtreeCheckState)
         (lvl : BtreeLevel) (w : level_walk) : outcome (BtreeLevel * BtreeCheckState) :=
  match pages with
  | O => Spin
  | S pages' =>
    '(w1, st1) <- bt_check_level_page fuel st lvl w ;;
    if negb (current w1 =? P_NONE) then bt_check_level_pages pages' fuel st1 lvl w1
    else Ok (nextleveldown w1, st1)
  end.

Definition bt_check_level_from_leftmost (pages fuel : nat) (st : BtreeCheckState)
           (lvl : BtreeLevel) : outcome (BtreeLevel * BtreeCheckState) :=
  bt_check_level_pages pages fuel st lvl
    (mkWalk P_NONE (leftmost lvl) (mkLevel InvalidBtreeLevel InvalidBlockNumber false)).

(** *** Table-row probe: bt_tuple_present_callback (verify_nbtree.c:1987) *)

Record HeapTupleData := mkHeapTuple {
  t_self : ItemPointerData;
  ht_values : list Datum;
  ht_isnull : list bool
}.

Definition bt_tuple_present_callback (st : BtreeCheckState) (htup : HeapTupleData)
  : outcome BtreeCheckState :=
  let itup := set_t_tid (index_form_tuple (RelationGetDescr (rel st))
                                          (ht_values htup) (ht_isnull htup))
                        (t_self htup) in
  norm <- bt_normalize_tuple st itup ;;
  if bloom_lacks_element (filter st) (tuple_image norm) then
    Raise (HeapTupleLacksIndexTuple (t_tid itup))
  else Ok (set_heaptuplespresent st (heaptuplespresent st + 1)).

(** Modelled from the spec: the table scan ([table_index_build_scan]) is not
    among the sources; it yields each row of the table once, in order, to
    the callback, and a report raised by the callback ends it. *)
Fixpoint table_index_build_scan (st : BtreeCheckState) (rows : list HeapTupleData)
  : outcome BtreeCheckState :=
  match rows with
  | [] => Ok st
  | htup :: rest =>
    st1 <- bt_tuple_present_callback st htup ;;
    table_index_build_scan st1 rest
  end.

End Verifier.

(** * What the properties are stated with *)

Section Statements.

Context {collab : Collaborators}.

(** Two states that show the same page to the checks: only the filters, the
    counters and the read position may differ. *)
Definition same_page (a b : BtreeCheckState) : Prop :=
  rel a = rel b /\ heapkeyspace a = heapkeyspace b /\ readonly a = readonly b /\
  heapallindexed a = heapallindexed b /\ rootdescend a = rootdescend b /\
  target a = target b /\ targetblock a = targetblock b.

(** The tuple at [offset] of the target page. *)
Definition entry_tuple (st : BtreeCheckState) (offset : Z) : IndexTupleData :=
  PageGetItem (target st) (PageGetItemId (target st) offset).

(** The scan key the validator builds for the entry at [offset]. *)
Definition entry_key (st : BtreeCheckState) (offset : Z) : BTScanInsertData :=
  bt_mkscankey_pivotsearch (rel st) (entry_tuple st offset).

(** A real entry of the target page: an offset the loop visits that is not
    the negative-infinity item. *)
Definition real_entry (st : BtreeCheckState) (offset : Z) : Prop :=
  let topaque := PageGetSpecialPointer (target st) in
  P_FIRSTDATAKEY topaque <= offset <= PageGetMaxOffsetNumber (target st) /\
  offset_is_negative_infinity topaque offset = false.

(** A validated page: the validator returned without raising a report. *)
Definition validated (fuel : nat) (st : BtreeCheckState) : bool :=
  is_ok (bt_target_page_check fuel st).

(** The tie-break as the specification words it: at a tie the predicate
    holds when the entry is a boundary tuple with fewer key components than
    the key, or a full-arity entry with a tie-break reference the key
    lacks. *)
Definition strictly_less_as_specified (st : BtreeCheckState) (key : BTScanInsertData)
           (upperbound : Z) : bool :=
  let cmp := _bt_compare (rel st) key (target st) upperbound in
  let topaque := PageGetSpecialPointer (target st) in
  let entry := entry_tuple st upperbound in
  let boundary := negb (P_ISLEAF topaque && (upperbound >=? P_FIRSTDATAKEY topaque)) in
  let entry_keys := BTreeTupleGetNKeyAtts entry (rel st) in
  (cmp <? 0)
  || ((cmp =? 0)
      && ((boundary && (entry_keys <? sk_keysz key))
          || ((entry_keys =? IndexRelationGetNumberOfKeyAttributes (rel st))
              && negb (is_null (BTreeTupleGetHeapTID entry))
              && is_null (sk_scantid key)))).

(** The value the code computes: at a tie the predicate holds when the key
    has fewer key components than the entry, or as many and no tie-break
    reference where the entry has one; an index without tie-break
    references in its key space accepts every tie. *)
Definition strictly_less_as_coded (st : BtreeCheckState) (key : BTScanInsertData)
           (upperbound : Z) : bool :=
  let cmp := _bt_compare (rel st) key (target st) upperbound in
  let entry := entry_tuple st upperbound in
  let entry_keys := BTreeTupleGetNKeyAtts entry (rel st) in
  if negb (sk_heapkeyspace key) then cmp <=? 0
  else
    (cmp <? 0)
    || ((cmp =? 0)
        && ((sk_keysz key <? entry_keys)
            || ((sk_keysz key =? entry_keys)
                && is_null (sk_scantid key)
                && negb (is_null (BTreeTupleGetHeapTID entry))))).

(** The structural conditions the specification lists for a fetch to fail. *)
Definition fails_baseline_sanity (blocknum : Z) (page : PageData) : bool :=
  let opaque := PageGetSpecialPointer page in
  let maxoffset := PageGetMaxOffsetNumber page in
  (maxoffset >? MaxIndexTuplesPerPage)
  || (P_ISMETA opaque && negb (blocknum =? BTREE_METAPAGE))
  || (P_ISLEAF opaque && negb (P_ISDELETED opaque) && negb (btpo_level opaque =? 0))
  || (negb (P_ISLEAF opaque) && negb (P_ISDELETED opaque) && (btpo_level opaque =? 0))
  || (negb (P_ISLEAF opaque) && negb (P_ISDELETED opaque)
      && (maxoffset <? P_FIRSTDATAKEY opaque))
  || (P_ISLEAF opaque && negb (P_ISDELETED opaque) && negb (P_RIGHTMOST opaque)
      && (maxoffset <? P_HIKEY))
  || (negb (P_ISLEAF opaque) && P_ISHALFDEAD opaque)
  || (negb (P_ISLEAF opaque) && P_HAS_GARBAGE opaque).

(** The block a report of the page accessor names. *)
Definition format_report_block (e : report) : option Z :=
  match e with
  | InvalidMetaPage b | InvalidLeafLevel _ b | InvalidInternalLevel b
  | TooManyItems b | InternalLacksItems b | LeafLacksHighKey b
  | InternalHalfDead b | InternalHasGarbage b => Some b
  | _ => None
  end.



(** [g] has every bit of [f]: [g] is [f] after more elements were added. *)
Definition bloom_le (f g : bloom_filter) : Prop :=
  bf_nbits f = bf_nbits g /\ bf_seed f = bf_seed g /\
  forall n, N.testbit (bf_bitset f) n = true -> N.testbit (bf_bitset g) n = true.

(** The size an entry may have (lines 1142-1145). *)
Definition tuple_size_limit (st : BtreeCheckState) (offset : Z) : Z :=
  let topaque := PageGetSpecialPointer (target st) in
  if sk_heapkeyspace (entry_key st offset)
     && (P_ISLEAF topaque || is_null (BTreeTupleGetHeapTID (entry_tuple st offset)))
  then BTMaxItemSize else BTMaxItemSizeNoHeapTid.

(** The main filter after the entries at [offsets] of the target page were
    fingerprinted: each entry whose line pointer is not marked dead is
    added in its normalized form. *)
Fixpoint fingerprint_entries (st : BtreeCheckState) (offsets : list Z)
         (f : bloom_filter) : bloom_filter :=
  match offsets with
  | [] => f
  | offset :: rest =>
    fingerprint_entries st rest
      (if ItemIdIsDead (PageGetItemId (target st) offset) then f
       else match bt_normalize_tuple st (entry_tuple st offset) with
            | Ok norm => bloom_add_element f (tuple_image norm)
            | _ => f
            end)
  end.

(** Strictly increasing order as the specification words it: the entry is
    at most its successor and the two are not equal, where two entries are
    equal when each one's key ties with the other. *)
Definition strictly_increasing_as_specified (st : BtreeCheckState) (offset : Z) : bool :=
  let next := OffsetNumberNext offset in
  (_bt_compare (rel st) (entry_key st offset) (target st) next <=? 0)
  && negb ((_bt_compare (rel st) (entry_key st offset) (target st) next =? 0)
           && (_bt_compare (rel st) (entry_key st next) (target st) offset =? 0)).

(** Whether [invariant_l_offset] stops at a tie with a leaf entry that lacks
    the heap TID a leaf entry must have (lines 2316-2329). *)
Definition tie_lacks_heap_tid (st : BtreeCheckState) (key : BTScanInsertData)
           (upperbound : Z) : bool :=
  let topaque := PageGetSpecialPointer (target st) in
  sk_heapkeyspace key
  && (_bt_compare (rel st) key (target st) upperbound =? 0)
  && (P_ISLEAF topaque && (upperbound >=? P_FIRSTDATAKEY topaque))
  && is_null (BTreeTupleGetHeapTID (entry_tuple st upperbound)).

(** The index entry the probe forms for a table row. *)
Definition heap_entry (st : BtreeCheckState) (htup : HeapTupleData) : IndexTupleData :=
  set_t_tid (index_form_tuple (RelationGetDescr (rel st)) (ht_values htup) (ht_isnull htup))
            (t_self htup).

End Statements.

(** * The run as a whole: bt_check_every_level (verify_nbtree.c:415) *)

(** How a call ends in an error: with a corruption report of the walk, with
    one of the three errors of the driver, or with one of the errors of the
    entry points. *)
Inductive run_report : Type :=
| Corruption (e : report)
| SnapshotUnusable
| RootDescendUnsupported
| NoValidPages (previouslevel : Z)
| TableOpenFailed
| IndexOpenFailed
| ParentTableNotOpened
| NotBtreeIndex
| OtherSessionTemporary
| IndexNotValid
| LacksMainFork.

Inductive run (A : Type) : Type :=
| Finished (a : A)
| Failed (r : run_report)
| Unfinished.

Arguments Finished {A} a.
Arguments Failed {A} r.
Arguments Unfinished {A}.

Definition run_of {A : Type} (m : outcome A) : run A :=
  match m with
  | Ok a => Finished a
  | Raise e => Failed (Corruption e)
  | Spin => Unfinished
  end.

Definition run_bind {A B : Type} (m : run A) (k : A -> run B) : run B :=
  match m with
  | Finished a => k a
  | Failed r => Failed r
  | Unfinished => Unfinished
  end.

(** What the surrounding database hands to one run: the size of the index
    file and the row estimate of the catalog, the random seed, the two
    memory settings, the outcome of the snapshot test of lines 492-494, the
    rows the table scan yields under the run's snapshot, and the sizing rule
    of the Bloom filter library. *)
Record RunSetup := mkSetup {
  total_pages : Z;
  reltuples : Z;
  seed : Z;
  maintenance_work_mem : Z;
  work_mem : Z;
  snapshot_unusable : bool;
  heap_rows : list HeapTupleData;
  bloom_bits : Z -> Z -> N
}.

(** Modelled from the spec: [bloom_create] of lib/bloomfilter.c is not among
    the sources; it returns a filter with no bit set, sized from the element
    estimate and the memory budget, that hashes with the seed. *)
Definition bloom_create (setup : RunSetup) (total_elems bloom_work_mem seed : Z)
  : bloom_filter :=
  mkBloom 0 (bloom_bits setup total_elems bloom_work_mem) seed.

(** The state [palloc0] returns: every field zero, no page, no filter. *)
Definition null_page : PageData :=
  mkPage 0 0 (fun _ => mkItemId 0 0 0)
         (fun _ => mkItup (mkTid 0 0) 0 [] [] (mkTid 0 0))
         (mkOpaque 0 0 0 0) (mkMeta 0 0 0 0 0 0).

Definition null_filter : bloom_filter := mkBloom 0 0 0.

(** The two lock modes the entry points ask for. *)
Inductive LOCKMODE : Type := AccessShareLock | ShareLock.

(** Modelled from the spec: the catalog, the lock manager and the storage
    manager are not among the sources.  What they answer about the relation
    the caller names: the table [IndexGetRelation] finds before and after the
    index is locked ([InvalidOid] for none), whether [table_open] and
    [index_open] raise for a lock mode for a reason of their own, the kind,
    access method, persistence and validity of the relation, whether it is
    a temporary relation of another session, whether recovery is in
    progress, whether the main fork exists, and what [_bt_heapkeyspace]
    says of the index. *)
Record IndexCatalog := mkCatalog {
  heapid_unlocked : Z;
  heapid_locked : Z;
  table_open_fails : LOCKMODE -> bool;
  index_open_fails : LOCKMODE -> bool;
  relkind : ascii;
  relam : Z;
  is_other_temp : bool;
  indisvalid : bool;
  relpersistence : ascii;
  recovery_in_progress : bool;
  main_fork_exists : bool;
  index_heapkeyspace : bool;
  indrel : RelationData
}.

Definition InvalidOid : Z := 0.
Definition OidIsValid (oid : Z) : bool := negb (oid =? InvalidOid).
Definition RELKIND_INDEX : ascii := "i".
Definition RELPERSISTENCE_UNLOGGED : ascii := "u".
Definition BTREE_AM_OID : Z := 403.

Definition palloc0_state (rel : RelationData)
           (heapkeyspace readonly heapallindexed rootdescend : bool) : BtreeCheckState :=
  mkState rel heapkeyspace readonly heapallindexed rootdescend
          null_page 0 0 null_filter null_filter false 0 0.

Section Run.

Context {collab : Collaborators}.

(** The [while] loop of lines 560-581, one level per turn. *)
Fixpoint bt_check_levels (levels pages fuel : nat) (st : BtreeCheckState)
         (current : BtreeLevel) (previouslevel : Z) : run BtreeCheckState :=
  if leftmost current =? P_NONE then Finished st
  else
    match levels with
    | O => Unfinished
    | S levels' =>
      let st0 := set_rightsplit st false in
      run_bind (run_of (bt_check_level_from_leftmost pages fuel st0 current))
        (fun result =>
           let '(current', st1) := result in
           if leftmost current' =? InvalidBlockNumber then
             Failed (NoValidPages previouslevel)
           else bt_check_levels levels' pages fuel st1 current' (level current'))
    end.

(** Lines 443-514: the filters of a run that cross-checks the table. *)
Definition bt_create_filters (setup : RunSetup) (st : BtreeCheckState)
  : run BtreeCheckState :=
  if heapallindexed st then
    let total_pages := total_pages setup in
    let total_elems := Z.max (total_pages * (MaxIndexTuplesPerPage / 5))
                             (reltuples setup) in
    let seed := seed setup in
    let st1 :=
      set_heaptuplespresent
        (set_filter st (bloom_create setup total_elems (maintenance_work_mem setup) seed))
        0 in
    if negb (readonly st1) then
      if snapshot_unusable setup then Failed SnapshotUnusable
      else Finished st1
    else
      Finished (set_downlinkfilter st1 (bloom_create setup total_pages (work_mem setup)
                                                     seed))
  else Finished st.

(** Lines 516-655: the metapage, the levels from the true root down, and the
    scan of the table. *)
Definition bt_check_from_metapage (setup : RunSetup) (levels pages fuel : nat)
           (st : BtreeCheckState) : run BtreeCheckState :=
  if rootdescend st && negb (heapkeyspace st) then Failed RootDescendUnsupported
  else
    run_bind (run_of (palloc_btree_page st BTREE_METAPAGE))
      (fun fetched =>
         let '(metapage, st1) := fetched in
         let metad := BTPageGetMeta metapage in
         let current := mkLevel (btm_level metad) (btm_root metad) true in
         run_bind (bt_check_levels levels pages fuel st1 current InvalidBtreeLevel)
           (fun st2 =>
              if heapallindexed st2 then
                run_of (table_index_build_scan st2 (heap_rows setup))
              else Finished st2)).

Definition bt_check_every_level (setup : RunSetup) (levels pages fuel : nat)
           (rel : RelationData)
           (heapkeyspace readonly heapallindexed rootdescend : bool)
  : run BtreeCheckState :=
  run_bind (bt_create_filters setup
              (palloc0_state rel heapkeyspace readonly heapallindexed rootdescend))
           (bt_check_from_metapage setup levels pages fuel).

(** *** The SQL-callable entry points (verify_nbtree.c:184-390) *)

(** btree_index_checkable (verify_nbtree.c:344) *)
Definition btree_index_checkable (cat : IndexCatalog) : run unit :=
  if negb (Ascii.eqb (relkind cat) RELKIND_INDEX) || negb (relam cat =? BTREE_AM_OID) then
    Failed NotBtreeIndex
  else if is_other_temp cat then Failed OtherSessionTemporary
  else if negb (indisvalid cat) then Failed IndexNotValid
  else Finished tt.

(** btree_index_mainfork_expected (verify_nbtree.c:377); the notice it
    emits before answering no is not kept. *)
Definition btree_index_mainfork_expected (cat : IndexCatalog) : bool :=
  if negb (Ascii.eqb (relpersistence cat) RELPERSISTENCE_UNLOGGED)
     || negb (recovery_in_progress cat)
  then true
  else false.

(** What the comments of lines 250 and 278-279 say of [table_open] and
    [index_open]: in hot standby mode they raise an error when the lock
    asked for is the [ShareLock] of a parent check. *)
Definition lock_refused_in_hot_standby (cat : IndexCatalog) (lockmode : LOCKMODE) : bool :=
  recovery_in_progress cat
  && match lockmode with ShareLock => true | AccessShareLock => false end.

Definition table_open (cat : IndexCatalog) (lockmode : LOCKMODE) : run unit :=
  if lock_refused_in_hot_standby cat lockmode || table_open_fails cat lockmode
  then Failed TableOpenFailed
  else Finished tt.

Definition index_open (cat : IndexCatalog) (lockmode : LOCKMODE) : run unit :=
  if lock_refused_in_hot_standby cat lockmode || index_open_fails cat lockmode
  then Failed IndexOpenFailed
  else Finished tt.

(** bt_index_check_internal (verify_nbtree.c:227): the lock mode the two
    relations are opened with, and how the call ends; [None] stands for an
    index that was skipped. *)
Definition bt_index_check_internal (cat : IndexCatalog) (setup : RunSetup)
           (levels pages fuel : nat) (parentcheck heapallindexed rootdescend : bool)
  : LOCKMODE * run (option BtreeCheckState) :=
  let lockmode := if parentcheck then ShareLock else AccessShareLock in
  let heapid := heapid_unlocked cat in
  (lockmode,
   run_bind (if OidIsValid heapid then table_open cat lockmode else Finished tt)
     (fun _ =>
        run_bind (index_open cat lockmode)
          (fun _ =>
             if negb (OidIsValid heapid) || negb (heapid =? heapid_locked cat) then
               Failed ParentTableNotOpened
             else
               run_bind (btree_index_checkable cat)
                 (fun _ =>
                    if btree_index_mainfork_expected cat then
                      if negb (main_fork_exists cat) then Failed LacksMainFork
                      else
                        let heapkeyspace := index_heapkeyspace cat in
                        run_bind (bt_check_every_level setup levels pages fuel
                                                       (indrel cat) heapkeyspace
                                                       parentcheck heapallindexed
                                                       rootdescend)
                                 (fun st => Finished (Some st))
                    else Finished None)))).

(** bt_index_check (verify_nbtree.c:184) and bt_index_parent_check
    (verify_nbtree.c:207); [args] are the arguments after the index. *)
Definition PG_NARGS (args : list bool) : Z := 1 + Z.of_nat (length args).
Definition PG_GETARG_BOOL (args : list bool) (n : nat) : bool := nth (Nat.pred n) args false.

Definition bt_index_check (cat : IndexCatalog) (setup : RunSetup)
           (levels pages fuel : nat) (args : list bool)
  : LOCKMODE * run (option BtreeCheckState) :=
  let heapallindexed := if PG_NARGS args =? 2 then PG_GETARG_BOOL args 1 else false in
  bt_index_check_internal cat setup levels pages fuel false heapallindexed false.

Definition bt_index_parent_check (cat : IndexCatalog) (setup : RunSetup)
           (levels pages fuel : nat) (args : list bool)
  : LOCKMODE * run (option BtreeCheckState) :=
  let heapallindexed := if PG_NARGS args >=? 2 then PG_GETARG_BOOL args 1 else false in
  let rootdescend := if PG_NARGS args =? 3 then PG_GETARG_BOOL args 2 else false in
  bt_index_check_internal cat setup levels pages fuel true heapallindexed rootdescend.

End Run.

(** * What the further properties are stated with *)

(** A line pointer that [PageGetItemIdCareful] lets through: its tuple ends
    before the page trailer, it is in use and no redirect, and it has
    storage. *)
Definition line_pointer_sound (itemid : ItemIdData) : Prop :=
  ItemIdGetOffset itemid + ItemIdGetLength itemid <= BLCKSZ - sizeof_BTPageOpaqueData /\
  ItemIdIsUsed itemid = true /\ ItemIdIsRedirected itemid = false /\
  ItemIdGetLength itemid <> 0.

(** The reports that stand under a [readonly] test in the source: sibling
    agreement, the leftmost and root expectations of a level, a deleted page
    reached by the walk, and everything about downlinks. *)
Definition exclusive_only (e : report) : bool :=
  match e with
  | DownlinkToDeleted _ _ | DownlinkLowerBound _ _ _ | LeafLacksDownlink _
  | DownlinkLevelMismatch _ _ | DownlinkToDeletedLeaf _ _ | InternalLacksDownlink _ _
  | DeletedBlockReached _ _ _ | NotLeftmost _ | NotTrueRoot _ | LinksDisagree _ _ _ => true
  | _ => false
  end.

(** What the walk of the tree never writes: the run's configuration and the
    count of table rows. *)
Definition same_run (a b : BtreeCheckState) : Prop :=
  rel a = rel b /\ heapkeyspace a = heapkeyspace b /\ readonly a = readonly b /\
  heapallindexed a = heapallindexed b /\ rootdescend a = rootdescend b /\
  heaptuplespresent a = heaptuplespresent b.

(** A variable-length attribute of the tuple that is stored out of line. *)
Definition attribute_external (itup : IndexTupleData) (att : FormData_pg_attribute) : bool :=
  let '(d, isnull) := index_getattr itup (attnum att) in
  negb (attbyval att || negb (attlen att =? -1) || isnull)
  && VARATT_IS_EXTERNAL (DatumGetPointer d).

(** What the walk of the tree may do to the state of a run, the page under
    examination and the read position apart: the configuration and the row
    count stay, the filters only gain bits, neither filter changes in a run
    that does not cross-check the table, and the downlink filter does not
    change in a run without the exclusive lock. *)
Definition walked (a b : BtreeCheckState) : Prop :=
  same_run a b /\
  bloom_le (filter a) (filter b) /\
  bloom_le (downlinkfilter a) (downlinkfilter b) /\
  (heapallindexed a = false ->
   filter b = filter a /\ downlinkfilter b = downlinkfilter a) /\
  (readonly a = false -> downlinkfilter b = downlinkfilter a).

(** The level below [lvl], as the walk of [lvl] announces it: none under a
    leaf level, the level numbered one less under any other. *)
Definition level_below (lvl next : BtreeLevel) : Prop :=
  (level lvl = 0 /\ next = mkLevel InvalidBtreeLevel P_NONE false) \/
  (level lvl <> 0 /\ level next = uint32 (level lvl - 1) /\
   istruerootlevel next = false).


(** * A small index to run the verifier on

    Stand-ins for the collaborators, in the manner of the real ones, and a
    few pages; the closed examples at the end of the file are computed on
    them. *)

Module Sample.

Definition le32 (n : Z) : list Z :=
  [n mod 256; (n / 256) mod 256; (n / 65536) mod 256; (n / 16777216) mod 256].

(** An uncompressed value with a 4-byte header, and its compressed form: a
    4-byte header with the compression tag, the raw size, and the payload
    as runs (count, byte). *)
Definition varlena_4b (data : list Z) : list Z :=
  le32 (Z.shiftl (VARHDRSZ + Z.of_nat (length data)) 2) ++ data.

Fixpoint runs (data : list Z) : list Z :=
  match data with
  | [] => []
  | x :: rest =>
    match runs rest with
    | c :: y :: t => if (y =? x) && (c <? 255) then (c + 1) :: y :: t
                     else 1 :: x :: c :: y :: t
    | _ => [1; x]
    end
  end.

Fixpoint unruns (packed : list Z) : list Z :=
  match packed with
  | c :: y :: t => repeat y (Z.to_nat c) ++ unruns t
  | _ => []
  end.

Definition compress (p : list Z) : list Z :=
  let packed := runs (VARDATA p) in
  le32 (Z.lor (Z.shiftl (8 + Z.of_nat (length packed)) 2) 2)
  ++ le32 (Z.of_nat (length (VARDATA p))) ++ packed.

Definition detoast (p : list Z) : list Z :=
  if VARATT_IS_COMPRESSED p then varlena_4b (unruns (skipn 8 p)) else p.

Definition datum_size (att : FormData_pg_attribute) (d : Datum) : Z :=
  match d with
  | Dval _ => attlen att
  | Dptr b => Z.of_nat (length b)
  end.

(** Tuple formation: values that are due for compression are compressed. *)
Definition form_datum (att : FormData_pg_attribute) (d : Datum) (isnull : bool) : Datum :=
  if attbyval att || negb (attlen att =? -1) || isnull then d
  else
    let p := DatumGetPointer d in
    if VARATT_IS_4B_U p && (VARSIZE p >? TOAST_INDEX_TARGET)
       && (Ascii.eqb (attstorage att) "x" || Ascii.eqb (attstorage att) "m")
    then Dptr (compress p) else d.

Fixpoint form_data (atts : list FormData_pg_attribute) (values : list Datum)
         (isnull : list bool) : list Datum :=
  match atts, values, isnull with
  | att :: atts', d :: values', n :: isnull' =>
    form_datum att d n :: form_data atts' values' isnull'
  | _, _, _ => []
  end.

Fixpoint data_size (atts : list FormData_pg_attribute) (values : list Datum) : Z :=
  match atts, values with
  | att :: atts', d :: values' => datum_size att d + data_size atts' values'
  | _, _ => 0
  end.

Definition form_tuple (atts : list FormData_pg_attribute) (values : list Datum)
           (isnull : list bool) : IndexTupleData :=
  let data := form_data atts values isnull in
  let size := 8 * ((8 + data_size atts data + 7) / 8) in
  let varwidths := existsb (fun att => attlen att =? -1) atts in
  mkItup (mkTid 0 0) (Z.lor size (if varwidths then INDEX_VAR_MASK else 0))
         data isnull (mkTid 0 0).

Definition datum_image (d : Datum) : list Z :=
  match d with Dval v => [v] | Dptr b => b end.

Definition image (itup : IndexTupleData) : list Z :=
  [ip_blkid (t_tid itup); ip_posid (t_tid itup); t_info itup]
  ++ concat (map datum_image (t_values itup)).

Definition hash (seed : Z) (elem : list Z) : list N :=
  [Z.to_N (Z.abs (fold_left (fun acc b => acc + b) elem seed));
   Z.to_N (Z.abs (fold_left (fun acc b => 31 * acc + b) elem seed))].

(** A three-way comparison in the manner of nbtree's: the first item of an
    internal page is below everything, attributes a tuple has lost to
    truncation count as minus infinity, and the heap TID breaks ties. *)
Definition datum_cmp (a b : Datum) : Z :=
  match a, b with
  | Dval x, Dval y => if x <? y then -1 else if x =? y then 0 else 1
  | _, _ => 0
  end.

Fixpoint keys_cmp (n : nat) (keys values : list Datum) : Z :=
  match n, keys, values with
  | S n', k :: keys', v :: values' =>
    let c := datum_cmp k v in
    if c =? 0 then keys_cmp n' keys' values' else c
  | _, _, _ => 0
  end.

Definition tid_cmp (a b : ItemPointerData) : Z :=
  if ip_blkid a <? ip_blkid b then -1
  else if ip_blkid a >? ip_blkid b then 1
  else if ip_posid a <? ip_posid b then -1
  else if ip_posid a >? ip_posid b then 1
  else 0.

Definition compare (rel : RelationData) (key : BTScanInsertData) (page : PageData)
           (offnum : Z) : Z :=
  let opaque := PageGetSpecialPointer page in
  if negb (P_ISLEAF opaque) && (offnum =? P_FIRSTDATAKEY opaque) then 1
  else
    let itup := PageGetItem page (PageGetItemId page offnum) in
    let ntupatts := BTreeTupleGetNAtts itup rel in
    let ncmpkey := Z.min ntupatts (sk_keysz key) in
    let c := keys_cmp (Z.to_nat ncmpkey) (sk_scankeys key) (t_values itup) in
    if negb (c =? 0) then c
    else if sk_keysz key >? ntupatts then 1
    else
      match sk_scantid key with
      | None =>
        if sk_heapkeyspace key && negb (sk_pivotsearch key)
           && (sk_keysz key =? ntupatts) && is_null (BTreeTupleGetHeapTID itup)
        then 1 else 0
      | Some tid =>
        match BTreeTupleGetHeapTID itup with
        | None => 1
        | Some heaptid => tid_cmp tid heaptid
        end
      end.

Definition mkscankey (rel : RelationData) (itup : IndexTupleData) : BTScanInsertData :=
  let keysz := Z.min (IndexRelationGetNumberOfKeyAttributes rel)
                     (BTreeTupleGetNAtts itup rel) in
  mkScanKey true false (BTreeTupleGetHeapTID itup) keysz
            (firstn (Z.to_nat keysz) (t_values itup)).

Definition check_natts (rel : RelationData) (heapkeyspace : bool) (page : PageData)
           (offset : Z) : bool :=
  BTreeTupleGetNAtts (PageGetItem page (PageGetItemId page offset)) rel
  <=? IndexRelationGetNumberOfAttributes rel.

Definition collaborators (store : nat -> Z -> option PageData) : Collaborators :=
  {| ReadBuffer := store;
     _bt_compare := compare;
     _bt_check_natts := check_natts;
     _bt_mkscankey := mkscankey;
     _bt_search := fun _ _ _ => None;
     _bt_binsrch_insert := fun _ _ _ _ => 1;
     index_form_tuple := form_tuple;
     pg_detoast_datum := detoast;
     tuple_image := image;
     bloom_hash := hash |}.

(** The relations: two integer key columns; one text column. *)
Definition int4 (n : Z) : FormData_pg_attribute := mkAtt n true 4 "p".
Definition rel2 : RelationData := mkRel 2 2 [int4 1; int4 2].
Definition text_column : FormData_pg_attribute := mkAtt 1 false (-1) "x".
Definition rel_text : RelationData := mkRel 1 1 [text_column].

Definition leaf_tuple (keys : list Z) (heaptid : ItemPointerData) : IndexTupleData :=
  set_t_tid (form_tuple (rd_att rel2) (map Dval keys) (map (fun _ => false) keys))
            heaptid.

Definition pivot_tuple (keys : list Z) (downlink : Z) : IndexTupleData :=
  mkItup (mkTid downlink (Z.of_nat (length keys)))
         (Z.lor (8 * (1 + Z.of_nat (length keys))) INDEX_ALT_TID_MASK)
         (map Dval keys) (map (fun _ => false) keys) (mkTid 0 0).

(** A page with the given trailer and items (line pointer state, tuple);
    item [i] is stored 16 * i bytes below byte 8000. *)
Definition page_of (opaque : BTPageOpaqueData) (items : list (Z * IndexTupleData))
  : PageData :=
  mkPage 0
         (SizeOfPageHeaderData + sizeof_ItemIdData * Z.of_nat (length items))
         (fun offset =>
            match nth_error items (Z.to_nat (offset - 1)) with
            | Some (flags, itup) =>
              if 1 <=? offset then mkItemId (8000 - 32 * offset) flags (IndexTupleSize itup)
              else mkItemId 0 LP_UNUSED 0
            | None => mkItemId 0 LP_UNUSED 0
            end)
         (fun off =>
            match nth_error items (Z.to_nat ((8000 - off) / 32 - 1)) with
            | Some (_, itup) => itup
            | None => pivot_tuple [] 0
            end)
         opaque (mkMeta 0 0 0 0 0 0).

Definition empty_filter : bloom_filter := mkBloom 0 64 7.

Definition state_on (rel : RelationData) (readonly heapallindexed : bool)
           (target : PageData) (targetblock : Z) : BtreeCheckState :=
  mkState rel true readonly heapallindexed false target targetblock 0
          empty_filter empty_filter false 0 0.

(** *** A leaf page, its right sibling, and the table rows *)

Definition leaf1 : PageData :=
  page_of (mkOpaque P_NONE 2 0 BTP_LEAF)
          [(LP_NORMAL, pivot_tuple [30] 0);
           (LP_NORMAL, leaf_tuple [10; 1] (mkTid 1 1));
           (LP_DEAD, leaf_tuple [20; 1] (mkTid 1 2))].

Definition leaf2 : PageData :=
  page_of (mkOpaque 1 P_NONE 0 BTP_LEAF)
          [(LP_NORMAL, leaf_tuple [40; 1] (mkTid 1 3))].

Definition leaves (n : nat) (blocknum : Z) : option PageData :=
  if blocknum =? 1 then Some leaf1
  else if blocknum =? 2 then Some leaf2
  else None.

Definition leaf1_state : BtreeCheckState := state_on rel2 false true leaf1 1.

Definition leaf1_checked : BtreeCheckState :=
  match @bt_target_page_check (collaborators leaves) 4 leaf1_state with
  | Ok st => st
  | _ => leaf1_state
  end.

Definition leaf1_turn3 : flow * BtreeCheckState :=
  match @bt_target_page_check_item (collaborators leaves) 4 leaf1_state 3 with
  | Ok result => result
  | _ => (NextItem, leaf1_state)
  end.

Definition row (keys : list Z) (tid : ItemPointerData) : HeapTupleData :=
  mkHeapTuple tid (map Dval keys) (map (fun _ => false) keys).

(** *** Leaf pages that break the high-key bound and the item order *)

Definition unbounded1 : PageData :=
  page_of (mkOpaque P_NONE 2 0 BTP_LEAF)
          [(LP_NORMAL, pivot_tuple [30] 0);
           (LP_NORMAL, leaf_tuple [40; 1] (mkTid 1 1))].

Definition unordered1 : PageData :=
  page_of (mkOpaque P_NONE P_NONE 0 BTP_LEAF)
          [(LP_NORMAL, leaf_tuple [20; 1] (mkTid 1 1));
           (LP_NORMAL, leaf_tuple [10; 1] (mkTid 1 2))].

Definition unbounded1_state : BtreeCheckState := state_on rel2 false false unbounded1 1.
Definition unordered1_state : BtreeCheckState := state_on rel2 false false unordered1 1.

(** *** An internal page with a truncated separator *)

Definition inner3 : PageData :=
  page_of (mkOpaque P_NONE P_NONE 1 0)
          [(LP_NORMAL, pivot_tuple [] 10);
           (LP_NORMAL, pivot_tuple [20] 11);
           (LP_NORMAL, pivot_tuple [20; 5] 12)].

Definition inner3_state : BtreeCheckState := state_on rel2 false false inner3 3.

(** *** A root over two internal pages, the first of them damaged *)

Definition root1 : PageData :=
  page_of (mkOpaque P_NONE P_NONE 2 BTP_ROOT)
          [(LP_NORMAL, pivot_tuple [] 2);
           (LP_NORMAL, pivot_tuple [20] 3)].

Definition child2 : PageData :=
  page_of (mkOpaque P_NONE 3 1 0)
          [(LP_NORMAL, pivot_tuple [20] 0);
           (LP_NORMAL, pivot_tuple [] 7);
           (LP_NORMAL, pivot_tuple [] 8)].

Definition child3 : PageData :=
  page_of (mkOpaque 2 P_NONE 1 0)
          [(LP_NORMAL, pivot_tuple [] 9);
           (LP_NORMAL, pivot_tuple [25] 10)].

Definition tree (n : nat) (blocknum : Z) : option PageData :=
  if blocknum =? 1 then Some root1
  else if blocknum =? 2 then Some child2
  else if blocknum =? 3 then Some child3
  else None.

Definition root1_state : BtreeCheckState := state_on rel2 true false root1 1.

(** The same root over a second child that starts below its separator. *)
Definition low_child3 : PageData :=
  page_of (mkOpaque 2 P_NONE 1 0)
          [(LP_NORMAL, pivot_tuple [] 9);
           (LP_NORMAL, pivot_tuple [15] 10)].

Definition low_tree (n : nat) (blocknum : Z) : option PageData :=
  if blocknum =? 3 then Some low_child3 else tree n blocknum.

(** *** A leaf page whose right sibling starts too low, deleted meanwhile *)

Definition racy1 : PageData :=
  page_of (mkOpaque P_NONE 2 0 BTP_LEAF)
          [(LP_NORMAL, pivot_tuple [30] 0);
           (LP_NORMAL, leaf_tuple [10; 1] (mkTid 1 1));
           (LP_NORMAL, leaf_tuple [20; 1] (mkTid 1 2))].

Definition racy1_halfdead : PageData :=
  page_of (mkOpaque P_NONE 2 0 (Z.lor BTP_LEAF BTP_HALF_DEAD))
          [(LP_NORMAL, pivot_tuple [] 0)].

Definition racy2 : PageData :=
  page_of (mkOpaque 1 P_NONE 0 BTP_LEAF)
          [(LP_NORMAL, leaf_tuple [15; 1] (mkTid 1 3))].

Definition racing (n : nat) (blocknum : Z) : option PageData :=
  if blocknum =? 1 then Some (if Nat.ltb n 1 then racy1 else racy1_halfdead)
  else if blocknum =? 2 then Some racy2
  else None.

Definition racy_online : BtreeCheckState := state_on rel2 false false racy1 1.
Definition racy_exclusive : BtreeCheckState := state_on rel2 true false racy1 1.

(** *** Pages for the page accessor and the level walk *)

Definition halfdead_inner : PageData :=
  page_of (mkOpaque P_NONE P_NONE 1 BTP_HALF_DEAD) [(LP_NORMAL, pivot_tuple [] 2)].

Definition halfdead5 (prev : Z) : PageData :=
  page_of (mkOpaque prev 6 0 (Z.lor BTP_LEAF BTP_HALF_DEAD))
          [(LP_NORMAL, pivot_tuple [] 0)].

Definition misplaced (n : nat) (blocknum : Z) : option PageData :=
  if blocknum =? 0 then Some leaf2
  else if blocknum =? 2 then Some leaf2
  else if blocknum =? 4 then Some halfdead_inner
  else None.

Definition level0 (prev : Z) (n : nat) (blocknum : Z) : option PageData :=
  if blocknum =? 5 then Some (halfdead5 prev) else None.

Definition walk_from (left : Z) : level_walk :=
  mkWalk left 5 (mkLevel InvalidBtreeLevel InvalidBlockNumber false).

(** *** The collaborators over each page store *)

Definition on_leaves : Collaborators := collaborators leaves.
Definition on_tree : Collaborators := collaborators tree.
Definition on_low_tree : Collaborators := collaborators low_tree.
Definition on_racing : Collaborators := collaborators racing.
Definition on_misplaced : Collaborators := collaborators misplaced.
Definition on_level0 (prev : Z) : Collaborators := collaborators (level0 prev).

(** *** An entry with a long uncompressed text value *)




Definition text_state : BtreeCheckState := state_on rel_text false true leaf2 1.

End Sample.

(** * A small healthy index, and damaged variants

    A metapage, a root over two leaves, and the table the index covers;
    the closed examples of the further properties are computed on them. *)

Module Fixture.

Definition meta_page (root level : Z) : PageData :=
  mkPage 0 0 (fun _ => mkItemId 0 LP_UNUSED 0) (fun _ => Sample.pivot_tuple [] 0)
         (mkOpaque P_NONE P_NONE 0 BTP_META)
         (mkMeta BTREE_MAGIC BTREE_VERSION root level root level).

Definition root1 : PageData :=
  Sample.page_of (mkOpaque P_NONE P_NONE 1 BTP_ROOT)
                 [(LP_NORMAL, Sample.pivot_tuple [] 2);
                  (LP_NORMAL, Sample.pivot_tuple [20] 3)].

Definition leaf2 : PageData :=
  Sample.page_of (mkOpaque P_NONE 3 0 BTP_LEAF)
                 [(LP_NORMAL, Sample.pivot_tuple [20] 0);
                  (LP_NORMAL, Sample.leaf_tuple [10; 1] (mkTid 1 1));
                  (LP_NORMAL, Sample.leaf_tuple [15; 1] (mkTid 1 2))].

Definition leaf3 : PageData :=
  Sample.page_of (mkOpaque 2 P_NONE 0 BTP_LEAF)
                 [(LP_NORMAL, Sample.leaf_tuple [20; 1] (mkTid 1 3));
                  (LP_NORMAL, Sample.leaf_tuple [30; 1] (mkTid 1 4))].

Definition healthy (n : nat) (blocknum : Z) : option PageData :=
  if blocknum =? 0 then Some (meta_page 1 1)
  else if blocknum =? 1 then Some root1
  else if blocknum =? 2 then Some leaf2
  else if blocknum =? 3 then Some leaf3
  else None.

Definition table : list HeapTupleData :=
  [Sample.row [10; 1] (mkTid 1 1); Sample.row [15; 1] (mkTid 1 2);
   Sample.row [20; 1] (mkTid 1 3); Sample.row [30; 1] (mkTid 1 4)].

Definition setup (rows : list HeapTupleData) : RunSetup :=
  mkSetup 4 4 7 65536 4096 false rows (fun _ _ => 64%N).

Definition on_healthy : Collaborators := Sample.collaborators healthy.

(** The second leaf with its items out of order. *)
Definition unordered3 : PageData :=
  Sample.page_of (mkOpaque 2 P_NONE 0 BTP_LEAF)
                 [(LP_NORMAL, Sample.leaf_tuple [30; 1] (mkTid 1 4));
                  (LP_NORMAL, Sample.leaf_tuple [20; 1] (mkTid 1 3))].

Definition damaged (n : nat) (blocknum : Z) : option PageData :=
  if blocknum =? 3 then Some unordered3 else healthy n blocknum.

Definition on_damaged : Collaborators := Sample.collaborators damaged.

(** An index with a metapage only, and one whose root is an empty leaf. *)
Definition rootless (n : nat) (blocknum : Z) : option PageData :=
  if blocknum =? 0 then Some (meta_page P_NONE 0) else None.

Definition empty_root : PageData :=
  Sample.page_of (mkOpaque P_NONE P_NONE 0 (Z.lor BTP_LEAF BTP_ROOT)) [].

Definition emptied (n : nat) (blocknum : Z) : option PageData :=
  if blocknum =? 0 then Some (meta_page 1 0)
  else if blocknum =? 1 then Some empty_root
  else None.

Definition on_rootless : Collaborators := Sample.collaborators rootless.
Definition on_emptied : Collaborators := Sample.collaborators emptied.



Definition halfdead6 : PageData :=
  Sample.page_of (mkOpaque P_NONE 7 0 (Z.lor BTP_LEAF BTP_HALF_DEAD))
                 [(LP_NORMAL, Sample.pivot_tuple [] 0)].

Definition leaf7 : PageData :=
  Sample.page_of (mkOpaque 6 P_NONE 0 BTP_LEAF)
                 [(LP_NORMAL, Sample.leaf_tuple [20; 1] (mkTid 1 3))].

Definition shrunk (n : nat) (blocknum : Z) : option PageData :=
  if blocknum =? 6 then Some halfdead6
  else if blocknum =? 7 then Some leaf7
  else None.

(** An internal page whose first downlink leads to a half-dead leaf that
    names it as the top of the subtree being deleted. *)
Definition inner4 : PageData :=
  Sample.page_of (mkOpaque P_NONE P_NONE 1 0) [(LP_NORMAL, Sample.pivot_tuple [] 8)].

Definition halfdead8 : PageData :=
  Sample.page_of (mkOpaque P_NONE 9 0 (Z.lor BTP_LEAF BTP_HALF_DEAD))
                 [(LP_NORMAL, Sample.pivot_tuple [] 4)].

Definition interrupted (n : nat) (blocknum : Z) : option PageData :=
  if blocknum =? 4 then Some inner4
  else if blocknum =? 8 then Some halfdead8
  else None.

Definition on_interrupted : Collaborators := Sample.collaborators interrupted.
Definition inner4_state : BtreeCheckState := Sample.state_on Sample.rel2 true true inner4 4.

Definition on_shrunk : Collaborators := Sample.collaborators shrunk.

Definition root_level : BtreeLevel := mkLevel 1 1 true.
Definition leaf_level : BtreeLevel := mkLevel 0 2 false.


Definition start_state (readonly heapallindexed : bool) : BtreeCheckState :=
  Sample.state_on Sample.rel2 readonly heapallindexed null_page 0.

(** An index upgraded from an older version: its key space has no heap
    TID, and a leaf may hold entries with equal keys. *)
Definition legacy_mkscankey (rel : RelationData) (itup : IndexTupleData)
  : BTScanInsertData :=
  let keysz := Z.min (IndexRelationGetNumberOfKeyAttributes rel)
                     (BTreeTupleGetNAtts itup rel) in
  mkScanKey false false None keysz (firstn (Z.to_nat keysz) (t_values itup)).

Definition duplicates1 : PageData :=
  Sample.page_of (mkOpaque P_NONE P_NONE 0 BTP_LEAF)
                 [(LP_NORMAL, Sample.leaf_tuple [10; 1] (mkTid 1 2));
                  (LP_NORMAL, Sample.leaf_tuple [10; 1] (mkTid 1 1))].

Definition on_legacy : Collaborators :=
  {| ReadBuffer := fun _ blocknum => if blocknum =? 1 then Some duplicates1 else None;
     _bt_compare := Sample.compare;
     _bt_check_natts := Sample.check_natts;
     _bt_mkscankey := legacy_mkscankey;
     _bt_search := fun _ _ _ => None;
     _bt_binsrch_insert := fun _ _ _ _ => 1;
     index_form_tuple := Sample.form_tuple;
     pg_detoast_datum := Sample.detoast;
     tuple_image := Sample.image;
     bloom_hash := Sample.hash |}.

Definition duplicates1_state : BtreeCheckState :=
  mkState Sample.rel2 false false false false duplicates1 1 0
          Sample.empty_filter Sample.empty_filter false 0 0.

(** A leaf whose entries have lost their heap TID. *)
Definition untidy1 : PageData :=
  Sample.page_of (mkOpaque P_NONE P_NONE 0 BTP_LEAF)
                 [(LP_NORMAL, Sample.pivot_tuple [10; 1] 0);
                  (LP_NORMAL, Sample.pivot_tuple [10; 1] 0)].

Definition untidy1_state : BtreeCheckState :=
  Sample.state_on Sample.rel2 false false untidy1 1.


(** What the verifier returns on them. *)
Definition right_of_leaf1 : option BTScanInsertData * BtreeCheckState :=
  match @bt_right_page_check_scankey Sample.on_leaves 4 Sample.leaf1_state with
  | Ok result => result
  | _ => (None, Sample.leaf1_state)
  end.

Definition walked_level (readonly heapallindexed : bool) (lvl : BtreeLevel)
  : BtreeLevel * BtreeCheckState :=
  match @bt_check_level_from_leftmost on_healthy 5 5
          (start_state readonly heapallindexed) lvl with
  | Ok result => result
  | _ => (lvl, start_state readonly heapallindexed)
  end.


Definition root1_state : BtreeCheckState := Sample.state_on Sample.rel2 true true root1 1.

Definition root1_checked : BtreeCheckState :=
  match @bt_target_page_check on_healthy 5 root1_state with
  | Ok st => st
  | _ => root1_state
  end.

Definition clean_run : BtreeCheckState :=
  match @bt_check_every_level on_healthy (setup table) 3 5 5 Sample.rel2 true true true
                              false with
  | Finished st => st
  | _ => start_state true true
  end.

(** The catalog's view of the healthy index, and of an unlogged index on a
    standby. *)
Definition healthy_index : IndexCatalog :=
  mkCatalog 16384 16384 (fun _ => false) (fun _ => false)
            "i" 403 false true "p" false true true Sample.rel2.

Definition unlogged_on_standby : IndexCatalog :=
  mkCatalog 16384 16384 (fun _ => false) (fun _ => false)
            "i" 403 false true "u" true false true Sample.rel2.

Definition descending_state : BtreeCheckState :=
  mkState Sample.rel2 true true false true Sample.leaf1 1 0
          Sample.empty_filter Sample.empty_filter false 0 0.

End Fixture.


(** * Properties *)

Section Properties.

Context {collab : Collaborators}.

(** ** Reasoning about outcomes *)

Lemma bind_ok {A B : Type} (m : outcome A) (k : A -> outcome B) (b : B) :
  bind m k = Ok b -> exists a, m = Ok a /\ k a = Ok b.
Proof.
  destruct m as [a| |]; simpl; intros H; try discriminate.
  exists a; split; [reflexivity | exact H].
Qed.

Ltac bind_inv H :=
  let a := fresh "a" in
  let Ha := fresh "Hm" in
  apply bind_ok in H; destruct H as [a [Ha H]].

Lemma same_page_refl (a : BtreeCheckState) : same_page a a.
Proof. unfold same_page; intuition. Qed.

Lemma same_page_trans (a b c : BtreeCheckState) :
  same_page a b -> same_page b c -> same_page a c.
Proof. unfold same_page; intuition congruence. Qed.

Lemma same_page_sym (a b : BtreeCheckState) : same_page a b -> same_page b a.
Proof. unfold same_page; intuition. Qed.

Lemma same_page_set_reads (a : BtreeCheckState) (n : nat) : same_page a (set_reads a n).
Proof. unfold same_page; simpl; intuition. Qed.

Lemma same_page_set_filter (a : BtreeCheckState) (f : bloom_filter) :
  same_page a (set_filter a f).
Proof. unfold same_page; simpl; intuition. Qed.

Lemma same_page_set_downlinkfilter (a : BtreeCheckState) (f : bloom_filter) :
  same_page a (set_downlinkfilter a f).
Proof. unfold same_page; simpl; intuition. Qed.

Lemma palloc_btree_page_ok (st st' : BtreeCheckState) (blocknum : Z) (page : PageData) :
  palloc_btree_page st blocknum = Ok (page, st') ->
  ReadBuffer (reads st) blocknum = Some page /\ st' = set_reads st (S (reads st)).
Proof.
  unfold palloc_btree_page.
  destruct (ReadBuffer (reads st) blocknum) as [p|]; [|discriminate].
  repeat match goal with
         | |- (if ?c then _ else _) = _ -> _ => destruct c; try discriminate
         end;
    intros H; inversion H; subst; auto.
Qed.

Lemma palloc_btree_page_same (st st' : BtreeCheckState) (blocknum : Z) (page : PageData) :
  palloc_btree_page st blocknum = Ok (page, st') -> same_page st st'.
Proof.
  intros H; apply palloc_btree_page_ok in H; destruct H as [_ ->].
  apply same_page_set_reads.
Qed.

(** The invariant oracle reads the relation, the target page and its block
    number, and nothing else of the state. *)
Lemma invariant_leq_offset_same (a b : BtreeCheckState) key upperbound :
  same_page a b -> invariant_leq_offset a key upperbound = invariant_leq_offset b key upperbound.
Proof.
  unfold same_page, invariant_leq_offset; intros (Hr & _ & _ & _ & _ & Ht & _).
  rewrite Hr, Ht; reflexivity.
Qed.

Lemma invariant_l_offset_same (a b : BtreeCheckState) key upperbound :
  same_page a b -> invariant_l_offset a key upperbound = invariant_l_offset b key upperbound.
Proof.
  intros H. pose proof (invariant_leq_offset_same a b key upperbound H) as Hleq.
  unfold same_page in H; destruct H as (Hr & _ & _ & _ & _ & Ht & Hb).
  unfold invariant_l_offset, PageGetItemIdCareful, BTreeTupleGetHeapTIDCareful.
  rewrite Hleq, Hr, Ht, Hb; reflexivity.
Qed.

Lemma invariant_g_offset_same (a b : BtreeCheckState) key lowerbound :
  same_page a b -> invariant_g_offset a key lowerbound = invariant_g_offset b key lowerbound.
Proof.
  unfold same_page, invariant_g_offset; intros (Hr & _ & _ & _ & _ & Ht & _).
  rewrite Hr, Ht; reflexivity.
Qed.

Lemma invariant_l_nontarget_offset_same (a b : BtreeCheckState) key blk page upperbound :
  same_page a b ->
  invariant_l_nontarget_offset a key blk page upperbound
  = invariant_l_nontarget_offset b key blk page upperbound.
Proof.
  unfold same_page; intros (Hr & _ & _ & _ & _ & Ht & Hb).
  unfold invariant_l_nontarget_offset, PageGetItemIdCareful, BTreeTupleGetHeapTIDCareful.
  rewrite Hr, Hb; reflexivity.
Qed.

Lemma bt_high_key_bound_same (a b : BtreeCheckState) key :
  same_page a b -> bt_high_key_bound a key = bt_high_key_bound b key.
Proof.
  intros H. unfold bt_high_key_bound.
  rewrite (invariant_leq_offset_same a b key P_HIKEY H),
          (invariant_l_offset_same a b key P_HIKEY H).
  destruct H as (_ & _ & _ & _ & _ & Ht & _); rewrite Ht; reflexivity.
Qed.

Lemma PageGetItemIdCareful_ok st block page offset itemid :
  PageGetItemIdCareful st block page offset = Ok itemid ->
  itemid = PageGetItemId page offset.
Proof.
  unfold PageGetItemIdCareful.
  repeat match goal with
         | |- (if ?c then _ else _) = _ -> _ => destruct c; try discriminate
         end.
  intros H; inversion H; reflexivity.
Qed.

Lemma PageGetItemIdCareful_block st st' block block' page offset itemid :
  PageGetItemIdCareful st block page offset = Ok itemid ->
  PageGetItemIdCareful st' block' page offset = Ok itemid.
Proof.
  unfold PageGetItemIdCareful.
  repeat match goal with
         | |- (if ?c then _ else _) = _ -> _ => destruct c; try discriminate
         end.
  auto.
Qed.

(** What the prologue of a loop turn hands to the checks that follow. *)
Lemma bt_target_item_prologue_ok st offset entry st1 :
  bt_target_item_prologue st offset = Ok (entry, st1) ->
  same_page st st1 /\ reads st1 = reads st /\
  match entry with
  | None => offset_is_negative_infinity (PageGetSpecialPointer (target st)) offset = true
  | Some (itemid, itup, skey) =>
    offset_is_negative_infinity (PageGetSpecialPointer (target st)) offset = false /\
    itemid = PageGetItemId (target st) offset /\
    itup = entry_tuple st offset /\ skey = entry_key st offset
  end.
Proof.
  unfold bt_target_item_prologue. intros H.
  bind_inv H. apply PageGetItemIdCareful_ok in Hm. subst a.
  destruct (negb (IndexTupleSize _ =? _)); [discriminate|].
  destruct (negb (_bt_check_natts _ _ _ _)); [discriminate|].
  match type of H with
  | context [offset_is_negative_infinity ?o ?f] =>
    destruct (offset_is_negative_infinity o f) eqn:Hneg
  end.
  - inversion H; subst; clear H. split; [|split; [|reflexivity]].
    + destruct (heapallindexed st && readonly st && _);
        [apply same_page_set_downlinkfilter | apply same_page_refl].
    + destruct (heapallindexed st && readonly st && _); reflexivity.
  - set (st0 := if heapallindexed st && readonly st
                     && negb (P_ISLEAF (PageGetSpecialPointer (target st)))
                then _ else st) in *.
    assert (Hsame : same_page st st0).
    { subst st0. destruct (heapallindexed st && readonly st && _);
        [apply same_page_set_downlinkfilter | apply same_page_refl]. }
    assert (Hreads : reads st0 = reads st).
    { subst st0. destruct (heapallindexed st && readonly st && _); reflexivity. }
    assert (Hrel : rel st0 = rel st) by (destruct Hsame as (Hr & _); auto).
    destruct (rootdescend st0 && _ && negb (bt_rootdescend st0 _)); [discriminate|].
    destruct (IndexTupleSize _ >? _); [discriminate|].
    destruct (heapallindexed st0 && _ && negb (ItemIdIsDead _)).
    + bind_inv H. inversion H; subst; clear H.
      split; [eapply same_page_trans; [exact Hsame | apply same_page_set_filter]|].
      split; [simpl; exact Hreads|].
      unfold entry_key, entry_tuple. rewrite Hrel. auto.
    + inversion H; subst; clear H.
      split; [exact Hsame|]. split; [exact Hreads|].
      unfold entry_key, entry_tuple. rewrite Hrel. auto.
Qed.

Lemma bt_right_page_step_same fuel : forall st targetnext blk page st1,
  bt_right_page_step fuel st targetnext = Ok (blk, page, st1) -> same_page st st1.
Proof.
  induction fuel as [|fuel IH]; simpl; intros st targetnext blk page st1 H;
    [discriminate|].
  bind_inv H. destruct a as [rightpage st0].
  pose proof (palloc_btree_page_same _ _ _ _ Hm) as Hs.
  destruct (negb (P_IGNORE _) || P_RIGHTMOST _).
  - inversion H; subst; exact Hs.
  - eapply same_page_trans; [exact Hs | eapply IH; exact H].
Qed.

Lemma bt_right_page_check_scankey_same fuel st rightkey st1 :
  bt_right_page_check_scankey fuel st = Ok (rightkey, st1) -> same_page st st1.
Proof.
  unfold bt_right_page_check_scankey.
  destruct (P_RIGHTMOST _).
  - intros H; inversion H; subst; apply same_page_refl.
  - intros H. bind_inv H. destruct a as [[targetnext rightpage] st0].
    pose proof (bt_right_page_step_same _ _ _ _ _ _ Hm) as Hs.
    destruct (P_ISLEAF _ && _).
    + bind_inv H. inversion H; subst; exact Hs.
    + destruct (negb (P_ISLEAF _) && _).
      * bind_inv H. inversion H; subst; exact Hs.
      * inversion H; subst; exact Hs.
Qed.

Lemma bt_last_item_check_next fuel st offset st1 :
  bt_last_item_check fuel st offset = Ok (NextItem, st1) -> same_page st st1.
Proof.
  unfold bt_last_item_check. intros H. bind_inv H. destruct a as [rightkey st0].
  pose proof (bt_right_page_check_scankey_same _ _ _ _ Hm) as Hs.
  destruct rightkey as [rightkey|].
  - destruct (negb (invariant_g_offset _ _ _)).
    + destruct (negb (readonly st0)); [|discriminate].
      bind_inv H. destruct a as [fresh st2].
      destruct (P_IGNORE _); discriminate.
    + inversion H; subst; exact Hs.
  - inversion H; subst; exact Hs.
Qed.

Lemma bt_item_order_check_next fuel st offset skey st1 :
  bt_item_order_check fuel st offset skey = Ok (NextItem, st1) -> same_page st st1.
Proof.
  unfold bt_item_order_check. intros H.
  destruct (OffsetNumberNext offset <=? _).
  - bind_inv H. destruct (negb a).
    + bind_inv H. discriminate.
    + destruct (offset =? _).
      * eapply bt_last_item_check_next; exact H.
      * inversion H; subst; apply same_page_refl.
  - destruct (offset =? _).
    + eapply bt_last_item_check_next; exact H.
    + inversion H; subst; apply same_page_refl.
Qed.

Lemma bt_item_order_check_leave fuel st offset skey st1 :
  bt_item_order_check fuel st offset skey = Ok (LeavePage, st1) ->
  offset = PageGetMaxOffsetNumber (target st).
Proof.
  unfold bt_item_order_check. intros H.
  destruct (OffsetNumberNext offset <=? _).
  - bind_inv H. destruct (negb a).
    + bind_inv H. discriminate.
    + destruct (offset =? _) eqn:E; [apply Z.eqb_eq in E; exact E | discriminate].
  - destruct (offset =? _) eqn:E; [apply Z.eqb_eq in E; exact E | discriminate].
Qed.

Lemma bt_downlink_check_same st targetkey childblock st1 :
  bt_downlink_check st targetkey childblock = Ok st1 -> same_page st st1.
Proof.
  unfold bt_downlink_check. intros H. bind_inv H. destruct a as [child st0].
  pose proof (palloc_btree_page_same _ _ _ _ Hm) as Hs.
  destruct (P_ISDELETED _); [discriminate|].
  bind_inv H. inversion H; subst; exact Hs.
Qed.

(** A loop turn that goes on to the next item leaves the page in place; one
    that leaves the function does so at the last offset. *)
Lemma bt_target_page_check_item_next fuel st offset st1 :
  bt_target_page_check_item fuel st offset = Ok (NextItem, st1) -> same_page st st1.
Proof.
  unfold bt_target_page_check_item. intros H.
  bind_inv H. destruct a as [entry st0].
  apply bt_target_item_prologue_ok in Hm. destruct Hm as (Hs & _ & _).
  destruct entry as [[[itemid itup] skey]|].
  - bind_inv H. bind_inv H. destruct a0 as [next st2].
    apply (same_page_trans _ _ _ Hs).
    destruct next; [|discriminate].
    apply bt_item_order_check_next in Hm0.
    apply (same_page_trans _ _ _ Hm0).
    destruct (negb (P_ISLEAF _) && readonly st2).
    + bind_inv H. inversion H; subst. eapply bt_downlink_check_same; exact Hm1.
    + inversion H; subst; apply same_page_refl.
  - inversion H; subst; exact Hs.
Qed.

Lemma bt_target_page_check_item_leave fuel st offset st1 :
  bt_target_page_check_item fuel st offset = Ok (LeavePage, st1) ->
  offset = PageGetMaxOffsetNumber (target st).
Proof.
  unfold bt_target_page_check_item. intros H.
  bind_inv H. destruct a as [entry st0].
  apply bt_target_item_prologue_ok in Hm. destruct Hm as (Hs & _ & _).
  destruct entry as [[[itemid itup] skey]|]; [|discriminate].
  bind_inv H. bind_inv H. destruct a0 as [next st2].
  destruct next.
  - destruct (negb (P_ISLEAF _) && readonly st2); [bind_inv H|]; discriminate.
  - apply bt_item_order_check_leave in Hm0.
    destruct Hs as (_ & _ & _ & _ & _ & Ht & _). rewrite Ht. exact Hm0.
Qed.

(** Every offset of a loop that came to its end was given its turn, on the
    same page. *)
Lemma bt_target_page_check_items_each fuel : forall offsets st next st',
  StronglySorted Z.lt offsets ->
  Forall (fun o => o <= PageGetMaxOffsetNumber (target st)) offsets ->
  bt_target_page_check_items fuel st offsets = Ok (next, st') ->
  forall offset, In offset offsets ->
  exists st0 next0 st1,
    same_page st st0 /\ bt_target_page_check_item fuel st0 offset = Ok (next0, st1).
Proof.
  induction offsets as [|o rest IH]; intros st next st' Hsorted Hmax H offset Hin;
    [destruct Hin|].
  simpl in H. bind_inv H. destruct a as [next0 st1].
  inversion Hsorted as [|? ? Hsorted' Hlt]; subst.
  inversion Hmax as [|? ? Ho Hmax']; subst.
  destruct Hin as [<-|Hin].
  - exists st, next0, st1. split; [apply same_page_refl | exact Hm].
  - destruct next0.
    + pose proof (bt_target_page_check_item_next _ _ _ _ Hm) as Hs.
      assert (Hmax1 : Forall (fun o => o <= PageGetMaxOffsetNumber (target st1)) rest).
      { destruct Hs as (_ & _ & _ & _ & _ & Ht & _). rewrite <- Ht. exact Hmax'. }
      destruct (IH st1 next st' Hsorted' Hmax1 H offset Hin) as (st0 & n0 & st2 & Hs0 & Hi).
      exists st0, n0, st2. split; [eapply same_page_trans; eassumption | exact Hi].
    + apply bt_target_page_check_item_leave in Hm.
      rewrite Forall_forall in Hlt, Hmax'.
      specialize (Hlt _ Hin). specialize (Hmax' _ Hin). simpl in Hmax'. lia.
Qed.

Lemma page_offsets_sorted first max : StronglySorted Z.lt (page_offsets first max).
Proof.
  unfold page_offsets. generalize (Z.to_nat (max + 1 - first)) as n.
  generalize 0%nat as k.
  intros k n; revert k. induction n as [|n IH]; intros k; simpl; constructor.
  - apply IH.
  - rewrite Forall_forall. intros x Hx. apply in_map_iff in Hx.
    destruct Hx as (i & <- & Hi). apply in_seq in Hi. lia.
Qed.

Lemma page_offsets_in first max offset :
  In offset (page_offsets first max) <-> first <= offset <= max.
Proof.
  unfold page_offsets. rewrite in_map_iff. split.
  - intros (i & <- & Hi). apply in_seq in Hi. lia.
  - intros H. exists (Z.to_nat (offset - first)). split; [lia|].
    apply in_seq. lia.
Qed.

Lemma page_offsets_bound first max :
  Forall (fun o => o <= max) (page_offsets first max).
Proof.
  rewrite Forall_forall. intros x Hx. apply page_offsets_in in Hx. lia.
Qed.

Lemma validated_each fuel st offset :
  validated fuel st = true ->
  P_FIRSTDATAKEY (PageGetSpecialPointer (target st)) <= offset
    <= PageGetMaxOffsetNumber (target st) ->
  exists st0 next0 st1,
    same_page st st0 /\ bt_target_page_check_item fuel st0 offset = Ok (next0, st1).
Proof.
  unfold validated, bt_target_page_check. intros H Hrange.
  destruct (bind _ _) as [st'| |] eqn:E; try discriminate. clear H.
  bind_inv E. bind_inv E. destruct a0 as [next st1].
  eapply bt_target_page_check_items_each.
  - apply page_offsets_sorted.
  - apply page_offsets_bound.
  - exact Hm0.
  - apply page_offsets_in. exact Hrange.
Qed.

(** What a loop turn that did not raise a report has established for a real
    entry. *)
Lemma bt_target_page_check_item_established fuel st offset next st' :
  bt_target_page_check_item fuel st offset = Ok (next, st') ->
  offset_is_negative_infinity (PageGetSpecialPointer (target st)) offset = false ->
  bt_high_key_check st offset (entry_key st offset) = Ok tt /\
  (OffsetNumberNext offset <= PageGetMaxOffsetNumber (target st) ->
   invariant_l_offset st (entry_key st offset) (OffsetNumberNext offset) = Ok true).
Proof.
  unfold bt_target_page_check_item. intros H Hreal.
  bind_inv H. destruct a as [entry st0].
  apply bt_target_item_prologue_ok in Hm. destruct Hm as (Hs & _ & Hentry).
  destruct entry as [[[itemid itup] skey]|]; [|congruence].
  destruct Hentry as (_ & _ & _ & ->).
  bind_inv H. destruct a. bind_inv H. destruct a as [next1 st2]. clear H.
  assert (Hhk : bt_high_key_check st offset (entry_key st offset) = Ok tt).
  { revert Hm. unfold bt_high_key_check.
    rewrite <- (bt_high_key_bound_same st st0 _ Hs).
    destruct Hs as (_ & _ & _ & _ & _ & Ht & Hb). rewrite <- Ht, <- Hb. auto. }
  split; [exact Hhk|].
  intros Hnext. revert Hm0. unfold bt_item_order_check.
  destruct Hs as (Hr & H1 & H2 & H3 & H4 & Ht & Hb).
  rewrite <- Ht.
  replace (OffsetNumberNext offset <=? PageGetMaxOffsetNumber (target st)) with true
    by (symmetry; apply Z.leb_le; exact Hnext).
  rewrite <- (invariant_l_offset_same st st0) by (unfold same_page; intuition).
  destruct (invariant_l_offset st (entry_key st offset) (OffsetNumberNext offset))
    as [[|]| |]; simpl; try discriminate; auto.
  intros H. bind_inv H. discriminate.
Qed.

Lemma entry_key_same (a b : BtreeCheckState) offset :
  same_page a b -> entry_key a offset = entry_key b offset.
Proof.
  unfold same_page, entry_key, entry_tuple. intros (Hr & _ & _ & _ & _ & Ht & _).
  rewrite Hr, Ht. reflexivity.
Qed.

Lemma validated_established fuel st offset :
  validated fuel st = true ->
  real_entry st offset ->
  bt_high_key_check st offset (entry_key st offset) = Ok tt /\
  (OffsetNumberNext offset <= PageGetMaxOffsetNumber (target st) ->
   invariant_l_offset st (entry_key st offset) (OffsetNumberNext offset) = Ok true).
Proof.
  intros Hv [Hrange Hreal].
  destruct (validated_each fuel st offset Hv Hrange) as (st0 & next0 & st1 & Hs & Hitem).
  pose proof Hs as (Hr & _ & _ & _ & _ & Ht & Hb).
  apply bt_target_page_check_item_established in Hitem; [|rewrite <- Ht; exact Hreal].
  destruct Hitem as [Hhk Hord].
  rewrite <- (entry_key_same st st0 offset Hs) in Hhk, Hord.
  rewrite <- Ht in Hord.
  rewrite <- (invariant_l_offset_same st st0 _ _ Hs) in Hord.
  split; [|exact Hord].
  revert Hhk. unfold bt_high_key_check.
  rewrite <- (bt_high_key_bound_same st st0 _ Hs), <- Ht, <- Hb. auto.
Qed.

(** C1.  On a page that is not rightmost, every real entry of a validated
    page is at most the high key on a leaf page ([invariant_leq_offset]) and
    strictly below it on an internal page ([invariant_l_offset]); and when a
    loop turn reaches an entry that breaks the bound, it raises the high-key
    report for the target block and the entry's offset. *)
Theorem high_key_bound_enforced (fuel : nat) (st : BtreeCheckState) (offset : Z) :
  P_RIGHTMOST (PageGetSpecialPointer (target st)) = false ->
  real_entry st offset ->
  (validated fuel st = true ->
   if P_ISLEAF (PageGetSpecialPointer (target st))
   then invariant_leq_offset st (entry_key st offset) P_HIKEY = true
   else invariant_l_offset st (entry_key st offset) P_HIKEY = Ok true) /\
  (forall entry st1,
     bt_target_item_prologue st offset = Ok (Some entry, st1) ->
     (if P_ISLEAF (PageGetSpecialPointer (target st))
      then invariant_leq_offset st (entry_key st offset) P_HIKEY = false
      else invariant_l_offset st (entry_key st offset) P_HIKEY = Ok false) ->
     bt_target_page_check_item fuel st offset
     = Raise (HighKeyInvariant (targetblock st) offset)).
Proof.
  intros Hright Hreal. split.
  - intros Hv. destruct (validated_established fuel st offset Hv Hreal) as [Hhk _].
    revert Hhk. unfold bt_high_key_check, bt_high_key_bound. rewrite Hright. simpl.
    destruct (P_ISLEAF _).
    + simpl. destruct (invariant_leq_offset _ _ _); [reflexivity | discriminate].
    + destruct (invariant_l_offset _ _ _) as [[|]| |]; simpl; try discriminate; auto.
  - intros entry st1 Hpro Hbound.
    unfold bt_target_page_check_item. rewrite Hpro. simpl.
    apply bt_target_item_prologue_ok in Hpro. destruct Hpro as (Hs & _ & Hentry).
    destruct entry as [[itemid itup] skey]. destruct Hentry as (_ & _ & _ & ->).
    unfold bt_high_key_check.
    rewrite <- (bt_high_key_bound_same st st1 _ Hs).
    destruct Hs as (_ & _ & _ & _ & _ & Ht & Hb). rewrite <- Ht, <- Hb, Hright. simpl.
    unfold bt_high_key_bound. destruct (P_ISLEAF _); rewrite Hbound; reflexivity.
Qed.

Lemma invariant_l_offset_ok st key upperbound b :
  invariant_l_offset st key upperbound = Ok b ->
  b = strictly_less_as_coded st key upperbound.
Proof.
  unfold invariant_l_offset, strictly_less_as_coded. intros H. bind_inv H.
  apply PageGetItemIdCareful_ok in Hm. subst a.
  destruct (negb (sk_heapkeyspace key)); [inversion H; reflexivity|].
  fold (entry_tuple st upperbound) in H.
  destruct (_bt_compare (rel st) key (target st) upperbound =? 0) eqn:Ecmp.
  - bind_inv H.
    assert (Hr : a = BTreeTupleGetHeapTID (entry_tuple st upperbound)).
    { clear H. unfold BTreeTupleGetHeapTIDCareful in Hm.
      destruct (BTreeTupleGetHeapTID (entry_tuple st upperbound)).
      - inversion Hm. reflexivity.
      - destruct (P_ISLEAF _ && _); inversion Hm. reflexivity. }
    subst a. apply Z.eqb_eq in Ecmp. rewrite Ecmp. simpl.
    destruct (sk_keysz key =? _) eqn:Ek; inversion H.
    + apply Z.eqb_eq in Ek. rewrite Ek, Z.ltb_irrefl. reflexivity.
    + rewrite orb_false_r. reflexivity.
  - inversion H. rewrite andb_false_l, orb_false_r. reflexivity.
Qed.

(** C2 (amended).  Every real entry of a validated page that has a successor
    on the page satisfies [invariant_l_offset] against that successor.  On
    an index whose key space has the heap TID this is a strict order:
    compare < 0, or a tie that the key wins by having fewer key components
    than the successor, or as many and no heap TID where the successor has
    one.  On an index without it the test is compare <= 0 only, and equal
    neighbours pass.  When a loop turn reaches an entry that fails the
    test, it raises the item-order report naming the target block and both
    offsets. *)
Theorem item_order_enforced (fuel : nat) (st : BtreeCheckState) (offset : Z) :
  real_entry st offset ->
  OffsetNumberNext offset <= PageGetMaxOffsetNumber (target st) ->
  (validated fuel st = true ->
   let key := entry_key st offset in
   let next := OffsetNumberNext offset in
   let cmp := _bt_compare (rel st) key (target st) next in
   let next_keys := BTreeTupleGetNKeyAtts (entry_tuple st next) (rel st) in
   invariant_l_offset st key next = Ok true /\
   (sk_heapkeyspace key = false -> cmp <= 0) /\
   (sk_heapkeyspace key = true ->
    cmp < 0 \/
    (cmp = 0 /\
     (sk_keysz key < next_keys \/
      (sk_keysz key = next_keys /\ sk_scantid key = None /\
       BTreeTupleGetHeapTID (entry_tuple st next) <> None))))) /\
  (forall entry st1,
     bt_target_item_prologue st offset = Ok (Some entry, st1) ->
     bt_high_key_check st offset (entry_key st offset) = Ok tt ->
     invariant_l_offset st (entry_key st offset) (OffsetNumberNext offset) = Ok false ->
     bt_target_page_check_item fuel st offset
     = Raise (ItemOrderInvariant (targetblock st) offset (OffsetNumberNext offset))).
Proof.
  intros Hreal Hnext. split.
  - intros Hv key next cmp next_keys.
    destruct (validated_established fuel st offset Hv Hreal) as [_ Hord].
    specialize (Hord Hnext). split; [exact Hord|].
    apply invariant_l_offset_ok in Hord. unfold strictly_less_as_coded in Hord.
    fold key next cmp next_keys in Hord. split.
    + intros Hks. rewrite Hks in Hord. cbn [negb] in Hord.
      apply Z.leb_le. symmetry. exact Hord.
    + intros Hks. rewrite Hks in Hord. cbn [negb] in Hord. symmetry in Hord.
      apply orb_true_iff in Hord. destruct Hord as [Hlt | Htie].
      * left. apply Z.ltb_lt. exact Hlt.
      * right. apply andb_prop in Htie. destruct Htie as [Heq Htie].
        apply Z.eqb_eq in Heq. split; [exact Heq|].
        apply orb_true_iff in Htie. destruct Htie as [Hfew | Hsame].
        -- left. apply Z.ltb_lt. exact Hfew.
        -- right. apply andb_prop in Hsame. destruct Hsame as [Hsame Htid].
           apply andb_prop in Hsame. destruct Hsame as [Hk Hscan].
           apply Z.eqb_eq in Hk. split; [exact Hk|]. split.
           ++ destruct (sk_scantid key); [discriminate | reflexivity].
           ++ destruct (BTreeTupleGetHeapTID (entry_tuple st next));
                [discriminate | discriminate].
  - intros entry st1 Hpro Hhk Hord.
    unfold bt_target_page_check_item. rewrite Hpro. simpl.
    apply bt_target_item_prologue_ok in Hpro. destruct Hpro as (Hs & _ & Hentry).
    destruct entry as [[itemid itup] skey]. destruct Hentry as (_ & _ & _ & ->).
    assert (Hhk1 : bt_high_key_check st1 offset (entry_key st offset) = Ok tt).
    { revert Hhk. unfold bt_high_key_check.
      rewrite <- (bt_high_key_bound_same st st1 _ Hs).
      destruct Hs as (_ & _ & _ & _ & _ & Ht & Hb). rewrite <- Ht, <- Hb. auto. }
    rewrite Hhk1. simpl.
    unfold bt_item_order_check.
    rewrite <- (invariant_l_offset_same st st1 _ _ Hs), Hord.
    destruct Hs as (_ & _ & _ & _ & _ & Ht & Hb). rewrite <- Ht, <- Hb.
    replace (OffsetNumberNext offset <=? PageGetMaxOffsetNumber (target st)) with true
      by (symmetry; apply Z.leb_le; exact Hnext).
    simpl.
    unfold invariant_l_offset in Hord.
    destruct (PageGetItemIdCareful st (targetblock st) (target st) (OffsetNumberNext offset))
      as [itemid'| |] eqn:E; simpl in Hord; try discriminate.
    rewrite (PageGetItemIdCareful_block st st1 _ (targetblock st) _ _ _ E). reflexivity.
Qed.

(** ** The strictly-less predicate *)

(** C3 (amended).  [invariant_l_offset] first verifies the line pointer of
    the offset: one that ends past the tuple space, or is unused, a
    redirect or without storage, is reported.  With a sound line pointer, a
    tie on an index whose key space has the heap TID against a leaf entry
    that lacks its heap TID is reported; in every other case the result is:
    on an index whose key space has no heap TID, compare <= 0; otherwise
    compare < 0, or compare = 0 and the key has fewer key components than
    the entry, or as many components and no heap TID where the entry has
    one. *)
Theorem invariant_l_offset_value (st : BtreeCheckState) (key : BTScanInsertData)
        (upperbound : Z) :
  let itemid := PageGetItemId (target st) upperbound in
  (ItemIdGetOffset itemid + ItemIdGetLength itemid > BLCKSZ - sizeof_BTPageOpaqueData ->
   invariant_l_offset st key upperbound
   = Raise (LinePointerPastEnd (targetblock st) upperbound)) /\
  (ItemIdGetOffset itemid + ItemIdGetLength itemid <= BLCKSZ - sizeof_BTPageOpaqueData ->
   ItemIdIsRedirected itemid || negb (ItemIdIsUsed itemid) || (ItemIdGetLength itemid =? 0)
   = true ->
   invariant_l_offset st key upperbound
   = Raise (InvalidLinePointerStorage (targetblock st) upperbound)) /\
  (line_pointer_sound itemid ->
   (tie_lacks_heap_tid st key upperbound = true ->
    invariant_l_offset st key upperbound = Raise (NonPivotLacksHeapTid (targetblock st))) /\
   (tie_lacks_heap_tid st key upperbound = false ->
    invariant_l_offset st key upperbound = Ok (strictly_less_as_coded st key upperbound))).
Proof.
  intros itemid. unfold invariant_l_offset, PageGetItemIdCareful. fold itemid.
  split; [|split].
  - intros Hend. apply Z.gt_lt in Hend. rewrite Z.gtb_ltb.
    apply Z.ltb_lt in Hend. rewrite Hend. reflexivity.
  - intros Hend Hstore. rewrite Z.gtb_ltb.
    apply Z.ltb_ge in Hend. rewrite Hend, Hstore. reflexivity.
  - intros (Hend & Hused & Hred & Hlen).
    rewrite Z.gtb_ltb. apply Z.ltb_ge in Hend. apply Z.eqb_neq in Hlen.
    rewrite Hend, Hred, Hused, Hlen. cbn [negb orb bind].
    unfold tie_lacks_heap_tid, strictly_less_as_coded, BTreeTupleGetHeapTIDCareful,
      entry_tuple.
    subst itemid. cbv zeta.
    destruct (sk_heapkeyspace key); cbn [negb andb];
      [|split; [discriminate | reflexivity]].
    destruct (_bt_compare (rel st) key (target st) upperbound =? 0) eqn:Ecmp;
      cbn [andb]; [|split; [discriminate|]; intros _; rewrite orb_false_r; reflexivity].
    apply Z.eqb_eq in Ecmp. rewrite Ecmp. cbn [Z.ltb Z.compare orb].
    destruct (BTreeTupleGetHeapTID _) as [tid|]; cbn [is_null bind].
    + rewrite andb_false_r. split; [discriminate|]. intros _.
      destruct (sk_keysz key =? _) eqn:Ek.
      * apply Z.eqb_eq in Ek. rewrite Ek, Z.ltb_irrefl. reflexivity.
      * rewrite orb_false_r. reflexivity.
    + rewrite andb_true_r.
      destruct (P_ISLEAF _ && (upperbound >=? _)); cbn [bind].
      * split; [reflexivity | discriminate].
      * split; [discriminate|]. intros _.
        destruct (sk_keysz key =? _) eqn:Ek.
        -- apply Z.eqb_eq in Ek. rewrite Ek, Z.ltb_irrefl. reflexivity.
        -- rewrite orb_false_r. reflexivity.
Qed.

(** ** Downlinks *)

Lemma bt_downlink_check_items_each st key childblock child : forall offsets,
  bt_downlink_check_items st key childblock child offsets = Ok tt ->
  forall co, In co offsets ->
  offset_is_negative_infinity (PageGetSpecialPointer child) co = false ->
  invariant_l_nontarget_offset st key childblock child co = Ok true.
Proof.
  induction offsets as [|o rest IH]; intros H co Hin Hreal; [destruct Hin|].
  simpl in H. destruct Hin as [<-|Hin].
  - rewrite Hreal in H. bind_inv H. destruct a; [exact Hm | discriminate].
  - destruct (offset_is_negative_infinity _ o).
    + apply IH; assumption.
    + bind_inv H. destruct a; [|discriminate]. apply IH; assumption.
Qed.

Lemma bt_downlink_check_items_first st key childblock child : forall offsets co,
  StronglySorted Z.lt offsets ->
  In co offsets ->
  (forall o, In o offsets -> o < co ->
     offset_is_negative_infinity (PageGetSpecialPointer child) o = true \/
     invariant_l_nontarget_offset st key childblock child o = Ok true) ->
  offset_is_negative_infinity (PageGetSpecialPointer child) co = false ->
  invariant_l_nontarget_offset st key childblock child co = Ok false ->
  bt_downlink_check_items st key childblock child offsets
  = Raise (DownlinkLowerBound (targetblock st) childblock co).
Proof.
  induction offsets as [|o rest IH]; intros co Hsorted Hin Hbefore Hreal Hbad;
    [destruct Hin|].
  inversion Hsorted as [|? ? Hsorted' Hlt]; subst. simpl.
  destruct Hin as [<-|Hin].
  - rewrite Hreal, Hbad. reflexivity.
  - rewrite Forall_forall in Hlt. pose proof (Hlt _ Hin) as Hoco.
    assert (Hrest : bt_downlink_check_items st key childblock child rest
                    = Raise (DownlinkLowerBound (targetblock st) childblock co)).
    { apply IH; auto. intros o' Ho' Hlt'. apply Hbefore; [right; exact Ho' | exact Hlt']. }
    destruct (Hbefore o (or_introl eq_refl) Hoco) as [Hneg|Hok].
    + rewrite Hneg. exact Hrest.
    + destruct (offset_is_negative_infinity _ o); [exact Hrest|].
      rewrite Hok. simpl. exact Hrest.
Qed.

Lemma bt_last_item_check_readonly fuel st offset st1 :
  readonly st = true -> bt_last_item_check fuel st offset <> Ok (LeavePage, st1).
Proof.
  intros Hro H. unfold bt_last_item_check in H.
  bind_inv H. destruct a as [rightkey st0].
  apply bt_right_page_check_scankey_same in Hm.
  destruct Hm as (_ & _ & Hr & _). rewrite Hro in Hr.
  destruct rightkey as [rightkey|]; [|discriminate].
  destruct (negb (invariant_g_offset _ _ _)); [|discriminate].
  rewrite <- Hr in H. simpl in H. discriminate.
Qed.

Lemma bt_item_order_check_readonly fuel st offset skey st1 :
  readonly st = true -> bt_item_order_check fuel st offset skey <> Ok (LeavePage, st1).
Proof.
  intros Hro H. unfold bt_item_order_check in H.
  destruct (OffsetNumberNext offset <=? _).
  - bind_inv H. destruct (negb a).
    + bind_inv H. discriminate.
    + destruct (offset =? _); [|discriminate].
      exact (bt_last_item_check_readonly _ _ _ _ Hro H).
  - destruct (offset =? _); [|discriminate].
    exact (bt_last_item_check_readonly _ _ _ _ Hro H).
Qed.

(** In exclusive-lock mode a loop turn on a real entry of an internal page
    ends with the downlink check of the entry's child. *)
Lemma bt_target_page_check_item_downlink fuel st offset next st' :
  bt_target_page_check_item fuel st offset = Ok (next, st') ->
  readonly st = true ->
  P_ISLEAF (PageGetSpecialPointer (target st)) = false ->
  offset_is_negative_infinity (PageGetSpecialPointer (target st)) offset = false ->
  exists st2,
    same_page st st2 /\
    bt_downlink_check st2 (entry_key st offset)
                      (BTreeInnerTupleGetDownLink (entry_tuple st offset)) = Ok st'.
Proof.
  unfold bt_target_page_check_item. intros H Hro Hleaf Hreal.
  bind_inv H. destruct a as [entry st0].
  apply bt_target_item_prologue_ok in Hm. destruct Hm as (Hs & _ & Hentry).
  destruct entry as [[[itemid itup] skey]|]; [|congruence].
  destruct Hentry as (_ & _ & -> & ->).
  bind_inv H. bind_inv H. destruct a0 as [next1 st2].
  assert (Hro0 : readonly st0 = true)
    by (destruct Hs as (_ & _ & Hr & _); congruence).
  destruct next1.
  - pose proof (bt_item_order_check_next _ _ _ _ _ Hm0) as Hs2.
    assert (Hro2 : readonly st2 = true)
      by (destruct Hs2 as (_ & _ & Hr & _); congruence).
    rewrite Hleaf, Hro2 in H. simpl in H.
    bind_inv H. inversion H; subst.
    exists st2. split; [eapply same_page_trans; eassumption | exact Hm1].
  - exfalso. exact (bt_item_order_check_readonly _ _ _ _ _ Hro0 Hm0).
Qed.

(** C4 (amended).  In exclusive-lock mode, for every entry of a validated
    internal page other than the page's own negative-infinity entry, the
    child page the entry points to was fetched, is not deleted, and each of
    its entries except its own negative-infinity entry is strictly above the
    entry's key ([invariant_l_nontarget_offset]).  The first child entry
    that is not makes [bt_downlink_check] raise the lower-bound report with
    the target (parent) block, the child block and the offset.  In online
    mode a loop turn ends with the item order check: no downlink is
    followed.  The turn on the page's negative-infinity entry fetches no
    page in either mode. *)
Theorem downlink_lower_bound_enforced (fuel : nat) (st : BtreeCheckState) (offset : Z) :
  P_ISLEAF (PageGetSpecialPointer (target st)) = false ->
  let key := entry_key st offset in
  let childblock := BTreeInnerTupleGetDownLink (entry_tuple st offset) in
  (real_entry st offset -> readonly st = true -> validated fuel st = true ->
   exists n child,
     ReadBuffer n childblock = Some child /\
     P_ISDELETED (PageGetSpecialPointer child) = false /\
     forall co,
       P_FIRSTDATAKEY (PageGetSpecialPointer child) <= co <= PageGetMaxOffsetNumber child ->
       offset_is_negative_infinity (PageGetSpecialPointer child) co = false ->
       invariant_l_nontarget_offset st key childblock child co = Ok true) /\
  (forall child st1 co,
     palloc_btree_page st childblock = Ok (child, st1) ->
     P_ISDELETED (PageGetSpecialPointer child) = false ->
     P_FIRSTDATAKEY (PageGetSpecialPointer child) <= co <= PageGetMaxOffsetNumber child ->
     offset_is_negative_infinity (PageGetSpecialPointer child) co = false ->
     (forall o, P_FIRSTDATAKEY (PageGetSpecialPointer child) <= o < co ->
        offset_is_negative_infinity (PageGetSpecialPointer child) o = true \/
        invariant_l_nontarget_offset st key childblock child o = Ok true) ->
     invariant_l_nontarget_offset st key childblock child co = Ok false ->
     bt_downlink_check st key childblock
     = Raise (DownlinkLowerBound (targetblock st) childblock co)) /\
  (readonly st = false ->
   bt_target_page_check_item fuel st offset
   = ' (entry, st1) <- bt_target_item_prologue st offset ;;
     match entry with
     | None => Ok (NextItem, st1)
     | Some (_, _, skey) =>
       _ <- bt_high_key_check st1 offset skey ;;
       bt_item_order_check fuel st1 offset skey
     end) /\
  (offset_is_negative_infinity (PageGetSpecialPointer (target st)) offset = true ->
   forall next st',
     bt_target_page_check_item fuel st offset = Ok (next, st') ->
     next = NextItem /\ reads st' = reads st).
Proof.
  intros Hleaf key childblock. split; [|split; [|split]].
  - intros Hreal Hro Hv. destruct Hreal as [Hrange Hreal].
    destruct (validated_each fuel st offset Hv Hrange) as (st0 & next0 & st1 & Hs & Hitem).
    pose proof Hs as (Hr & _ & Hro' & _ & _ & Ht & Hb).
    apply bt_target_page_check_item_downlink in Hitem;
      [| congruence | rewrite <- Ht; exact Hleaf | rewrite <- Ht; exact Hreal].
    destruct Hitem as (st2 & Hs2 & Hdl).
    pose proof (same_page_trans _ _ _ Hs Hs2) as Hs02.
    rewrite <- (entry_key_same st st0 offset Hs) in Hdl.
    unfold entry_tuple in Hdl. rewrite <- Ht in Hdl.
    fold (entry_tuple st offset) in Hdl. fold key childblock in Hdl.
    unfold bt_downlink_check in Hdl. bind_inv Hdl. destruct a as [child st3].
    pose proof (palloc_btree_page_same _ _ _ _ Hm) as Hs3.
    apply palloc_btree_page_ok in Hm. destruct Hm as [Hread _].
    destruct (P_ISDELETED (PageGetSpecialPointer child)) eqn:Hdel; [discriminate|].
    bind_inv Hdl. destruct a.
    exists (reads st2), child. split; [exact Hread|]. split; [exact Hdel|].
    intros co Hco Hcreal.
    rewrite (invariant_l_nontarget_offset_same st st3)
      by (eapply same_page_trans; eassumption).
    eapply bt_downlink_check_items_each; [exact Hm | | exact Hcreal].
    apply page_offsets_in. exact Hco.
  - intros child st1 co Hfetch Hdel Hco Hcreal Hbefore Hbad.
    unfold bt_downlink_check. rewrite Hfetch. simpl. rewrite Hdel.
    pose proof (palloc_btree_page_same _ _ _ _ Hfetch) as Hs.
    pose proof Hs as (_ & _ & _ & _ & _ & _ & Hb).
    rewrite (bt_downlink_check_items_first st1 key childblock child _ co).
    + simpl. rewrite Hb. reflexivity.
    + apply page_offsets_sorted.
    + apply page_offsets_in. exact Hco.
    + intros o Ho Hlt. apply page_offsets_in in Ho.
      rewrite <- (invariant_l_nontarget_offset_same st st1 _ _ _ _ Hs).
      apply Hbefore. lia.
    + exact Hcreal.
    + rewrite <- (invariant_l_nontarget_offset_same st st1 _ _ _ _ Hs). exact Hbad.
  - intros Hro. unfold bt_target_page_check_item.
    destruct (bt_target_item_prologue st offset) as [[entry st1]| |] eqn:Hpro;
      simpl; try reflexivity.
    apply bt_target_item_prologue_ok in Hpro. destruct Hpro as (Hs & _ & _).
    destruct entry as [[[itemid itup] skey]|]; [|reflexivity].
    destruct (bt_high_key_check st1 offset skey) as [[]| |]; simpl; try reflexivity.
    destruct (bt_item_order_check fuel st1 offset skey) as [[next st2]| |] eqn:Hord;
      simpl; try reflexivity.
    destruct next; [|reflexivity].
    apply bt_item_order_check_next in Hord.
    assert (Hro2 : readonly st2 = false).
    { destruct Hs as (_ & _ & Hr1 & _). destruct Hord as (_ & _ & Hr2 & _). congruence. }
    rewrite Hro2, andb_false_r. reflexivity.
  - intros Hneg next st' Hitem. unfold bt_target_page_check_item in Hitem.
    bind_inv Hitem. destruct a as [entry st1].
    apply bt_target_item_prologue_ok in Hm. destruct Hm as (_ & Hreads & Hentry).
    destruct entry as [[[itemid itup] skey]|].
    + destruct Hentry as (Hreal & _). congruence.
    + inversion Hitem; subst. auto.
Qed.

(** ** The cross-page last-item check *)

(** A visit that the last-item check ended returns without a report. *)
Lemma bt_target_page_check_left fuel st st' :
  (if negb (P_RIGHTMOST (PageGetSpecialPointer (target st))) then
     is_ok (PageGetItemIdCareful st (targetblock st) (target st) P_HIKEY)
     && _bt_check_natts (rel st) (heapkeyspace st) (target st) P_HIKEY
   else true) = true ->
  bt_target_page_check_items fuel st
    (page_offsets (P_FIRSTDATAKEY (PageGetSpecialPointer (target st)))
                  (PageGetMaxOffsetNumber (target st))) = Ok (LeavePage, st') ->
  bt_target_page_check fuel st = Ok st'.
Proof.
  intros Hhk Hitems. unfold bt_target_page_check.
  destruct (negb (P_RIGHTMOST _)).
  - apply andb_prop in Hhk. destruct Hhk as [H1 H2].
    destruct (PageGetItemIdCareful _ _ _ _); try discriminate. simpl.
    rewrite H2. simpl. rewrite Hitems. reflexivity.
  - simpl. rewrite Hitems. reflexivity.
Qed.

(** C5.  When the right sibling chain yields a first key that is not
    strictly greater than the last item of the target, online mode first
    fetches the target again: if the fresh copy is ignorable the check ends
    the visit of the page and raises nothing, and if not the cross-page
    report is raised; exclusive-lock mode raises the cross-page report at
    once, whatever a new fetch of the target would show.  A visit whose
    loop over the items was ended this way returns without a report. *)
Theorem last_item_race_tolerated (fuel : nat) (st : BtreeCheckState) (offset : Z)
        (rightkey : BTScanInsertData) (st1 : BtreeCheckState) :
  bt_right_page_check_scankey fuel st = Ok (Some rightkey, st1) ->
  invariant_g_offset st rightkey (PageGetMaxOffsetNumber (target st)) = false ->
  (readonly st = false ->
   forall fresh st2,
     palloc_btree_page st1 (targetblock st) = Ok (fresh, st2) ->
     (P_IGNORE (PageGetSpecialPointer fresh) = true ->
      bt_last_item_check fuel st offset = Ok (LeavePage, set_target st2 fresh)) /\
     (P_IGNORE (PageGetSpecialPointer fresh) = false ->
      bt_last_item_check fuel st offset
      = Raise (CrossPageOrderInvariant (targetblock st) offset))) /\
  (readonly st = true ->
   bt_last_item_check fuel st offset
   = Raise (CrossPageOrderInvariant (targetblock st) offset)) /\
  (forall st0 st',
     (if negb (P_RIGHTMOST (PageGetSpecialPointer (target st0))) then
        is_ok (PageGetItemIdCareful st0 (targetblock st0) (target st0) P_HIKEY)
        && _bt_check_natts (rel st0) (heapkeyspace st0) (target st0) P_HIKEY
      else true) = true ->
     bt_target_page_check_items fuel st0
       (page_offsets (P_FIRSTDATAKEY (PageGetSpecialPointer (target st0)))
                     (PageGetMaxOffsetNumber (target st0))) = Ok (LeavePage, st') ->
     bt_target_page_check fuel st0 = Ok st').
Proof.
  intros Hright Hfail.
  pose proof (bt_right_page_check_scankey_same _ _ _ _ Hright) as Hs.
  pose proof Hs as (_ & _ & Hro & _ & _ & Ht & Hb).
  rewrite (invariant_g_offset_same st st1 _ _ Hs), Ht in Hfail.
  split; [|split; [|intros st0 st'; apply bt_target_page_check_left]].
  - intros Honline fresh st2 Hfetch.
    pose proof (palloc_btree_page_same _ _ _ _ Hfetch) as (_ & _ & _ & _ & _ & _ & Hb2).
    unfold bt_last_item_check. rewrite Hright. simpl.
    rewrite Ht, Hfail, <- Hro, Honline. simpl.
    rewrite <- Hb, Hfetch. simpl.
    split; intros Hign; rewrite Hign; [reflexivity|].
    rewrite <- Hb2, <- Hb. reflexivity.
  - intros Hexcl. unfold bt_last_item_check. rewrite Hright. simpl.
    rewrite Ht, Hfail, <- Hro, Hexcl. simpl. rewrite <- Hb. reflexivity.
Qed.

(** ** Baseline sanity of a fetched page *)

(** C7 (amended).  For a block other than the metadata block, a fetch that
    read the page raises a report naming the block exactly when the page
    fails the listed structural conditions, and returns the page otherwise.
    At the metadata block the fetch is decided by the metadata checks alone:
    the meta flag, the magic number and the version. *)
Theorem page_fetch_sanity (st : BtreeCheckState) (blocknum : Z) (page : PageData) :
  ReadBuffer (reads st) blocknum = Some page ->
  (blocknum <> BTREE_METAPAGE ->
   (fails_baseline_sanity blocknum page = true ->
    exists e, palloc_btree_page st blocknum = Raise e /\
              format_report_block e = Some blocknum) /\
   (fails_baseline_sanity blocknum page = false ->
    palloc_btree_page st blocknum = Ok (page, set_reads st (S (reads st))))) /\
  (blocknum = BTREE_METAPAGE ->
   palloc_btree_page st blocknum
   = if negb (P_ISMETA (PageGetSpecialPointer page))
        || negb (btm_magic (BTPageGetMeta page) =? BTREE_MAGIC)
     then Raise MetaPageCorrupt
     else if (btm_version (BTPageGetMeta page) <? BTREE_MIN_VERSION)
             || (btm_version (BTPageGetMeta page) >? BTREE_VERSION)
          then Raise (VersionMismatch (btm_version (BTPageGetMeta page)))
          else Ok (page, set_reads st (S (reads st)))).
Proof.
  intros Hread. unfold palloc_btree_page. rewrite Hread. split.
  - intros Hblock. apply Z.eqb_neq in Hblock.
    unfold fails_baseline_sanity. rewrite Hblock. cbv zeta.
    generalize (PageGetMaxOffsetNumber page <? P_FIRSTDATAKEY (PageGetSpecialPointer page)).
    generalize (PageGetMaxOffsetNumber page <? P_HIKEY).
    generalize (PageGetMaxOffsetNumber page >? MaxIndexTuplesPerPage).
    generalize (btpo_level (PageGetSpecialPointer page) =? 0).
    generalize (P_ISMETA (PageGetSpecialPointer page)).
    generalize (P_ISLEAF (PageGetSpecialPointer page)).
    generalize (P_ISDELETED (PageGetSpecialPointer page)).
    generalize (P_RIGHTMOST (PageGetSpecialPointer page)).
    generalize (P_ISHALFDEAD (PageGetSpecialPointer page)).
    generalize (P_HAS_GARBAGE (PageGetSpecialPointer page)).
    intros garbage halfdead rightmost deleted leaf meta level0 toomany nohikey lacks.
    destruct meta, leaf, deleted, level0, toomany, lacks, rightmost, nohikey,
             halfdead, garbage; simpl;
      (split; intros H;
       first [discriminate H | reflexivity | (eexists; split; reflexivity)]).
  - intros ->. simpl.
    destruct (P_ISMETA _); simpl; reflexivity.
Qed.

(** ** Ignorable pages on the level walk *)

(** C8 (amended).  When the walk fetches an ignorable page: in
    exclusive-lock mode a deleted page raises the deleted-block report; a
    rightmost ignorable page raises the fell-off-the-end report in either
    mode; otherwise the page is not validated, the cycle check made on every
    page is applied, and unless it fires the walk goes on with the page's
    right sibling. *)
Theorem ignorable_page_skipped (fuel : nat) (st : BtreeCheckState) (lvl : BtreeLevel)
        (w : level_walk) (page : PageData) (st1 : BtreeCheckState) :
  palloc_btree_page (set_targetblock st (current w)) (current w) = Ok (page, st1) ->
  P_IGNORE (PageGetSpecialPointer page) = true ->
  let opaque := PageGetSpecialPointer page in
  let st2 := set_targetlsn (set_target st1 page) (PageGetLSN page) in
  (readonly st = true -> P_ISDELETED opaque = true ->
   bt_check_level_page fuel st lvl w
   = Raise (DeletedBlockReached (current w) (leftcurrent w) (btpo_prev opaque))) /\
  (readonly st && P_ISDELETED opaque = false -> P_RIGHTMOST opaque = true ->
   bt_check_level_page fuel st lvl w = Raise (FellOffEnd (current w))) /\
  (readonly st && P_ISDELETED opaque = false -> P_RIGHTMOST opaque = false ->
   bt_check_level_page fuel st lvl w
   = if (current w =? leftcurrent w) || (current w =? btpo_prev opaque)
     then Raise (CircularLink (current w))
     else Ok (mkWalk (current w) (btpo_next opaque) (nextleveldown w),
              set_rightsplit st2 (P_INCOMPLETE_SPLIT opaque))).
Proof.
  intros Hfetch Hign opaque st2.
  pose proof (palloc_btree_page_same _ _ _ _ Hfetch) as (_ & _ & Hro & _).
  simpl in Hro.
  unfold bt_check_level_page.
  change (targetblock (set_targetblock st (current w))) with (current w).
  rewrite Hfetch.
  cbn [bind target set_targetlsn set_target readonly].
  subst opaque st2. rewrite Hign, <- Hro.
  split; [|split].
  - intros -> ->. reflexivity.
  - intros -> ->. reflexivity.
  - intros -> ->. unfold bt_check_level_nextpage. reflexivity.
Qed.

(** ** Normalization *)




(** ** The Bloom filter *)

Lemma bloom_le_refl (f : bloom_filter) : bloom_le f f.
Proof. unfold bloom_le; auto. Qed.

Lemma bloom_le_trans (f g h : bloom_filter) : bloom_le f g -> bloom_le g h -> bloom_le f h.
Proof.
  unfold bloom_le. intros (H1 & H2 & H3) (H4 & H5 & H6).
  repeat split; try congruence. auto.
Qed.

Lemma fold_set_bits (pos : N -> N) : forall (hs : list N) (bits n : N),
  N.testbit (fold_left (fun b h => N.lor b (N.shiftl 1 (pos h))) hs bits) n
  = N.testbit bits n || existsb (fun h => N.eqb (pos h) n) hs.
Proof.
  induction hs as [|h hs IH]; intros bits n; cbn [fold_left existsb].
  - rewrite orb_false_r. reflexivity.
  - rewrite IH, N.lor_spec, N.shiftl_1_l, N.pow2_bits_eqb, orb_assoc. reflexivity.
Qed.

Lemma bloom_add_le (f : bloom_filter) (elem : list Z) :
  bloom_le f (bloom_add_element f elem).
Proof.
  unfold bloom_le, bloom_add_element; cbn [bf_bitset bf_nbits bf_seed]. repeat split.
  intros n Hn. rewrite (fold_set_bits (bloom_position f)), Hn. reflexivity.
Qed.

Lemma fold_set_bits_all (pos : N -> N) (bits : N) (all : list N) : forall hs,
  (forall h, In h hs -> In h all) ->
  existsb (fun h => negb (N.testbit
             (fold_left (fun b h0 => N.lor b (N.shiftl 1 (pos h0))) all bits)
             (pos h))) hs = false.
Proof.
  induction hs as [|h hs IH]; intros Hsub; cbn [existsb]; [reflexivity|].
  rewrite IH by (intros h' Hh'; apply Hsub; right; exact Hh').
  rewrite fold_set_bits, orb_false_r.
  assert (He : existsb (fun h0 => N.eqb (pos h0) (pos h)) all = true).
  { apply existsb_exists. exists h. split; [apply Hsub; left; reflexivity|].
    apply N.eqb_refl. }
  rewrite He, orb_true_r. reflexivity.
Qed.

(** No false negatives: an element that was added is never reported absent. *)
Lemma bloom_add_present (f : bloom_filter) (elem : list Z) :
  bloom_lacks_element (bloom_add_element f elem) elem = false.
Proof.
  exact (fold_set_bits_all (bloom_position f) (bf_bitset f)
                           (bloom_hash (bf_seed f) elem) _ (fun h H => H)).
Qed.

Lemma bloom_lacks_mono (f g : bloom_filter) (elem : list Z) :
  bloom_le f g -> bloom_lacks_element f elem = false -> bloom_lacks_element g elem = false.
Proof.
  unfold bloom_le, bloom_lacks_element, bloom_position.
  intros (Hn & Hs & Hbits) H. rewrite <- Hn, <- Hs.
  revert H. generalize (bloom_hash (bf_seed f) elem) as hs.
  induction hs as [|h hs IH]; simpl; intros H; [reflexivity|].
  apply orb_false_iff in H. destruct H as [Hh Hrest].
  rewrite (IH Hrest), orb_false_r.
  apply negb_false_iff in Hh. rewrite (Hbits _ Hh). reflexivity.
Qed.

(** ** Fingerprinting during the walk *)

Lemma bt_normalize_tuple_rel (a b : BtreeCheckState) (itup : IndexTupleData) :
  rel a = rel b -> bt_normalize_tuple a itup = bt_normalize_tuple b itup.
Proof. unfold bt_normalize_tuple. intros ->. reflexivity. Qed.

Lemma palloc_btree_page_filter st blocknum page st' :
  palloc_btree_page st blocknum = Ok (page, st') -> filter st' = filter st.
Proof. intros H. apply palloc_btree_page_ok in H. destruct H as [_ ->]. reflexivity. Qed.

Lemma bt_right_page_step_filter fuel : forall st targetnext blk page st1,
  bt_right_page_step fuel st targetnext = Ok (blk, page, st1) -> filter st1 = filter st.
Proof.
  induction fuel as [|fuel IH]; simpl; intros st targetnext blk page st1 H;
    [discriminate|].
  bind_inv H. destruct a as [rightpage st0].
  apply palloc_btree_page_filter in Hm.
  destruct (negb (P_IGNORE _) || P_RIGHTMOST _).
  - inversion H; subst; exact Hm.
  - apply IH in H. congruence.
Qed.

Lemma bt_right_page_check_scankey_filter fuel st rightkey st1 :
  bt_right_page_check_scankey fuel st = Ok (rightkey, st1) -> filter st1 = filter st.
Proof.
  unfold bt_right_page_check_scankey.
  destruct (P_RIGHTMOST _).
  - intros H; inversion H; subst; reflexivity.
  - intros H. bind_inv H. destruct a as [[targetnext rightpage] st0].
    apply bt_right_page_step_filter in Hm.
    destruct (P_ISLEAF _ && _).
    + bind_inv H. inversion H; subst; exact Hm.
    + destruct (negb (P_ISLEAF _) && _).
      * bind_inv H. inversion H; subst; exact Hm.
      * inversion H; subst; exact Hm.
Qed.

Lemma bt_last_item_check_filter fuel st offset next st1 :
  bt_last_item_check fuel st offset = Ok (next, st1) -> filter st1 = filter st.
Proof.
  unfold bt_last_item_check. intros H. bind_inv H. destruct a as [rightkey st0].
  apply bt_right_page_check_scankey_filter in Hm.
  destruct rightkey as [rightkey|].
  - destruct (negb (invariant_g_offset _ _ _)).
    + destruct (negb (readonly st0)); [|discriminate].
      bind_inv H. destruct a as [fresh st2].
      apply palloc_btree_page_filter in Hm0.
      destruct (P_IGNORE _); [|discriminate].
      inversion H; subst. simpl. congruence.
    + inversion H; subst; exact Hm.
  - inversion H; subst; exact Hm.
Qed.

Lemma bt_item_order_check_filter fuel st offset skey next st1 :
  bt_item_order_check fuel st offset skey = Ok (next, st1) -> filter st1 = filter st.
Proof.
  unfold bt_item_order_check. intros H.
  destruct (OffsetNumberNext offset <=? _).
  - bind_inv H. destruct (negb a).
    + bind_inv H. discriminate.
    + destruct (offset =? _).
      * eapply bt_last_item_check_filter; exact H.
      * inversion H; subst; reflexivity.
  - destruct (offset =? _).
    + eapply bt_last_item_check_filter; exact H.
    + inversion H; subst; reflexivity.
Qed.

Lemma bt_downlink_check_filter st targetkey childblock st1 :
  bt_downlink_check st targetkey childblock = Ok st1 -> filter st1 = filter st.
Proof.
  unfold bt_downlink_check. intros H. bind_inv H. destruct a as [child st0].
  apply palloc_btree_page_filter in Hm.
  destruct (P_ISDELETED _); [discriminate|].
  bind_inv H. inversion H; subst; exact Hm.
Qed.

Lemma bt_downlink_missing_descend_filter fuel : forall st lvl childblk blk page st1,
  bt_downlink_missing_descend fuel st lvl childblk = Ok (blk, page, st1) ->
  filter st1 = filter st.
Proof.
  induction fuel as [|fuel IH]; simpl; intros st lvl childblk blk page st1 H;
    [discriminate|].
  bind_inv H. destruct a as [child st0].
  apply palloc_btree_page_filter in Hm.
  destruct (P_ISLEAF _).
  - inversion H; subst; exact Hm.
  - destruct (negb (_ =? _)); [discriminate|].
    bind_inv H. apply IH in H. congruence.
Qed.

Lemma bt_downlink_missing_check_filter fuel st st1 :
  bt_downlink_missing_check fuel st = Ok st1 -> filter st1 = filter st.
Proof.
  unfold bt_downlink_missing_check. intros H.
  destruct (P_ISROOT _); [inversion H; reflexivity|].
  destruct (rightsplit st); [inversion H; reflexivity|].
  destruct (negb (bloom_lacks_element _ _)); [inversion H; reflexivity|].
  destruct (P_ISLEAF _); [discriminate|].
  bind_inv H. bind_inv H. destruct a0 as [[childblk child] st0].
  apply bt_downlink_missing_descend_filter in Hm0.
  destruct (P_ISDELETED _); [discriminate|].
  bind_inv H. destruct a0; [|discriminate].
  inversion H; subst; exact Hm0.
Qed.

(** What the prologue of a loop turn does to the main filter: the
    normalized entry is added when the run cross-checks the table, the page
    is a leaf and the line pointer is not marked dead; otherwise the filter
    is left alone. *)
Lemma bt_target_item_prologue_filter st offset entry st1 :
  bt_target_item_prologue st offset = Ok (entry, st1) ->
  if heapallindexed st && P_ISLEAF (PageGetSpecialPointer (target st))
     && negb (ItemIdIsDead (PageGetItemId (target st) offset))
  then exists norm,
      bt_normalize_tuple st (entry_tuple st offset) = Ok norm /\
      filter st1 = bloom_add_element (filter st) (tuple_image norm)
  else filter st1 = filter st.
Proof.
  unfold bt_target_item_prologue. intros H.
  bind_inv H. apply PageGetItemIdCareful_ok in Hm. subst a.
  destruct (negb (IndexTupleSize _ =? _)); [discriminate|].
  destruct (negb (_bt_check_natts _ _ _ _)); [discriminate|].
  fold (entry_tuple st offset) in H.
  destruct (P_ISLEAF (PageGetSpecialPointer (target st))) eqn:Hleaf.
  - rewrite andb_false_r in H. cbv zeta in H.
    unfold offset_is_negative_infinity in H. rewrite Hleaf in H. simpl in H.
    destruct (rootdescend st && _ && negb (bt_rootdescend st _)); [discriminate|].
    destruct (IndexTupleSize _ >? _); [discriminate|].
    rewrite !andb_true_r in *.
    destruct (heapallindexed st && negb (ItemIdIsDead _)).
    + bind_inv H. inversion H; subst. exists a. split; [exact Hm | reflexivity].
    + inversion H; subst; reflexivity.
  - rewrite andb_false_r. simpl.
    set (st0 := if heapallindexed st && readonly st && negb false then _ else st) in *.
    assert (Hf : filter st0 = filter st)
      by (subst st0; destruct (heapallindexed st && readonly st && _); reflexivity).
    destruct (offset_is_negative_infinity _ _); [inversion H; subst; exact Hf|].
    destruct (rootdescend st0 && _ && _); [discriminate|].
    destruct (IndexTupleSize _ >? _); [discriminate|].
    rewrite andb_false_r in H. simpl in H.
    inversion H; subst; exact Hf.
Qed.

Lemma bt_target_page_check_item_filter fuel st offset next st' :
  bt_target_page_check_item fuel st offset = Ok (next, st') ->
  exists entry st1,
    bt_target_item_prologue st offset = Ok (entry, st1) /\ filter st' = filter st1.
Proof.
  unfold bt_target_page_check_item. intros H.
  bind_inv H. destruct a as [entry st0]. exists entry, st0. split; [exact Hm|].
  destruct entry as [[[itemid itup] skey]|]; [|inversion H; reflexivity].
  bind_inv H. bind_inv H. destruct a0 as [next1 st2].
  apply bt_item_order_check_filter in Hm1.
  destruct next1.
  - destruct (negb (P_ISLEAF _) && readonly st2).
    + bind_inv H. apply bt_downlink_check_filter in Hm2. inversion H; subst. congruence.
    + inversion H; subst; exact Hm1.
  - inversion H; subst; exact Hm1.
Qed.

Lemma bt_target_item_prologue_grows st offset entry st1 :
  bt_target_item_prologue st offset = Ok (entry, st1) -> bloom_le (filter st) (filter st1).
Proof.
  intros H. apply bt_target_item_prologue_filter in H.
  destruct (heapallindexed st && _ && _).
  - destruct H as (norm & _ & ->). apply bloom_add_le.
  - rewrite H. apply bloom_le_refl.
Qed.

(** The filter a loop over the items ends with holds what each turn's
    prologue left in it. *)
Lemma bt_target_page_check_items_filter fuel : forall offsets st next st',
  StronglySorted Z.lt offsets ->
  Forall (fun o => o <= PageGetMaxOffsetNumber (target st)) offsets ->
  bt_target_page_check_items fuel st offsets = Ok (next, st') ->
  bloom_le (filter st) (filter st') /\
  forall offset, In offset offsets ->
  exists st0 entry st1,
    same_page st st0 /\ bt_target_item_prologue st0 offset = Ok (entry, st1) /\
    bloom_le (filter st1) (filter st').
Proof.
  induction offsets as [|o rest IH]; intros st next st' Hsorted Hmax H.
  - simpl in H. inversion H; subst. split; [apply bloom_le_refl | intros ? []].
  - simpl in H. bind_inv H. destruct a as [next0 st1].
    inversion Hsorted as [|? ? Hsorted' Hlt]; subst.
    inversion Hmax as [|? ? Ho Hmax']; subst.
    destruct (bt_target_page_check_item_filter _ _ _ _ _ Hm) as (entry & stp & Hpro & Hf).
    pose proof (bt_target_item_prologue_grows _ _ _ _ Hpro) as Hgrow.
    rewrite <- Hf in Hgrow.
    destruct next0.
    + pose proof (bt_target_page_check_item_next _ _ _ _ Hm) as Hs.
      assert (Hmax1 : Forall (fun o => o <= PageGetMaxOffsetNumber (target st1)) rest).
      { destruct Hs as (_ & _ & _ & _ & _ & Ht & _). rewrite <- Ht. exact Hmax'. }
      destruct (IH st1 next st' Hsorted' Hmax1 H) as [Hle Heach].
      split; [eapply bloom_le_trans; eassumption|].
      intros offset [<-|Hin].
      * exists st, entry, stp. split; [apply same_page_refl|]. split; [exact Hpro|].
        rewrite <- Hf. exact Hle.
      * destruct (Heach offset Hin) as (st0 & e0 & s1 & Hs0 & Hp0 & Hle0).
        exists st0, e0, s1. split; [eapply same_page_trans; eassumption|]. auto.
    + inversion H; subst.
      split; [exact Hgrow|].
      intros offset [<-|Hin].
      * exists st, entry, stp. split; [apply same_page_refl|]. split; [exact Hpro|].
        rewrite <- Hf. apply bloom_le_refl.
      * apply bt_target_page_check_item_leave in Hm.
        rewrite Forall_forall in Hlt, Hmax'.
        specialize (Hlt _ Hin). specialize (Hmax' _ Hin). simpl in Hmax'. lia.
Qed.

Lemma fingerprint_entries_same (a b : BtreeCheckState) : forall offsets f,
  same_page a b -> fingerprint_entries a offsets f = fingerprint_entries b offsets f.
Proof.
  induction offsets as [|o rest IH]; intros f Hs; simpl; [reflexivity|].
  rewrite (IH _ Hs). unfold entry_tuple.
  rewrite (bt_normalize_tuple_rel a b) by (destruct Hs as (Hr & _); exact Hr).
  destruct Hs as (_ & _ & _ & _ & _ & Ht & _). rewrite Ht. reflexivity.
Qed.

(** On a leaf page of a run that cross-checks the table, the loop over the
    items ends with exactly the live entries added to the main filter. *)
Lemma bt_target_page_check_items_fingerprint fuel : forall offsets st next st',
  StronglySorted Z.lt offsets ->
  Forall (fun o => o <= PageGetMaxOffsetNumber (target st)) offsets ->
  heapallindexed st = true ->
  P_ISLEAF (PageGetSpecialPointer (target st)) = true ->
  bt_target_page_check_items fuel st offsets = Ok (next, st') ->
  filter st' = fingerprint_entries st offsets (filter st).
Proof.
  induction offsets as [|o rest IH]; intros st next st' Hsorted Hmax Hheap Hleaf H.
  - simpl in H. inversion H; subst. reflexivity.
  - simpl in H. bind_inv H. destruct a as [next0 st1].
    inversion Hsorted as [|? ? Hsorted' Hlt]; subst.
    inversion Hmax as [|? ? Ho Hmax']; subst.
    destruct (bt_target_page_check_item_filter _ _ _ _ _ Hm) as (entry & stp & Hpro & Hf).
    apply bt_target_item_prologue_filter in Hpro.
    rewrite Hheap, Hleaf in Hpro. simpl in Hpro.
    assert (Hstep : filter st1
                    = if ItemIdIsDead (PageGetItemId (target st) o) then filter st
                      else match bt_normalize_tuple st (entry_tuple st o) with
                           | Ok norm => bloom_add_element (filter st) (tuple_image norm)
                           | _ => filter st
                           end).
    { rewrite Hf. destruct (ItemIdIsDead _); simpl in Hpro; [exact Hpro|].
      destruct Hpro as (norm & -> & ->). reflexivity. }
    simpl. rewrite <- Hstep.
    destruct next0.
    + pose proof (bt_target_page_check_item_next _ _ _ _ Hm) as Hs.
      pose proof Hs as (_ & _ & _ & Hh & _ & Ht & _).
      rewrite (fingerprint_entries_same st st1 _ _ Hs).
      apply (IH st1 next st'); auto.
      * rewrite <- Ht. exact Hmax'.
      * congruence.
      * rewrite <- Ht. exact Hleaf.
    + inversion H; subst. destruct rest as [|o' rest]; [reflexivity|].
      apply bt_target_page_check_item_leave in Hm.
      rewrite Forall_forall in Hlt, Hmax'.
      specialize (Hlt o' (or_introl eq_refl)).
      specialize (Hmax' o' (or_introl eq_refl)). simpl in Hmax'. lia.
Qed.

Lemma bt_target_item_prologue_size st offset entry st1 :
  bt_target_item_prologue st offset = Ok (Some entry, st1) ->
  IndexTupleSize (entry_tuple st offset) <= tuple_size_limit st offset.
Proof.
  unfold bt_target_item_prologue, tuple_size_limit. intros H.
  bind_inv H. apply PageGetItemIdCareful_ok in Hm. subst a.
  destruct (negb (IndexTupleSize _ =? _)); [discriminate|].
  destruct (negb (_bt_check_natts _ _ _ _)); [discriminate|].
  fold (entry_tuple st offset) in H.
  set (st0 := if heapallindexed st && readonly st
                   && negb (P_ISLEAF (PageGetSpecialPointer (target st)))
              then _ else st) in *.
  assert (Hrel : rel st0 = rel st)
    by (subst st0; destruct (heapallindexed st && readonly st && _); reflexivity).
  destruct (offset_is_negative_infinity _ _); [discriminate|].
  destruct (rootdescend st0 && _ && _); [discriminate|].
  rewrite Hrel in H. fold (entry_key st offset) in H.
  destruct (IndexTupleSize (entry_tuple st offset) >? _) eqn:E; [discriminate|].
  rewrite Z.gtb_ltb, Z.ltb_ge in E. exact E.
Qed.

(** C10.  On a leaf page, a loop turn that passes an entry whose line
    pointer is marked dead leaves the main filter as it was, and has still
    held the entry to the size limit, to the high-key bound (on a page that
    is not rightmost the entry is at most the high key,
    [invariant_leq_offset]) and to the order with its successor
    ([invariant_l_offset]); an entry whose line pointer is not dead is added
    to the filter, normalized, when the run cross-checks the table. *)
Theorem dead_entry_not_fingerprinted (fuel : nat) (st : BtreeCheckState) (offset : Z)
        (next : flow) (st' : BtreeCheckState) :
  P_ISLEAF (PageGetSpecialPointer (target st)) = true ->
  bt_target_page_check_item fuel st offset = Ok (next, st') ->
  (ItemIdIsDead (PageGetItemId (target st) offset) = true ->
   filter st' = filter st /\
   IndexTupleSize (entry_tuple st offset) <= tuple_size_limit st offset /\
   (P_RIGHTMOST (PageGetSpecialPointer (target st)) = false ->
    invariant_leq_offset st (entry_key st offset) P_HIKEY = true) /\
   (OffsetNumberNext offset <= PageGetMaxOffsetNumber (target st) ->
    invariant_l_offset st (entry_key st offset) (OffsetNumberNext offset) = Ok true)) /\
  (ItemIdIsDead (PageGetItemId (target st) offset) = false ->
   heapallindexed st = true ->
   exists norm,
     bt_normalize_tuple st (entry_tuple st offset) = Ok norm /\
     filter st' = bloom_add_element (filter st) (tuple_image norm)).
Proof.
  intros Hleaf Hitem.
  assert (Hreal : offset_is_negative_infinity (PageGetSpecialPointer (target st)) offset
                  = false)
    by (unfold offset_is_negative_infinity; rewrite Hleaf; reflexivity).
  destruct (bt_target_page_check_item_filter _ _ _ _ _ Hitem) as (entry & st1 & Hpro & Hf).
  pose proof (bt_target_item_prologue_filter _ _ _ _ Hpro) as Hfilter.
  rewrite Hleaf, andb_true_r in Hfilter.
  split.
  - intros Hdead. rewrite Hdead, andb_false_r in Hfilter.
    split; [congruence|].
    destruct (bt_target_page_check_item_established _ _ _ _ _ Hitem Hreal) as [Hhk Hord].
    split; [|split; [|exact Hord]].
    + pose proof (bt_target_item_prologue_ok _ _ _ _ Hpro) as (_ & _ & Hentry).
      destruct entry as [e|]; [|congruence].
      eapply bt_target_item_prologue_size; exact Hpro.
    + intros Hright. revert Hhk.
      unfold bt_high_key_check, bt_high_key_bound. rewrite Hright, Hleaf. simpl.
      destruct (invariant_leq_offset _ _ _); [reflexivity | discriminate].
  - intros Hlive Hheap. rewrite Hlive, Hheap in Hfilter. simpl in Hfilter.
    destruct Hfilter as (norm & Hnorm & Hadd).
    exists norm. split; [exact Hnorm | congruence].
Qed.

(** ** The table-row probe *)

Lemma bt_tuple_present_callback_ok st htup st' :
  bt_tuple_present_callback st htup = Ok st' ->
  rel st' = rel st /\ filter st' = filter st /\
  exists norm, bt_normalize_tuple st (heap_entry st htup) = Ok norm /\
               bloom_lacks_element (filter st) (tuple_image norm) = false.
Proof.
  unfold bt_tuple_present_callback. fold (heap_entry st htup). intros H.
  bind_inv H. destruct (bloom_lacks_element _ _) eqn:E; [discriminate|].
  inversion H; subst. simpl. repeat split. exists a. auto.
Qed.

Lemma bt_normalize_attributes_raise itup : forall atts formnewtup e,
  bt_normalize_attributes itup atts formnewtup = Raise e ->
  e = ExternalVarlena (t_tid itup).
Proof.
  induction atts as [|att atts IH]; intros formnewtup e H; simpl in H; [discriminate|].
  destruct (bt_normalize_attribute itup att) as [[[d nl] forced]| |] eqn:Hatt;
    simpl in H; try discriminate.
  - destruct (bt_normalize_attributes itup atts _) as [[[n i] f]| |] eqn:Hrest;
      simpl in H; try discriminate.
    inversion H; subst. eapply IH; exact Hrest.
  - inversion H; subst. revert Hatt. unfold bt_normalize_attribute.
    destruct (index_getattr itup (attnum att)) as [d nl].
    repeat match goal with
           | |- (if ?c then _ else _) = _ -> _ => destruct c; try discriminate
           end.
    intros Hx; inversion Hx; reflexivity.
Qed.

(** The only report normalization raises is the one for an external value. *)
Lemma bt_normalize_tuple_raise st itup e :
  bt_normalize_tuple st itup = Raise e -> e = ExternalVarlena (t_tid itup).
Proof.
  unfold bt_normalize_tuple. intros H.
  destruct (negb (IndexTupleHasVarwidths itup)); [discriminate|].
  destruct (bt_normalize_attributes itup _ false) as [[[n i] f]| |] eqn:Ha;
    simpl in H; try discriminate.
  - destruct (negb f); discriminate.
  - inversion H; subst. eapply bt_normalize_attributes_raise; exact Ha.
Qed.

Lemma table_index_build_scan_report : forall rows st tid,
  table_index_build_scan st rows = Raise (HeapTupleLacksIndexTuple tid) ->
  exists htup norm,
    In htup rows /\ t_self htup = tid /\
    bt_normalize_tuple st (heap_entry st htup) = Ok norm /\
    bloom_lacks_element (filter st) (tuple_image norm) = true.
Proof.
  induction rows as [|htup rest IH]; intros st tid H; simpl in H; [discriminate|].
  destruct (bt_tuple_present_callback st htup) as [st1| |] eqn:Hcb; simpl in H;
    try discriminate.
  - apply bt_tuple_present_callback_ok in Hcb. destruct Hcb as (Hrel & Hf & _).
    destruct (IH st1 tid H) as (h & norm & Hin & Htid & Hnorm & Hlacks).
    exists h, norm. split; [right; exact Hin|]. split; [exact Htid|].
    unfold heap_entry in *. rewrite Hrel in Hnorm. rewrite Hf in Hlacks.
    rewrite (bt_normalize_tuple_rel st st1) by (symmetry; exact Hrel). auto.
  - unfold bt_tuple_present_callback in Hcb. fold (heap_entry st htup) in Hcb.
    destruct (bt_normalize_tuple st (heap_entry st htup)) as [norm|e0|] eqn:Hnorm;
      simpl in Hcb; try discriminate.
    + destruct (bloom_lacks_element _ _) eqn:E; [|discriminate].
      inversion Hcb; subst e. simpl in H. inversion H; subst tid.
      exists htup, norm. split; [left; reflexivity|]. auto.
    + apply bt_normalize_tuple_raise in Hnorm. subst e0.
      inversion Hcb; subst e. discriminate.
Qed.

Lemma table_index_build_scan_first : forall pre st htup post norm,
  (forall h, In h pre ->
     exists n, bt_normalize_tuple st (heap_entry st h) = Ok n /\
               bloom_lacks_element (filter st) (tuple_image n) = false) ->
  bt_normalize_tuple st (heap_entry st htup) = Ok norm ->
  bloom_lacks_element (filter st) (tuple_image norm) = true ->
  table_index_build_scan st (pre ++ htup :: post)
  = Raise (HeapTupleLacksIndexTuple (t_self htup)).
Proof.
  induction pre as [|h pre IH]; intros st htup post norm Hpre Hnorm Hlacks; simpl.
  - unfold bt_tuple_present_callback. fold (heap_entry st htup).
    rewrite Hnorm. simpl. rewrite Hlacks. reflexivity.
  - destruct (Hpre h (or_introl eq_refl)) as (n & Hn & Hl).
    unfold bt_tuple_present_callback at 1. fold (heap_entry st h).
    rewrite Hn. simpl. rewrite Hl. simpl.
    apply (IH _ htup post norm).
    + intros h' Hh'. destruct (Hpre h' (or_intror Hh')) as (n' & Hn' & Hl').
      exists n'. split; [|exact Hl'].
      rewrite <- Hn'. apply bt_normalize_tuple_rel. reflexivity.
    + rewrite <- Hnorm. apply bt_normalize_tuple_rel. reflexivity.
    + exact Hlacks.
Qed.

(** C6 (amended).  After a leaf page was validated in a run that
    cross-checks the table, the main filter is the filter before the visit
    with the normalized form of each entry added whose line pointer is not
    marked dead, and of no other; these forms are in the filter, and stay
    in it as it grows.  The drain of the table raises the missing-entry
    report only for a row whose normalized entry the filter reports absent,
    which is then the normalized form of none of those entries; and it
    raises it for the first such row in scan order, naming that row's
    reference, and stops there. *)
Theorem heap_cross_check (fuel : nat) (st st' stq : BtreeCheckState)
        (rows : list HeapTupleData) :
  bt_target_page_check fuel st = Ok st' ->
  heapallindexed st = true ->
  P_ISLEAF (PageGetSpecialPointer (target st)) = true ->
  rel stq = rel st ->
  bloom_le (filter st') (filter stq) ->
  filter st'
  = fingerprint_entries st
      (page_offsets (P_FIRSTDATAKEY (PageGetSpecialPointer (target st)))
                    (PageGetMaxOffsetNumber (target st)))
      (filter st) /\
  (forall offset,
     P_FIRSTDATAKEY (PageGetSpecialPointer (target st)) <= offset
       <= PageGetMaxOffsetNumber (target st) ->
     ItemIdIsDead (PageGetItemId (target st) offset) = false ->
     exists norm,
       bt_normalize_tuple st (entry_tuple st offset) = Ok norm /\
       bloom_lacks_element (filter stq) (tuple_image norm) = false) /\
  (forall tid,
     table_index_build_scan stq rows = Raise (HeapTupleLacksIndexTuple tid) ->
     exists htup norm,
       In htup rows /\ t_self htup = tid /\
       bt_normalize_tuple stq (heap_entry stq htup) = Ok norm /\
       bloom_lacks_element (filter stq) (tuple_image norm) = true /\
       forall offset,
         P_FIRSTDATAKEY (PageGetSpecialPointer (target st)) <= offset
           <= PageGetMaxOffsetNumber (target st) ->
         ItemIdIsDead (PageGetItemId (target st) offset) = false ->
         bt_normalize_tuple st (entry_tuple st offset) <> Ok norm) /\
  (forall pre htup post norm,
     rows = pre ++ htup :: post ->
     (forall h, In h pre ->
        exists n, bt_normalize_tuple stq (heap_entry stq h) = Ok n /\
                  bloom_lacks_element (filter stq) (tuple_image n) = false) ->
     bt_normalize_tuple stq (heap_entry stq htup) = Ok norm ->
     bloom_lacks_element (filter stq) (tuple_image norm) = true ->
     table_index_build_scan stq rows = Raise (HeapTupleLacksIndexTuple (t_self htup))).
Proof.
  intros Hcheck Hheap Hleaf Hrel Hgrown.
  split.
  { unfold bt_target_page_check in Hcheck.
    bind_inv Hcheck. bind_inv Hcheck. destruct a0 as [next st1].
    assert (Hfinal : filter st' = filter st1).
    { destruct next; [|inversion Hcheck; reflexivity].
      destruct (heapallindexed st1 && readonly st1); [|inversion Hcheck; reflexivity].
      eapply bt_downlink_missing_check_filter; exact Hcheck. }
    rewrite Hfinal.
    eapply bt_target_page_check_items_fingerprint; eauto.
    - apply page_offsets_sorted.
    - apply page_offsets_bound. }
  assert (Hfp : forall offset,
             P_FIRSTDATAKEY (PageGetSpecialPointer (target st)) <= offset
               <= PageGetMaxOffsetNumber (target st) ->
             ItemIdIsDead (PageGetItemId (target st) offset) = false ->
             exists norm,
               bt_normalize_tuple st (entry_tuple st offset) = Ok norm /\
               bloom_lacks_element (filter stq) (tuple_image norm) = false).
  { intros offset Hrange Hlive.
    unfold bt_target_page_check in Hcheck.
    bind_inv Hcheck. bind_inv Hcheck. destruct a0 as [next st1].
    destruct (bt_target_page_check_items_filter fuel _ st next st1
                (page_offsets_sorted _ _) (page_offsets_bound _ _) Hm0) as [_ Heach].
    destruct (Heach offset (proj2 (page_offsets_in _ _ _) Hrange))
      as (st0 & entry & stp & Hs & Hpro & Hle).
    assert (Hfinal : filter st' = filter st1).
    { destruct next; [|inversion Hcheck; reflexivity].
      destruct (heapallindexed st1 && readonly st1); [|inversion Hcheck; reflexivity].
      eapply bt_downlink_missing_check_filter; exact Hcheck. }
    apply bt_target_item_prologue_filter in Hpro.
    pose proof Hs as (Hr & _ & _ & Hh & _ & Ht & _).
    rewrite <- Hh, <- Ht, Hheap, Hleaf, Hlive in Hpro. simpl in Hpro.
    destruct Hpro as (norm & Hnorm & Hadd).
    exists norm. split.
    - rewrite <- Hnorm. unfold entry_tuple. rewrite Ht.
      apply bt_normalize_tuple_rel. exact Hr.
    - apply (bloom_lacks_mono (filter stp)).
      + eapply bloom_le_trans; [exact Hle|]. rewrite <- Hfinal. exact Hgrown.
      + rewrite Hadd. apply bloom_add_present. }
  split; [exact Hfp|]. split.
  - intros tid Hreport.
    destruct (table_index_build_scan_report _ _ _ Hreport)
      as (htup & norm & Hin & Htid & Hnorm & Hlacks).
    exists htup, norm. repeat split; auto.
    intros offset Hrange Hlive Heq.
    destruct (Hfp offset Hrange Hlive) as (norm' & Hn' & Hl').
    rewrite Heq in Hn'. inversion Hn'; subst. congruence.
  - intros pre htup post norm -> Hpre Hnorm Hlacks.
    eapply table_index_build_scan_first; eassumption.
Qed.

End Properties.

(** * Further properties of the verifier *)

Section Coverage.

Context {collab : Collaborators}.

Local Ltac bind_split H :=
  let a := fresh "a" in
  let Ha := fresh "Hm" in
  apply bind_ok in H; destruct H as [a [Ha H]].

(** ** What a validated page is known to satisfy *)

Lemma PageGetItemIdCareful_sound st block page offset itemid :
  PageGetItemIdCareful st block page offset = Ok itemid ->
  line_pointer_sound (PageGetItemId page offset).
Proof.
  unfold PageGetItemIdCareful, line_pointer_sound. intros H.
  destruct (_ >? _) eqn:Eend; [discriminate|].
  destruct (_ || _) eqn:Estore; [discriminate|].
  apply orb_false_elim in Estore. destruct Estore as [Estore Elen].
  apply orb_false_elim in Estore. destruct Estore as [Ered Eused].
  apply negb_false_iff in Eused. apply Z.eqb_neq in Elen.
  rewrite Z.gtb_ltb, Z.ltb_ge in Eend. auto.
Qed.

Lemma bt_target_item_prologue_sound st offset entry st1 :
  bt_target_item_prologue st offset = Ok (entry, st1) ->
  line_pointer_sound (PageGetItemId (target st) offset) /\
  IndexTupleSize (entry_tuple st offset) = ItemIdGetLength (PageGetItemId (target st) offset) /\
  _bt_check_natts (rel st) (heapkeyspace st) (target st) offset = true.
Proof.
  unfold bt_target_item_prologue. intros H. bind_split H.
  pose proof (PageGetItemIdCareful_sound _ _ _ _ _ Hm) as Hs.
  apply PageGetItemIdCareful_ok in Hm. subst a.
  destruct (negb (_ =? _)) eqn:Esz; [discriminate|].
  destruct (negb (_bt_check_natts _ _ _ _)) eqn:Enat; [discriminate|].
  apply negb_false_iff in Esz, Enat. apply Z.eqb_eq in Esz.
  auto.
Qed.

(** X1.  On a page that [bt_target_page_check] accepts, every item the loop
    visits (the negative-infinity item included) has a line pointer whose
    tuple lies before the page trailer, is in use, is no redirect and has
    storage; the tuple's own size field equals the line pointer's length;
    and the tuple has the number of attributes nbtree expects there.  The
    high key of a page that is not rightmost has a sound line pointer and
    the expected number of attributes too. *)
Theorem validated_items_sound (fuel : nat) (st : BtreeCheckState) :
  validated fuel st = true ->
  (P_RIGHTMOST (PageGetSpecialPointer (target st)) = false ->
   line_pointer_sound (PageGetItemId (target st) P_HIKEY) /\
   _bt_check_natts (rel st) (heapkeyspace st) (target st) P_HIKEY = true) /\
  (forall offset,
     P_FIRSTDATAKEY (PageGetSpecialPointer (target st)) <= offset
       <= PageGetMaxOffsetNumber (target st) ->
     line_pointer_sound (PageGetItemId (target st) offset) /\
     IndexTupleSize (entry_tuple st offset)
     = ItemIdGetLength (PageGetItemId (target st) offset) /\
     _bt_check_natts (rel st) (heapkeyspace st) (target st) offset = true).
Proof.
  intros Hv. split.
  - intros Hrm. unfold validated, bt_target_page_check in Hv.
    rewrite Hrm in Hv. cbn [negb] in Hv.
    destruct (PageGetItemIdCareful st (targetblock st) (target st) P_HIKEY) eqn:Ehk;
      cbn [bind] in Hv; try discriminate.
    apply PageGetItemIdCareful_sound in Ehk. split; [exact Ehk|].
    destruct (_bt_check_natts (rel st) (heapkeyspace st) (target st) P_HIKEY);
      [reflexivity | discriminate].
  - intros offset Hrange.
    destruct (validated_each fuel st offset Hv Hrange) as (st0 & next0 & st1 & Hsame & Hitem).
    unfold bt_target_page_check_item in Hitem. bind_split Hitem. destruct a as [entry st2].
    apply bt_target_item_prologue_sound in Hm.
    destruct Hsame as (Hrel & Hhks & _ & _ & _ & Htarget & _).
    unfold entry_tuple in *. rewrite <- Hrel, <- Hhks, <- Htarget in Hm. exact Hm.
Qed.

(** X2.  On a page that [bt_target_page_check] accepts, no entry other than
    the negative-infinity item is larger than the limit of lines 1142-1145:
    [BTMaxItemSize] for a leaf entry or a boundary entry without tie-break
    reference on an index with tie-break references in its key space,
    [BTMaxItemSizeNoHeapTid] otherwise. *)
Theorem validated_sizes_bounded (fuel : nat) (st : BtreeCheckState) (offset : Z) :
  validated fuel st = true ->
  real_entry st offset ->
  IndexTupleSize (entry_tuple st offset) <= tuple_size_limit st offset /\
  IndexTupleSize (entry_tuple st offset) <= BTMaxItemSizeNoHeapTid.
Proof.
  intros Hv [Hrange Hneg].
  destruct (validated_each fuel st offset Hv Hrange) as (st0 & next0 & st1 & Hsame & Hitem).
  assert (Hlim : IndexTupleSize (entry_tuple st offset) <= tuple_size_limit st offset).
  { unfold bt_target_page_check_item in Hitem. bind_split Hitem. destruct a as [entry st2].
    pose proof (bt_target_item_prologue_ok _ _ _ _ Hm) as (_ & _ & Hentry).
    pose proof Hsame as (Hrel & _ & _ & _ & _ & Htarget & _).
    destruct entry as [entry|].
    - apply bt_target_item_prologue_size in Hm.
      unfold tuple_size_limit in *. rewrite <- (entry_key_same _ _ offset Hsame) in Hm.
      unfold entry_tuple in *. rewrite <- Htarget in Hm. exact Hm.
    - rewrite <- Htarget in Hentry. congruence. }
  split; [exact Hlim|].
  unfold tuple_size_limit in Hlim.
  destruct (_ && _) in Hlim; unfold BTMaxItemSize, BTMaxItemSizeNoHeapTid in *; lia.
Qed.

(** ** Normalization *)

Lemma bt_normalize_attribute_outcome itup att :
  if attribute_external itup att
  then bt_normalize_attribute itup att = Raise (ExternalVarlena (t_tid itup))
  else exists d isnull forced, bt_normalize_attribute itup att = Ok (d, isnull, forced).
Proof.
  unfold attribute_external, bt_normalize_attribute.
  destruct (index_getattr itup (attnum att)) as [d isnull].
  destruct (attbyval att || negb (attlen att =? -1) || isnull); cbn [negb andb].
  - eauto.
  - destruct (VARATT_IS_EXTERNAL (DatumGetPointer d)); [reflexivity|].
    destruct (_ && _); [eauto|].
    destruct (VARATT_IS_COMPRESSED _); [eauto|].
    destruct (VARATT_CAN_MAKE_SHORT _); eauto.
Qed.

Lemma bt_normalize_attributes_outcome itup : forall atts formnewtup,
  if existsb (attribute_external itup) atts
  then bt_normalize_attributes itup atts formnewtup = Raise (ExternalVarlena (t_tid itup))
  else exists normalized isnulls formnewtup',
      bt_normalize_attributes itup atts formnewtup = Ok (normalized, isnulls, formnewtup').
Proof.
  induction atts as [|att rest IH]; intros formnewtup; cbn [existsb bt_normalize_attributes].
  - eauto.
  - pose proof (bt_normalize_attribute_outcome itup att) as Hatt.
    destruct (attribute_external itup att); cbn [orb].
    + rewrite Hatt. reflexivity.
    + destruct Hatt as (d & isnull & forced & ->). cbn [bind].
      specialize (IH (formnewtup || forced)).
      destruct (existsb (attribute_external itup) rest).
      * rewrite IH. reflexivity.
      * destruct IH as (n & i & f & ->). cbn [bind]. eauto.
Qed.

(** X3.  [bt_normalize_tuple] fails exactly on a tuple with variable-width
    attributes one of whose non-null variable-length values is stored out of
    line, and then with the external-varlena report that names the tuple's
    table-row reference; on every other tuple it returns a tuple with the
    same table-row reference as the one it was given. *)
Theorem bt_normalize_tuple_outcome (st : BtreeCheckState) (itup : IndexTupleData) :
  if IndexTupleHasVarwidths itup
     && existsb (attribute_external itup) (RelationGetDescr (rel st))
  then bt_normalize_tuple st itup = Raise (ExternalVarlena (t_tid itup))
  else exists norm, bt_normalize_tuple st itup = Ok norm /\ t_tid norm = t_tid itup.
Proof.
  unfold bt_normalize_tuple.
  destruct (IndexTupleHasVarwidths itup); cbn [negb andb].
  - pose proof (bt_normalize_attributes_outcome itup (RelationGetDescr (rel st)) false) as H.
    destruct (existsb _ _).
    + rewrite H. reflexivity.
    + destruct H as (n & i & f & ->). cbn [bind].
      destruct f; cbn [negb]; eexists; split; reflexivity.
  - eexists; split; reflexivity.
Qed.

(** ** The invariant oracle *)

(** X4.  Asked about an item of the target page itself,
    [invariant_l_nontarget_offset] answers as [invariant_l_offset] does:
    the two copies of the tie-break logic agree, reports included. *)
Theorem invariant_l_nontarget_on_target (st : BtreeCheckState) (key : BTScanInsertData)
        (upperbound : Z) :
  invariant_l_nontarget_offset st key (targetblock st) (target st) upperbound
  = invariant_l_offset st key upperbound.
Proof.
  unfold invariant_l_nontarget_offset, invariant_l_offset, invariant_leq_offset.
  destruct (PageGetItemIdCareful st (targetblock st) (target st) upperbound);
    cbn [bind]; reflexivity.
Qed.

(** X5.  The three comparisons of the oracle are consistent with each
    other: a key that is strictly below an item is also at most that item;
    on an index with tie-break references in its key space a key is above an
    item exactly when it is not at most that item, so no key is both
    strictly below and above one item; on an index without them a tie
    satisfies both "at most" and "above". *)
Theorem invariant_oracle_consistent (st : BtreeCheckState) (key : BTScanInsertData)
        (offset : Z) :
  (invariant_l_offset st key offset = Ok true ->
   invariant_leq_offset st key offset = true) /\
  (sk_heapkeyspace key = true ->
   invariant_g_offset st key offset = negb (invariant_leq_offset st key offset)) /\
  (sk_heapkeyspace key = false ->
   invariant_g_offset st key offset && invariant_leq_offset st key offset
   = (_bt_compare (rel st) key (target st) offset =? 0)).
Proof.
  unfold invariant_l_offset, invariant_g_offset, invariant_leq_offset.
  split; [|split].
  - intros H. bind_split H.
    destruct (negb (sk_heapkeyspace key)).
    + injection H as Hleq. exact Hleq.
    + destruct (_ =? 0) eqn:Ecmp.
      * apply Z.eqb_eq in Ecmp. rewrite Ecmp. reflexivity.
      * injection H as Hlt. apply Z.ltb_lt in Hlt. apply Z.leb_le. lia.
  - intros ->. cbn [negb].
    destruct (_ <=? 0) eqn:E; cbn [negb].
    + apply Z.leb_le in E. rewrite Z.gtb_ltb. apply Z.ltb_ge. exact E.
    + apply Z.leb_gt in E. rewrite Z.gtb_ltb. apply Z.ltb_lt. exact E.
  - intros ->. cbn [negb]. rewrite Z.geb_leb.
    destruct (_ =? 0) eqn:E.
    + apply Z.eqb_eq in E. rewrite E. reflexivity.
    + apply Z.eqb_neq in E. apply andb_false_iff.
      destruct (Z.leb_spec 0 (_bt_compare (rel st) key (target st) offset)).
      * right. apply Z.leb_gt. lia.
      * left. reflexivity.
Qed.

(** ** The table scan *)

Lemma set_heaptuplespresent_twice st a b :
  set_heaptuplespresent (set_heaptuplespresent st a) b = set_heaptuplespresent st b.
Proof. reflexivity. Qed.

Lemma bt_tuple_present_callback_value st htup :
  bt_tuple_present_callback st htup
  = match bt_normalize_tuple st (heap_entry st htup) with
    | Ok norm =>
      if bloom_lacks_element (filter st) (tuple_image norm)
      then Raise (HeapTupleLacksIndexTuple (t_self htup))
      else Ok (set_heaptuplespresent st (heaptuplespresent st + 1))
    | Raise e => Raise e
    | Spin => Spin
    end.
Proof.
  unfold bt_tuple_present_callback, heap_entry.
  destruct (bt_normalize_tuple st _); reflexivity.
Qed.

Lemma table_index_build_scan_counts : forall rows st,
  (forall st', table_index_build_scan st rows = Ok st' ->
     st' = set_heaptuplespresent st (heaptuplespresent st + Z.of_nat (length rows))) /\
  (is_ok (table_index_build_scan st rows) = true <->
   forall htup, In htup rows ->
     exists norm, bt_normalize_tuple st (heap_entry st htup) = Ok norm /\
                  bloom_lacks_element (filter st) (tuple_image norm) = false).
Proof.
  induction rows as [|htup rest IH]; intros st.
  - cbn [table_index_build_scan length is_ok]. split.
    + intros st' H. inversion H. destruct st'. unfold set_heaptuplespresent. cbn.
      f_equal. lia.
    + split; [intros _ h []| reflexivity].
  - cbn [table_index_build_scan]. rewrite bt_tuple_present_callback_value.
    set (st1 := set_heaptuplespresent st (heaptuplespresent st + 1)).
    assert (Hnorm : forall h, bt_normalize_tuple st1 (heap_entry st1 h)
                              = bt_normalize_tuple st (heap_entry st h)) by reflexivity.
    destruct (IH st1) as [IHv IHp].
    destruct (bt_normalize_tuple st (heap_entry st htup)) as [norm| |] eqn:En; cbn [bind].
    + destruct (bloom_lacks_element (filter st) (tuple_image norm)) eqn:El; cbn [bind].
      * split; [discriminate|]. cbn [is_ok]. split; [discriminate|].
        intros H. destruct (H htup (or_introl eq_refl)) as (n & Hn & Hl).
        rewrite En in Hn. inversion Hn; subst n. congruence.
      * split.
        -- intros st' H. apply IHv in H. subst st'. subst st1.
           rewrite set_heaptuplespresent_twice. f_equal. cbn [heaptuplespresent set_heaptuplespresent length].
           lia.
        -- rewrite IHp. split.
           ++ intros H h [<-|Hin]; [eauto|].
              destruct (H h Hin) as (n & Hn & Hl). rewrite Hnorm in Hn. eauto.
           ++ intros H h Hin. destruct (H h (or_intror Hin)) as (n & Hn & Hl).
              rewrite Hnorm. eauto.
    + split; [discriminate|]. cbn [is_ok]. split; [discriminate|].
      intros H. destruct (H htup (or_introl eq_refl)) as (n & Hn & _). congruence.
    + split; [discriminate|]. cbn [is_ok]. split; [discriminate|].
      intros H. destruct (H htup (or_introl eq_refl)) as (n & Hn & _). congruence.
Qed.

(** X6.  The table scan returns normally exactly when, for every row it
    yields, the entry formed for the row normalizes and the filter does not
    report it absent; it then has counted every row in [heaptuplespresent]
    and changed nothing else of the state. *)
Theorem table_scan_counts_rows (st : BtreeCheckState) (rows : list HeapTupleData) :
  (forall st', table_index_build_scan st rows = Ok st' ->
     st' = set_heaptuplespresent st (heaptuplespresent st + Z.of_nat (length rows))) /\
  (is_ok (table_index_build_scan st rows) = true <->
   forall htup, In htup rows ->
     exists norm, bt_normalize_tuple st (heap_entry st htup) = Ok norm /\
                  bloom_lacks_element (filter st) (tuple_image norm) = false).
Proof. apply table_index_build_scan_counts. Qed.

(** ** Calls that only read pages *)

Lemma set_reads_twice st n m : set_reads (set_reads st n) m = set_reads st m.
Proof. reflexivity. Qed.

Lemma set_reads_self st : set_reads st (reads st) = st.
Proof. destruct st; reflexivity. Qed.

Lemma palloc_btree_page_reads st blocknum page st1 :
  palloc_btree_page st blocknum = Ok (page, st1) ->
  st1 = set_reads st (reads st1) /\ reads st1 = S (reads st) /\
  ReadBuffer (reads st) blocknum = Some page.
Proof.
  intros H. apply palloc_btree_page_ok in H. destruct H as [Hread ->].
  split; [reflexivity | split; [reflexivity | exact Hread]].
Qed.

Lemma bt_right_page_step_reads fuel : forall st targetnext blk page st1,
  bt_right_page_step fuel st targetnext = Ok (blk, page, st1) ->
  st1 = set_reads st (reads st1) /\
  (reads st < reads st1)%nat /\
  ReadBuffer (Nat.pred (reads st1)) blk = Some page /\
  negb (P_IGNORE (PageGetSpecialPointer page)) || P_RIGHTMOST (PageGetSpecialPointer page)
  = true /\
  forall n, (reads st <= n < Nat.pred (reads st1))%nat ->
    exists b skipped,
      ReadBuffer n b = Some skipped /\
      P_IGNORE (PageGetSpecialPointer skipped) = true /\
      P_RIGHTMOST (PageGetSpecialPointer skipped) = false.
Proof.
  induction fuel as [|fuel IH]; intros st targetnext blk page st1 H; [discriminate|].
  cbn [bt_right_page_step] in H. bind_split H. destruct a as [rightpage st0].
  apply palloc_btree_page_reads in Hm. destruct Hm as (Hst0 & Hreads & Hread).
  destruct (negb (P_IGNORE _) || P_RIGHTMOST _) eqn:Estop.
  - inversion H; subst blk page st1.
    split; [exact Hst0|]. rewrite Hreads. cbn [Nat.pred].
    split; [lia|]. split; [exact Hread|]. split; [exact Estop|].
    intros n Hn. lia.
  - apply IH in H. destruct H as (Hst1 & Hlt & Hlast & Hstop & Hskipped).
    split; [|split; [|split; [|split]]]; auto.
    + rewrite Hst1, Hst0. reflexivity.
    + lia.
    + intros n Hn. destruct (Nat.eq_dec n (reads st)) as [->|Hne].
      * apply orb_false_elim in Estop. destruct Estop as [Eign Erm].
        apply negb_false_iff in Eign. eauto.
      * apply Hskipped. lia.
Qed.

Lemma bt_right_page_check_scankey_reads fuel st rightkey st1 :
  bt_right_page_check_scankey fuel st = Ok (rightkey, st1) ->
  st1 = set_reads st (reads st1).
Proof.
  unfold bt_right_page_check_scankey. intros H.
  destruct (P_RIGHTMOST (PageGetSpecialPointer (target st))).
  - inversion H; subst. rewrite set_reads_self. reflexivity.
  - bind_split H. destruct a as [[targetnext rightpage] st0].
    apply bt_right_page_step_reads in Hm. destruct Hm as (Hst0 & _).
    destruct (_ && _).
    + bind_split H. inversion H; subst. exact Hst0.
    + destruct (_ && _).
      * bind_split H. inversion H; subst. exact Hst0.
      * inversion H; subst. exact Hst0.
Qed.

(** X7.  [bt_right_page_check_scankey] reads nothing when the target is
    rightmost.  Otherwise the page it takes the key from is the last one it
    read; that page is not ignorable, or is rightmost; every page read
    before it was ignorable and not rightmost; a key it returns is built
    from the first data item of a leaf page, or from the item after the
    negative-infinity item of an internal page, whose line pointer is
    sound; it returns no key when the page has no such item; and of the
    state only the read position has changed. *)
Theorem right_page_scankey_source (fuel : nat) (st : BtreeCheckState)
        (rightkey : option BTScanInsertData) (st1 : BtreeCheckState) :
  bt_right_page_check_scankey fuel st = Ok (rightkey, st1) ->
  st1 = set_reads st (reads st1) /\
  if P_RIGHTMOST (PageGetSpecialPointer (target st))
  then rightkey = None /\ reads st1 = reads st
  else
    exists blk page,
      (reads st < reads st1)%nat /\
      ReadBuffer (Nat.pred (reads st1)) blk = Some page /\
      negb (P_IGNORE (PageGetSpecialPointer page)) || P_RIGHTMOST (PageGetSpecialPointer page)
      = true /\
      (forall n, (reads st <= n < Nat.pred (reads st1))%nat ->
         exists b skipped,
           ReadBuffer n b = Some skipped /\
           P_IGNORE (PageGetSpecialPointer skipped) = true /\
           P_RIGHTMOST (PageGetSpecialPointer skipped) = false) /\
      let first := if P_ISLEAF (PageGetSpecialPointer page)
                   then P_FIRSTDATAKEY (PageGetSpecialPointer page)
                   else OffsetNumberNext (P_FIRSTDATAKEY (PageGetSpecialPointer page)) in
      match rightkey with
      | Some key =>
        first <= PageGetMaxOffsetNumber page /\
        line_pointer_sound (PageGetItemId page first) /\
        key = bt_mkscankey_pivotsearch (rel st) (PageGetItem page (PageGetItemId page first))
      | None => PageGetMaxOffsetNumber page < first
      end.
Proof.
  unfold bt_right_page_check_scankey. intros H.
  destruct (P_RIGHTMOST (PageGetSpecialPointer (target st))).
  - inversion H; subst. rewrite set_reads_self. auto.
  - bind_split H. destruct a as [[targetnext rightpage] st0].
    apply bt_right_page_step_reads in Hm.
    destruct Hm as (Hst0 & Hlt & Hlast & Hstop & Hskipped).
    assert (Hrel : rel st0 = rel st) by (rewrite Hst0; reflexivity).
    destruct (P_ISLEAF (PageGetSpecialPointer rightpage)) eqn:Eleaf; cbn [andb negb] in H.
    + destruct (_ >=? _) eqn:Eline.
      * bind_split H. inversion H; subst rightkey st1.
        split; [exact Hst0|]. exists targetnext, rightpage.
        rewrite Eleaf. cbn zeta.
        pose proof (PageGetItemIdCareful_sound _ _ _ _ _ Hm) as Hsound.
        apply PageGetItemIdCareful_ok in Hm. subst a.
        rewrite Z.geb_leb in Eline. apply Z.leb_le in Eline.
        rewrite Hrel. repeat split; auto; apply Hsound.
      * inversion H; subst rightkey st1.
        split; [exact Hst0|]. exists targetnext, rightpage.
        rewrite Eleaf. cbn zeta.
        rewrite Z.geb_leb in Eline. apply Z.leb_gt in Eline.
        repeat split; auto.
    + destruct (_ >=? _) eqn:Eline.
      * bind_split H. inversion H; subst rightkey st1.
        split; [exact Hst0|]. exists targetnext, rightpage.
        rewrite Eleaf. cbn zeta.
        pose proof (PageGetItemIdCareful_sound _ _ _ _ _ Hm) as Hsound.
        apply PageGetItemIdCareful_ok in Hm. subst a.
        rewrite Z.geb_leb in Eline. apply Z.leb_le in Eline.
        rewrite Hrel. repeat split; auto; apply Hsound.
      * inversion H; subst rightkey st1.
        split; [exact Hst0|]. exists targetnext, rightpage.
        rewrite Eleaf. cbn zeta.
        rewrite Z.geb_leb in Eline. apply Z.leb_gt in Eline.
        repeat split; auto.
Qed.

(** ** The leftmost page of a level *)

Lemma bt_leftmost_walk_reads fuel : forall st start reached reached_from result st1,
  bt_leftmost_walk fuel st start reached reached_from = Ok (result, st1) ->
  st1 = set_reads st (reads st1) /\
  (reads st <= reads st1)%nat /\
  (result = true ->
   forall n, (reads st <= n < reads st1)%nat ->
     exists b page,
       ReadBuffer n b = Some page /\
       P_ISHALFDEAD (PageGetSpecialPointer page) = true /\ b <> start /\ b <> P_NONE) /\
  (result = false -> (reads st < reads st1)%nat).
Proof.
  induction fuel as [|fuel IH]; intros st start reached reached_from result st1 H.
  - cbn [bt_leftmost_walk] in H. destruct (reached =? P_NONE); [|discriminate].
    inversion H; subst. rewrite set_reads_self.
    repeat split; auto; try discriminate; intros; lia.
  - cbn [bt_leftmost_walk] in H. destruct (reached =? P_NONE) eqn:Enone.
    + inversion H; subst. rewrite set_reads_self.
      repeat split; auto; try discriminate; intros; lia.
    + bind_split H. destruct a as [page st0].
      apply palloc_btree_page_reads in Hm. destruct Hm as (Hst0 & Hreads & Hread).
      destruct (_ && _) eqn:Eall.
      * apply IH in H. destruct H as (Hst1 & Hle & Htrue & Hfalse).
        split; [|split; [|split]].
        -- rewrite Hst1, Hst0. reflexivity.
        -- lia.
        -- intros Hres n Hn. destruct (Nat.eq_dec n (reads st)) as [->|Hne].
           ++ apply andb_prop in Eall. destruct Eall as [Eall _].
              apply andb_prop in Eall. destruct Eall as [Eall _].
              apply andb_prop in Eall. destruct Eall as [Ehd Estart].
              apply negb_true_iff in Estart. apply Z.eqb_neq in Estart, Enone.
              exists reached, page. auto.
           ++ apply (Htrue Hres). lia.
        -- intros Hres. specialize (Hfalse Hres). lia.
      * inversion H; subst result st1.
        split; [exact Hst0|]. split; [lia|]. split; [discriminate|]. intros _. lia.
Qed.

(** X8.  [bt_leftmost_ignoring_half_dead] answers yes without reading a page
    when the start page has no left link.  When it answers yes after reading
    pages, every page it read was half-dead and none of them was the start
    page itself; a left sibling that is not half-dead makes it answer no
    after that one read.  Of the state only the read position changes. *)
Theorem leftmost_ignoring_half_dead_chain (fuel : nat) (st : BtreeCheckState)
        (start : Z) (start_opaque : BTPageOpaqueData) :
  (btpo_prev start_opaque = P_NONE ->
   bt_leftmost_ignoring_half_dead fuel st start start_opaque = Ok (true, st)) /\
  (forall result st1,
     bt_leftmost_ignoring_half_dead fuel st start start_opaque = Ok (result, st1) ->
     st1 = set_reads st (reads st1) /\
     (result = true ->
      forall n, (reads st <= n < reads st1)%nat ->
        exists b page,
          ReadBuffer n b = Some page /\
          P_ISHALFDEAD (PageGetSpecialPointer page) = true /\ b <> start /\ b <> P_NONE)) /\
  (forall left st1,
     btpo_prev start_opaque <> P_NONE ->
     palloc_btree_page st (btpo_prev start_opaque) = Ok (left, st1) ->
     P_ISHALFDEAD (PageGetSpecialPointer left) = false ->
     bt_leftmost_ignoring_half_dead (S fuel) st start start_opaque = Ok (false, st1)).
Proof.
  unfold bt_leftmost_ignoring_half_dead. split; [|split].
  - intros ->. destruct fuel; reflexivity.
  - intros result st1 H. apply bt_leftmost_walk_reads in H.
    destruct H as (Hst1 & _ & Htrue & _). auto.
  - intros left st1 Hprev Hfetch Hlive. cbn [bt_leftmost_walk].
    apply Z.eqb_neq in Hprev. rewrite Hprev, Hfetch. cbn [bind].
    rewrite Hlive. reflexivity.
Qed.

(** ** What the walk leaves alone *)

Lemma bind_raise {A B : Type} (m : outcome A) (k : A -> outcome B) (e : report) :
  bind m k = Raise e -> m = Raise e \/ exists a, m = Ok a /\ k a = Raise e.
Proof.
  destruct m; cbn [bind]; intros H;
    [right; eauto | left; inversion H; reflexivity | discriminate].
Qed.

Lemma same_run_refl a : same_run a a.
Proof. unfold same_run; intuition. Qed.

Lemma same_run_trans a b c : same_run a b -> same_run b c -> same_run a c.
Proof. unfold same_run; intuition congruence. Qed.

Lemma walked_refl a : walked a a.
Proof.
  unfold walked. split; [apply same_run_refl|].
  split; [apply bloom_le_refl|]. split; [apply bloom_le_refl|]. auto.
Qed.

Lemma walked_trans a b c : walked a b -> walked b c -> walked a c.
Proof.
  unfold walked.
  intros (Hr1 & Hf1 & Hd1 & Hh1 & Ho1) (Hr2 & Hf2 & Hd2 & Hh2 & Ho2).
  split; [eapply same_run_trans; eauto|].
  split; [eapply bloom_le_trans; eauto|].
  split; [eapply bloom_le_trans; eauto|].
  destruct Hr1 as (_ & _ & Hro & Hhai & _).
  split.
  - intros H. destruct (Hh1 H) as [Ha Hb]. rewrite Hhai in H.
    destruct (Hh2 H) as [Hc Hd]. split; congruence.
  - intros H. rewrite (Ho2 ltac:(congruence)). auto.
Qed.

(** A state that differs in the page under examination, the read position
    and the split marker only. *)
Lemma walked_fields a b :
  same_run a b -> filter b = filter a -> downlinkfilter b = downlinkfilter a ->
  walked a b.
Proof.
  intros Hr Hf Hd. unfold walked. rewrite Hf, Hd.
  split; [exact Hr|]. split; [apply bloom_le_refl|]. split; [apply bloom_le_refl|]. auto.
Qed.

Lemma walked_reads a b : b = set_reads a (reads b) -> walked a b.
Proof.
  intros ->. apply walked_fields; try reflexivity. unfold same_run. cbn. intuition.
Qed.

Lemma bt_downlink_check_reads st key childblock st1 :
  bt_downlink_check st key childblock = Ok st1 -> st1 = set_reads st (reads st1).
Proof.
  unfold bt_downlink_check. intros H. bind_split H. destruct a as [child st0].
  apply palloc_btree_page_reads in Hm. destruct Hm as (Hst0 & _).
  destruct (P_ISDELETED _); [discriminate|].
  bind_split H. inversion H; subst. exact Hst0.
Qed.

Lemma bt_downlink_missing_descend_reads fuel : forall st lvl childblk blk page st1,
  bt_downlink_missing_descend fuel st lvl childblk = Ok (blk, page, st1) ->
  st1 = set_reads st (reads st1).
Proof.
  induction fuel as [|fuel IH]; intros st lvl childblk blk page st1 H; [discriminate|].
  cbn [bt_downlink_missing_descend] in H. bind_split H. destruct a as [child st0].
  apply palloc_btree_page_reads in Hm. destruct Hm as (Hst0 & _).
  destruct (P_ISLEAF _).
  - inversion H; subst. exact Hst0.
  - destruct (negb _); [discriminate|]. bind_split H.
    apply IH in H. rewrite H, Hst0. reflexivity.
Qed.

Lemma bt_downlink_missing_check_reads fuel st st1 :
  bt_downlink_missing_check fuel st = Ok st1 -> st1 = set_reads st (reads st1).
Proof.
  unfold bt_downlink_missing_check. intros H.
  destruct (P_ISROOT _); [inversion H; subst; symmetry; apply set_reads_self|].
  destruct (rightsplit st); [inversion H; subst; symmetry; apply set_reads_self|].
  destruct (negb _); [inversion H; subst; symmetry; apply set_reads_self|].
  destruct (P_ISLEAF _); [discriminate|].
  bind_split H. bind_split H. destruct a0 as [[childblk child] st0].
  apply bt_downlink_missing_descend_reads in Hm0.
  destruct (P_ISDELETED _); [discriminate|].
  bind_split H. destruct a0; [|discriminate]. inversion H; subst. exact Hm0.
Qed.

Lemma bt_target_item_prologue_walked st offset entry st1 :
  bt_target_item_prologue st offset = Ok (entry, st1) ->
  walked st st1 /\
  (heapallindexed st && readonly st
   && negb (P_ISLEAF (PageGetSpecialPointer (target st))) = true ->
   downlinkfilter st1
   = bloom_add_element (downlinkfilter st)
       (BlockNumber_image (BTreeInnerTupleGetDownLink (entry_tuple st offset)))).
Proof.
  unfold bt_target_item_prologue. intros H. bind_split H.
  apply PageGetItemIdCareful_ok in Hm. subst a. fold (entry_tuple st offset) in H.
  destruct (negb (_ =? _)); [discriminate|].
  destruct (negb (_bt_check_natts _ _ _ _)); [discriminate|].
  set (stf := if heapallindexed st && readonly st
                 && negb (P_ISLEAF (PageGetSpecialPointer (target st)))
              then set_downlinkfilter st
                     (bloom_add_element (downlinkfilter st)
                        (BlockNumber_image
                           (BTreeInnerTupleGetDownLink (entry_tuple st offset))))
              else st) in *.
  assert (Hstf : walked st stf /\
                 (heapallindexed st && readonly st
                  && negb (P_ISLEAF (PageGetSpecialPointer (target st))) = true ->
                  downlinkfilter stf
                  = bloom_add_element (downlinkfilter st)
                      (BlockNumber_image
                         (BTreeInnerTupleGetDownLink (entry_tuple st offset))))).
  { subst stf. destruct (_ && _) eqn:Ec.
    - split; [|reflexivity].
      apply andb_prop in Ec. destruct Ec as [Ec _].
      apply andb_prop in Ec. destruct Ec as [Ehai Ero].
      unfold walked. cbn [filter downlinkfilter set_downlinkfilter].
      split; [unfold same_run; cbn; intuition|].
      split; [apply bloom_le_refl|]. split; [apply bloom_add_le|].
      split; intros; congruence.
    - split; [apply walked_refl | discriminate]. }
  destruct Hstf as [Hw Hd].
  assert (Hfin : forall f, heapallindexed stf = true ->
                           bloom_le (filter stf) f ->
                           walked st (set_filter stf f) /\
                           (heapallindexed st && readonly st
                            && negb (P_ISLEAF (PageGetSpecialPointer (target st))) = true ->
                            downlinkfilter (set_filter stf f)
                            = bloom_add_element (downlinkfilter st)
                                (BlockNumber_image
                                   (BTreeInnerTupleGetDownLink (entry_tuple st offset))))).
  { intros f Hhai Hle. split; [|exact Hd].
    eapply walked_trans; [exact Hw|].
    unfold walked. cbn [filter downlinkfilter set_filter readonly heapallindexed].
    split; [unfold same_run; cbn; intuition|].
    split; [exact Hle|]. split; [apply bloom_le_refl|].
    split; intros; congruence. }
  destruct (offset_is_negative_infinity _ _); [inversion H; subst; auto|].
  destruct (_ && negb (bt_rootdescend _ _)); [discriminate|].
  destruct (_ >? _); [discriminate|].
  destruct (heapallindexed stf && _ && _) eqn:Efp.
  - bind_split H. inversion H; subst entry st1.
    apply andb_prop in Efp. destruct Efp as [Efp _].
    apply andb_prop in Efp. destruct Efp as [Ehai _].
    apply Hfin; [exact Ehai | apply bloom_add_le].
  - inversion H; subst. auto.
Qed.

Lemma bt_last_item_check_walked fuel st offset next st1 :
  bt_last_item_check fuel st offset = Ok (next, st1) -> walked st st1.
Proof.
  unfold bt_last_item_check. intros H. bind_split H. destruct a as [rightkey st0].
  apply bt_right_page_check_scankey_reads in Hm. apply walked_reads in Hm.
  destruct rightkey as [rightkey|]; [|inversion H; subst; exact Hm].
  destruct (negb (invariant_g_offset _ _ _)); [|inversion H; subst; exact Hm].
  destruct (negb (readonly st0)); [|discriminate].
  bind_split H. destruct a as [fresh st2].
  apply palloc_btree_page_reads in Hm0. destruct Hm0 as (Hst2 & _).
  destruct (P_IGNORE _); [|discriminate].
  inversion H; subst next st1.
  eapply walked_trans; [exact Hm|]. eapply walked_trans; [apply walked_reads; exact Hst2|].
  apply walked_fields; try reflexivity. unfold same_run; cbn; intuition.
Qed.

Lemma bt_item_order_check_walked fuel st offset skey next st1 :
  bt_item_order_check fuel st offset skey = Ok (next, st1) -> walked st st1.
Proof.
  unfold bt_item_order_check. intros H.
  destruct (_ <=? _).
  - bind_split H. destruct (negb a).
    + bind_split H. discriminate.
    + destruct (offset =? _); [eapply bt_last_item_check_walked; eauto|].
      inversion H; subst. apply walked_refl.
  - destruct (offset =? _); [eapply bt_last_item_check_walked; eauto|].
    inversion H; subst. apply walked_refl.
Qed.

Lemma bt_target_page_check_item_walked fuel st offset next st' :
  bt_target_page_check_item fuel st offset = Ok (next, st') ->
  walked st st' /\
  (heapallindexed st && readonly st
   && negb (P_ISLEAF (PageGetSpecialPointer (target st))) = true ->
   bloom_le (bloom_add_element (downlinkfilter st)
               (BlockNumber_image (BTreeInnerTupleGetDownLink (entry_tuple st offset))))
            (downlinkfilter st')).
Proof.
  unfold bt_target_page_check_item. intros H. bind_split H. destruct a as [entry st1].
  apply bt_target_item_prologue_walked in Hm. destruct Hm as [Hw Hd].
  assert (Hrest : forall st2, walked st1 st2 ->
            walked st st2 /\
            (heapallindexed st && readonly st
             && negb (P_ISLEAF (PageGetSpecialPointer (target st))) = true ->
             bloom_le (bloom_add_element (downlinkfilter st)
                         (BlockNumber_image
                            (BTreeInnerTupleGetDownLink (entry_tuple st offset))))
                      (downlinkfilter st2))).
  { intros st2 Hw2. split; [eapply walked_trans; eauto|].
    intros Hc. rewrite <- (Hd Hc). apply Hw2. }
  destruct entry as [[[itemid itup] skey]|].
  - bind_split H. bind_split H. destruct a0 as [next0 st2].
    apply bt_item_order_check_walked in Hm0.
    destruct next0.
    + destruct (negb (P_ISLEAF _) && readonly st2).
      * bind_split H. inversion H; subst next st'.
        apply bt_downlink_check_reads in Hm1. apply walked_reads in Hm1.
        apply Hrest. eapply walked_trans; eauto.
      * inversion H; subst. apply Hrest. exact Hm0.
    + inversion H; subst. apply Hrest. exact Hm0.
  - inversion H; subst. apply Hrest. apply walked_refl.
Qed.

Lemma bt_target_page_check_items_walked fuel : forall offsets st next st',
  bt_target_page_check_items fuel st offsets = Ok (next, st') -> walked st st'.
Proof.
  induction offsets as [|offset rest IH]; intros st next st' H.
  - inversion H; subst. apply walked_refl.
  - cbn [bt_target_page_check_items] in H. bind_split H. destruct a as [next0 st1].
    apply bt_target_page_check_item_walked in Hm. destruct Hm as [Hw _].
    destruct next0.
    + apply IH in H. eapply walked_trans; eauto.
    + inversion H; subst. exact Hw.
Qed.

Lemma bt_target_page_check_walked fuel st st' :
  bt_target_page_check fuel st = Ok st' -> walked st st'.
Proof.
  unfold bt_target_page_check. intros H. bind_split H. bind_split H.
  destruct a0 as [next st1]. apply bt_target_page_check_items_walked in Hm0.
  destruct next.
  - destruct (_ && _).
    + apply bt_downlink_missing_check_reads in H. apply walked_reads in H.
      eapply walked_trans; eauto.
    + inversion H; subst. exact Hm0.
  - inversion H; subst. exact Hm0.
Qed.

Lemma bt_check_level_nextpage_walked st w opaque w1 st1 :
  bt_check_level_nextpage st w opaque = Ok (w1, st1) ->
  walked st st1 /\
  w1 = mkWalk (current w) (btpo_next opaque) (nextleveldown w) /\
  current w <> leftcurrent w /\ current w <> btpo_prev opaque.
Proof.
  unfold bt_check_level_nextpage. intros H.
  destruct (_ || _) eqn:Ec; [discriminate|].
  apply orb_false_elim in Ec. destruct Ec as [Ea Eb]. apply Z.eqb_neq in Ea, Eb.
  inversion H; subst. split; [|auto].
  apply walked_fields; try reflexivity. unfold same_run; cbn; intuition.
Qed.

Lemma bt_check_level_first_page_walked fuel st lvl w opaque w1 st1 :
  bt_check_level_first_page fuel st lvl w opaque = Ok (w1, st1) ->
  st1 = set_reads st (reads st1) /\
  leftcurrent w1 = leftcurrent w /\ current w1 = current w /\
  istruerootlevel (nextleveldown w1) = false /\
  if P_ISLEAF opaque
  then nextleveldown w1 = mkLevel InvalidBtreeLevel P_NONE false
  else level (nextleveldown w1) = uint32 (btpo_level opaque - 1).
Proof.
  unfold bt_check_level_first_page. intros H. bind_split H.
  assert (Ha : a = set_reads st (reads a)).
  { destruct (readonly st).
    - bind_split Hm. destruct a0 as [isleftmost st0].
      apply bt_leftmost_walk_reads in Hm0. destruct Hm0 as (Hst0 & _).
      destruct (negb isleftmost); [discriminate|].
      destruct (_ && _); [discriminate|]. inversion Hm; subst. exact Hst0.
    - inversion Hm; subst. symmetry. apply set_reads_self. }
  destruct (P_ISLEAF opaque); cbn [negb] in H.
  - inversion H; subst. auto.
  - bind_split H. inversion H; subst. auto.
Qed.

Lemma bt_check_level_page_walked fuel st lvl w w1 st1 :
  bt_check_level_page fuel st lvl w = Ok (w1, st1) ->
  walked st st1 /\ leftcurrent w1 = current w /\ current w <> leftcurrent w.
Proof.
  unfold bt_check_level_page. intros H. bind_split H. destruct a as [page st0].
  apply palloc_btree_page_reads in Hm. destruct Hm as (Hst0 & _).
  assert (Hw0 : walked st (set_targetlsn (set_target st0 page) (PageGetLSN page))).
  { rewrite Hst0. apply walked_fields; try reflexivity. unfold same_run; cbn; intuition. }
  cbn zeta in H.
  change (target (set_targetlsn (set_target st0 page) (PageGetLSN page))) with page in H.
  destruct (P_IGNORE _).
  - destruct (_ && _); [discriminate|]. destruct (P_RIGHTMOST _); [discriminate|].
    apply bt_check_level_nextpage_walked in H. destruct H as (Hw & -> & Hne & _).
    split; [eapply walked_trans; eauto|]. auto.
  - bind_split H. destruct a as [w0 st3].
    assert (Hfirst : walked (set_targetlsn (set_target st0 page) (PageGetLSN page)) st3 /\
                     leftcurrent w0 = leftcurrent w /\ current w0 = current w).
    { destruct (_ =? InvalidBlockNumber).
      - apply bt_check_level_first_page_walked in Hm. destruct Hm as (Hst3 & Hl & Hc & _).
        split; [apply walked_reads; exact Hst3 | auto].
      - inversion Hm; subst. split; [apply walked_refl | auto]. }
    destruct Hfirst as (Hw3 & Hl & Hc).
    destruct (_ && _); [discriminate|].
    destruct (negb (level lvl =? _)); [discriminate|].
    bind_split H. apply bt_target_page_check_walked in Hm0.
    apply bt_check_level_nextpage_walked in H. destruct H as (Hw & -> & Hne & _).
    split.
    + eapply walked_trans; [exact Hw0|]. eapply walked_trans; [exact Hw3|].
      eapply walked_trans; eauto.
    + cbn [leftcurrent]. rewrite <- Hc, <- Hl. auto.
Qed.

Lemma bt_check_level_pages_walked fuel lvl : forall pages st w next st',
  bt_check_level_pages pages fuel st lvl w = Ok (next, st') -> walked st st'.
Proof.
  induction pages as [|pages IH]; intros st w next st' H; [discriminate|].
  cbn [bt_check_level_pages] in H. bind_split H. destruct a as [w1 st1].
  apply bt_check_level_page_walked in Hm. destruct Hm as (Hw & _).
  destruct (negb _).
  - apply IH in H. eapply walked_trans; eauto.
  - inversion H; subst. exact Hw.
Qed.

(** X9.  Walking a level changes neither the configuration of the run nor
    the count of table rows; the two filters only gain bits; in a run that
    does not cross-check the table neither filter changes, and in a run
    without the exclusive lock the downlink filter does not change. *)
Theorem level_walk_keeps_run (pages fuel : nat) (st : BtreeCheckState) (lvl : BtreeLevel)
        (next : BtreeLevel) (st' : BtreeCheckState) :
  bt_check_level_from_leftmost pages fuel st lvl = Ok (next, st') ->
  walked st st'.
Proof.
  unfold bt_check_level_from_leftmost. apply bt_check_level_pages_walked.
Qed.

(** ** Reports that need the exclusive lock *)

Local Ltac raise_cases H :=
  repeat first
    [ discriminate H
    | (inversion H; subst; reflexivity)
    | match type of H with
      | bind _ _ = Raise _ =>
        apply bind_raise in H; destruct H as [H | (? & ? & H)]
      | (if ?c then _ else _) = Raise _ => destruct c eqn:?
      | match ?x with _ => _ end = Raise _ => destruct x
      end ].

Lemma palloc_btree_page_raise st blocknum e :
  palloc_btree_page st blocknum = Raise e -> exclusive_only e = false.
Proof. unfold palloc_btree_page. intros H. raise_cases H. Qed.

Lemma PageGetItemIdCareful_raise st block page offset e :
  PageGetItemIdCareful st block page offset = Raise e -> exclusive_only e = false.
Proof. unfold PageGetItemIdCareful. intros H. raise_cases H. Qed.

Lemma BTreeTupleGetHeapTIDCareful_raise st itup nonpivot e :
  BTreeTupleGetHeapTIDCareful st itup nonpivot = Raise e -> exclusive_only e = false.
Proof. unfold BTreeTupleGetHeapTIDCareful. intros H. raise_cases H. Qed.

Lemma invariant_l_offset_raise st key upperbound e :
  invariant_l_offset st key upperbound = Raise e -> exclusive_only e = false.
Proof.
  unfold invariant_l_offset. intros H.
  raise_cases H; eauto using PageGetItemIdCareful_raise, BTreeTupleGetHeapTIDCareful_raise.
Qed.

Lemma bt_normalize_tuple_not_exclusive st itup e :
  bt_normalize_tuple st itup = Raise e -> exclusive_only e = false.
Proof. intros H. apply bt_normalize_tuple_raise in H. subst e. reflexivity. Qed.

Lemma bt_target_item_prologue_raise st offset e :
  bt_target_item_prologue st offset = Raise e -> exclusive_only e = false.
Proof.
  unfold bt_target_item_prologue. intros H.
  raise_cases H; eauto using PageGetItemIdCareful_raise, bt_normalize_tuple_not_exclusive.
Qed.

Lemma bt_high_key_check_raise st offset skey e :
  bt_high_key_check st offset skey = Raise e -> exclusive_only e = false.
Proof.
  unfold bt_high_key_check, bt_high_key_bound. intros H.
  raise_cases H; eauto using invariant_l_offset_raise.
Qed.

Lemma bt_right_page_step_raise fuel : forall st targetnext e,
  bt_right_page_step fuel st targetnext = Raise e -> exclusive_only e = false.
Proof.
  induction fuel as [|fuel IH]; intros st targetnext e H; [discriminate|].
  cbn [bt_right_page_step] in H.
  apply bind_raise in H. destruct H as [H | ([page st1] & _ & H)].
  - eapply palloc_btree_page_raise; eauto.
  - destruct (_ || _); [discriminate | eauto].
Qed.

Lemma bt_right_page_check_scankey_raise fuel st e :
  bt_right_page_check_scankey fuel st = Raise e -> exclusive_only e = false.
Proof.
  unfold bt_right_page_check_scankey. intros H.
  raise_cases H; eauto using bt_right_page_step_raise, PageGetItemIdCareful_raise.
Qed.

Lemma bt_last_item_check_raise fuel st offset e :
  bt_last_item_check fuel st offset = Raise e -> exclusive_only e = false.
Proof.
  unfold bt_last_item_check. intros H.
  raise_cases H; eauto using bt_right_page_check_scankey_raise, palloc_btree_page_raise.
Qed.

Lemma bt_item_order_check_raise fuel st offset skey e :
  bt_item_order_check fuel st offset skey = Raise e -> exclusive_only e = false.
Proof.
  unfold bt_item_order_check. intros H.
  raise_cases H;
    eauto using invariant_l_offset_raise, PageGetItemIdCareful_raise, bt_last_item_check_raise.
Qed.

Lemma walked_readonly a b : walked a b -> readonly b = readonly a.
Proof. intros ((_ & _ & H & _) & _). symmetry. exact H. Qed.

Lemma bt_target_page_check_item_raise fuel st offset e :
  readonly st = false ->
  bt_target_page_check_item fuel st offset = Raise e -> exclusive_only e = false.
Proof.
  unfold bt_target_page_check_item. intros Hro H.
  apply bind_raise in H. destruct H as [H | ([entry st1] & Hp & H)].
  { eapply bt_target_item_prologue_raise; eauto. }
  apply bt_target_item_prologue_walked in Hp. destruct Hp as [Hp _].
  destruct entry as [[[itemid itup] skey]|]; [|discriminate].
  apply bind_raise in H. destruct H as [H | (? & _ & H)].
  { eapply bt_high_key_check_raise; eauto. }
  apply bind_raise in H. destruct H as [H | ([next st2] & Ho & H)].
  { eapply bt_item_order_check_raise; eauto. }
  apply bt_item_order_check_walked in Ho.
  assert (Hro2 : readonly st2 = false).
  { rewrite (walked_readonly _ _ Ho), (walked_readonly _ _ Hp). exact Hro. }
  rewrite Hro2, andb_false_r in H. destruct next; discriminate.
Qed.

Lemma bt_target_page_check_items_raise fuel : forall offsets st e,
  readonly st = false ->
  bt_target_page_check_items fuel st offsets = Raise e -> exclusive_only e = false.
Proof.
  induction offsets as [|offset rest IH]; intros st e Hro H; [discriminate|].
  cbn [bt_target_page_check_items] in H.
  apply bind_raise in H. destruct H as [H | ([next st1] & Hi & H)].
  { eapply bt_target_page_check_item_raise; eauto. }
  apply bt_target_page_check_item_walked in Hi. destruct Hi as [Hi _].
  destruct next; [|discriminate].
  apply (IH st1); [|exact H]. rewrite (walked_readonly _ _ Hi). exact Hro.
Qed.

Lemma bt_target_page_check_raise fuel st e :
  readonly st = false ->
  bt_target_page_check fuel st = Raise e -> exclusive_only e = false.
Proof.
  unfold bt_target_page_check. intros Hro H.
  apply bind_raise in H. destruct H as [H | (? & _ & H)].
  { raise_cases H; eauto using PageGetItemIdCareful_raise. }
  apply bind_raise in H. destruct H as [H | ([next st1] & Hi & H)].
  { eapply bt_target_page_check_items_raise; eauto. }
  apply bt_target_page_check_items_walked in Hi.
  rewrite (walked_readonly _ _ Hi), Hro, andb_false_r in H.
  destruct next; discriminate.
Qed.

Lemma bt_check_level_page_raise fuel st lvl w e :
  readonly st = false ->
  bt_check_level_page fuel st lvl w = Raise e -> exclusive_only e = false.
Proof.
  unfold bt_check_level_page. intros Hro H.
  apply bind_raise in H. destruct H as [H | ([page st0] & Hp & H)].
  { eapply palloc_btree_page_raise; eauto. }
  apply palloc_btree_page_reads in Hp. destruct Hp as (Hst0 & _).
  cbn zeta in H.
  assert (Hro2 : readonly (set_targetlsn (set_target st0 page) (PageGetLSN page)) = false).
  { rewrite Hst0. exact Hro. }
  rewrite Hro2 in H. cbn [andb] in H.
  destruct (P_IGNORE _).
  - destruct (P_RIGHTMOST _); [inversion H; reflexivity|].
    unfold bt_check_level_nextpage in H. raise_cases H.
  - apply bind_raise in H. destruct H as [H | ([w0 st3] & Hf & H)].
    + destruct (_ =? InvalidBlockNumber); [|discriminate].
      unfold bt_check_level_first_page in H. rewrite Hro2 in H. cbn [bind] in H.
      raise_cases H; eauto using PageGetItemIdCareful_raise.
    + assert (Hro3 : readonly st3 = false).
      { destruct (_ =? InvalidBlockNumber).
        - apply bt_check_level_first_page_walked in Hf. destruct Hf as (-> & _).
          exact Hro2.
        - inversion Hf; subst. exact Hro2. }
      rewrite Hro3 in H. cbn [andb] in H.
      destruct (negb (level lvl =? _)); [inversion H; reflexivity|].
      apply bind_raise in H. destruct H as [H | (st4 & _ & H)].
      * eapply bt_target_page_check_raise; eauto.
      * unfold bt_check_level_nextpage in H. raise_cases H.
Qed.

Lemma bt_check_level_pages_raise fuel lvl : forall pages st w e,
  readonly st = false ->
  bt_check_level_pages pages fuel st lvl w = Raise e -> exclusive_only e = false.
Proof.
  induction pages as [|pages IH]; intros st w e Hro H; [discriminate|].
  cbn [bt_check_level_pages] in H.
  apply bind_raise in H. destruct H as [H | ([w1 st1] & Hp & H)].
  { eapply bt_check_level_page_raise; eauto. }
  apply bt_check_level_page_walked in Hp. destruct Hp as (Hp & _).
  destruct (negb _); [|discriminate].
  apply (IH st1 w1); [|exact H]. rewrite (walked_readonly _ _ Hp). exact Hro.
Qed.

Lemma table_index_build_scan_raise : forall rows st e,
  table_index_build_scan st rows = Raise e -> exclusive_only e = false.
Proof.
  induction rows as [|htup rest IH]; intros st e H; [discriminate|].
  cbn [table_index_build_scan] in H.
  apply bind_raise in H. destruct H as [H | (st1 & _ & H)]; [|eauto].
  unfold bt_tuple_present_callback in H.
  raise_cases H; eauto using bt_normalize_tuple_not_exclusive.
Qed.

Lemma run_bind_failed {A B : Type} (m : run A) (k : A -> run B) (r : run_report) :
  run_bind m k = Failed r -> m = Failed r \/ exists a, m = Finished a /\ k a = Failed r.
Proof.
  destruct m; cbn [run_bind]; intros H;
    [right; eauto | left; inversion H; reflexivity | discriminate].
Qed.

Lemma run_bind_finished {A B : Type} (m : run A) (k : A -> run B) (b : B) :
  run_bind m k = Finished b -> exists a, m = Finished a /\ k a = Finished b.
Proof. destruct m; cbn [run_bind]; intros H; [eauto | discriminate | discriminate]. Qed.

Lemma run_of_failed {A : Type} (m : outcome A) (r : run_report) :
  run_of m = Failed r -> exists e, m = Raise e /\ r = Corruption e.
Proof. destruct m; cbn [run_of]; intros H; inversion H; eauto. Qed.

Lemma run_of_finished {A : Type} (m : outcome A) (a : A) :
  run_of m = Finished a -> m = Ok a.
Proof. destruct m; cbn [run_of]; intros H; inversion H; reflexivity. Qed.

Lemma bt_check_levels_raise pages fuel : forall levels st current previouslevel e,
  readonly st = false ->
  bt_check_levels levels pages fuel st current previouslevel = Failed (Corruption e) ->
  exclusive_only e = false.
Proof.
  induction levels as [|levels IH]; intros st current previouslevel e Hro H;
    cbn [bt_check_levels] in H; destruct (leftmost current =? P_NONE); try discriminate.
  apply run_bind_failed in H. destruct H as [H | ([next st1] & Hw & H)].
  - apply run_of_failed in H. destruct H as (e' & H & He). inversion He; subst e'.
    eapply bt_check_level_pages_raise; [|exact H]. exact Hro.
  - destruct (_ =? InvalidBlockNumber); [discriminate|].
    apply run_of_finished in Hw. apply bt_check_level_pages_walked in Hw.
    apply (IH st1 next (level next)); [|exact H].
    rewrite (walked_readonly _ _ Hw). exact Hro.
Qed.

Lemma bt_create_filters_finished setup st st1 :
  bt_create_filters setup st = Finished st1 ->
  same_page st st1 /\ reads st1 = reads st /\ rightsplit st1 = rightsplit st /\
  (heapallindexed st = true -> heaptuplespresent st1 = 0) /\
  (heapallindexed st = false -> st1 = st).
Proof.
  unfold bt_create_filters. intros H.
  destruct (heapallindexed st) eqn:Ehai.
  - cbn zeta in H. cbn [readonly set_heaptuplespresent set_filter] in H.
    destruct (negb (readonly st)).
    + destruct (snapshot_unusable setup); [discriminate|].
      inversion H; subst. unfold same_page. cbn.
      repeat split; try reflexivity; intros; try discriminate.
    + inversion H; subst. unfold same_page. cbn.
      repeat split; try reflexivity; intros; try discriminate.
  - inversion H; subst. split; [apply same_page_refl|].
    repeat split; try reflexivity; intros; discriminate.
Qed.

Lemma bt_check_every_level_online setup levels pages fuel index keyspace allindexed
      descend e :
  bt_check_every_level setup levels pages fuel index keyspace false allindexed descend
  = Failed (Corruption e) ->
  exclusive_only e = false.
Proof.
  unfold bt_check_every_level, bt_check_from_metapage. intros H.
  apply run_bind_failed in H. destruct H as [H | (st1 & Hf & H)].
  { unfold bt_create_filters in H. cbn in H.
    destruct allindexed; [destruct (snapshot_unusable setup)|]; discriminate. }
  apply bt_create_filters_finished in Hf.
  destruct Hf as ((_ & _ & Hro & _) & _). cbn [readonly palloc0_state] in Hro.
  destruct (_ && _); [discriminate|].
  apply run_bind_failed in H. destruct H as [H | ([metapage st2] & Hm & H)].
  { apply run_of_failed in H. destruct H as (e' & H & He). inversion He; subst e'.
    eapply palloc_btree_page_raise; eauto. }
  apply run_of_finished in Hm. apply palloc_btree_page_reads in Hm.
  destruct Hm as (Hst2 & _).
  apply run_bind_failed in H. destruct H as [H | (st3 & _ & H)].
  { eapply bt_check_levels_raise; [|exact H]. rewrite Hst2. symmetry. exact Hro. }
  destruct (heapallindexed st3); [|discriminate].
  apply run_of_failed in H. destruct H as (e' & H & He). inversion He; subst e'.
  eapply table_index_build_scan_raise; eauto.
Qed.

(** X10.  A run without the exclusive lock never fails with a report that
    the source raises under a [readonly] test: no report about a downlink,
    about disagreeing sibling links, about a level's first page not being
    leftmost or not being the true root, or about a deleted page reached by
    the walk. *)
Theorem online_run_raises_no_exclusive_report (setup : RunSetup) (levels pages fuel : nat)
        (rel : RelationData) (keyspace allindexed descend : bool) (e : report) :
  bt_check_every_level setup levels pages fuel rel keyspace false allindexed descend
  = Failed (Corruption e) ->
  exclusive_only e = false.
Proof. apply bt_check_every_level_online. Qed.


(** ** From one level to the next *)

Lemma P_IGNORE_false o :
  P_IGNORE o = false -> P_ISDELETED o = false /\ P_ISHALFDEAD o = false.
Proof.
  unfold P_IGNORE, P_ISDELETED, P_ISHALFDEAD, flag_set. intros H.
  apply negb_false_iff in H. apply Z.eqb_eq in H.
  assert (Hd : Z.land (btpo_flags o) BTP_DELETED = 0).
  { replace BTP_DELETED with (Z.land (Z.lor BTP_DELETED BTP_HALF_DEAD) BTP_DELETED)
      by reflexivity.
    rewrite Z.land_assoc, H. reflexivity. }
  assert (Hh : Z.land (btpo_flags o) BTP_HALF_DEAD = 0).
  { replace BTP_HALF_DEAD with (Z.land (Z.lor BTP_DELETED BTP_HALF_DEAD) BTP_HALF_DEAD)
      by reflexivity.
    rewrite Z.land_assoc, H. reflexivity. }
  rewrite Hd, Hh. auto.
Qed.

Lemma palloc_btree_page_levels st blocknum page st1 :
  palloc_btree_page st blocknum = Ok (page, st1) ->
  blocknum <> BTREE_METAPAGE ->
  P_ISDELETED (PageGetSpecialPointer page) = false ->
  if P_ISLEAF (PageGetSpecialPointer page)
  then btpo_level (PageGetSpecialPointer page) = 0
  else btpo_level (PageGetSpecialPointer page) <> 0.
Proof.
  unfold palloc_btree_page. intros H Hblk Hdel.
  destruct (ReadBuffer (reads st) blocknum) as [p|]; [|discriminate].
  apply Z.eqb_neq in Hblk. rewrite Hblk in H. cbn [negb] in H.
  rewrite andb_true_r in H.
  destruct (P_ISMETA _); [discriminate|].
  destruct (P_ISLEAF (PageGetSpecialPointer p)) eqn:Eleaf; cbn [negb andb] in H.
  - destruct (negb (P_ISDELETED _) && negb (_ =? 0)) eqn:E; [discriminate|].
    assert (page = p).
    { repeat match type of H with
             | (if ?c then _ else _) = _ => destruct c; [discriminate|]
             end.
      inversion H. reflexivity. }
    subst p. rewrite Eleaf. rewrite Hdel in E. cbn [negb andb] in E.
    apply negb_false_iff in E. apply Z.eqb_eq in E. exact E.
  - destruct (negb (P_ISDELETED _) && (_ =? 0)) eqn:E; [discriminate|].
    assert (page = p).
    { repeat match type of H with
             | (if ?c then _ else _) = _ => destruct c; [discriminate|]
             end.
      inversion H. reflexivity. }
    subst p. rewrite Eleaf. rewrite Hdel in E. cbn [negb andb] in E.
    apply Z.eqb_neq in E. exact E.
Qed.

Lemma bt_check_level_page_below fuel st lvl w w1 st1 :
  current w <> P_NONE ->
  (nextleveldown w = mkLevel InvalidBtreeLevel InvalidBlockNumber false \/
   level_below lvl (nextleveldown w)) ->
  bt_check_level_page fuel st lvl w = Ok (w1, st1) ->
  level_below lvl (nextleveldown w1) \/
  (current w1 <> P_NONE /\ nextleveldown w1 = nextleveldown w).
Proof.
  unfold bt_check_level_page. intros Hcur Hinv H. bind_split H. destruct a as [page st0].
  cbn [targetblock set_targetblock] in Hm.
  pose proof (fun Hdel => palloc_btree_page_levels _ _ _ _ Hm Hcur Hdel) as Hlevels.
  cbn zeta in H.
  change (target (set_targetlsn (set_target st0 page) (PageGetLSN page))) with page in H.
  destruct (P_IGNORE (PageGetSpecialPointer page)) eqn:Eign.
  - destruct (_ && _); [discriminate|].
    destruct (P_RIGHTMOST _) eqn:Erm; [discriminate|].
    apply bt_check_level_nextpage_walked in H. destruct H as (_ & -> & _).
    right. cbn [current nextleveldown]. split; [|reflexivity].
    unfold P_RIGHTMOST in Erm. apply Z.eqb_neq in Erm. exact Erm.
  - apply P_IGNORE_false in Eign. destruct Eign as [Edel _]. specialize (Hlevels Edel).
    bind_split H. destruct a as [w0 st3].
    destruct (_ && _); [discriminate|].
    destruct (negb (level lvl =? _)) eqn:Elvl; [discriminate|].
    apply negb_false_iff in Elvl. apply Z.eqb_eq in Elvl.
    bind_split H. apply bt_check_level_nextpage_walked in H. destruct H as (_ & -> & _).
    cbn [nextleveldown]. left.
    destruct (leftmost (nextleveldown w) =? InvalidBlockNumber) eqn:Efirst.
    + apply bt_check_level_first_page_walked in Hm0.
      destruct Hm0 as (_ & _ & _ & Hroot & Hnext).
      destruct (P_ISLEAF (PageGetSpecialPointer page)).
      * left. split; [congruence | exact Hnext].
      * right. rewrite Elvl. auto.
    + inversion Hm0; subst w0 st3.
      destruct Hinv as [Hinit | Hbelow]; [|exact Hbelow].
      rewrite Hinit in Efirst. discriminate.
Qed.

Lemma bt_check_level_pages_below fuel lvl : forall pages st w next st',
  current w <> P_NONE ->
  (nextleveldown w = mkLevel InvalidBtreeLevel InvalidBlockNumber false \/
   level_below lvl (nextleveldown w)) ->
  bt_check_level_pages pages fuel st lvl w = Ok (next, st') ->
  level_below lvl next.
Proof.
  induction pages as [|pages IH]; intros st w next st' Hcur Hinv H; [discriminate|].
  cbn [bt_check_level_pages] in H. bind_split H. destruct a as [w1 st1].
  apply (bt_check_level_page_below _ _ _ _ _ _ Hcur Hinv) in Hm.
  destruct (negb (current w1 =? P_NONE)) eqn:Emore.
  - apply negb_true_iff in Emore. apply Z.eqb_neq in Emore.
    apply (IH st1 w1 next st' Emore); [|exact H].
    destruct Hm as [Hbelow | [_ Hsame]]; [right; exact Hbelow | rewrite Hsame; exact Hinv].
  - apply negb_false_iff in Emore. apply Z.eqb_eq in Emore.
    inversion H; subst next st'.
    destruct Hm as [Hbelow | [Hne _]]; [exact Hbelow | contradiction].
Qed.

(** X11.  A level walk that returns announces the level below the one it
    walked: under a level numbered 0 there is none (the next leftmost block
    is [P_NONE]), under any other level the next level is numbered one
    less; the level announced is never taken for the true root level. *)
Theorem level_walk_announces_level_below (pages fuel : nat) (st : BtreeCheckState)
        (lvl next : BtreeLevel) (st' : BtreeCheckState) :
  leftmost lvl <> P_NONE ->
  bt_check_level_from_leftmost pages fuel st lvl = Ok (next, st') ->
  level_below lvl next.
Proof.
  unfold bt_check_level_from_leftmost. intros Hleft H.
  eapply bt_check_level_pages_below; [| |exact H]; cbn [current nextleveldown]; auto.
Qed.

Lemma bt_check_levels_done levels pages fuel st current previouslevel :
  leftmost current = P_NONE ->
  bt_check_levels levels pages fuel st current previouslevel = Finished st.
Proof. intros H. destruct levels; cbn [bt_check_levels]; rewrite H; reflexivity. Qed.

Lemma bt_check_levels_enough pages fuel extra : forall levels st lvl previouslevel,
  0 <= level lvl < 4294967296 ->
  (Z.to_nat (level lvl) < levels)%nat ->
  bt_check_levels (levels + extra) pages fuel st lvl previouslevel
  = bt_check_levels levels pages fuel st lvl previouslevel.
Proof.
  induction levels as [|levels IH]; intros st lvl previouslevel Hrange Hlevels; [lia|].
  cbn [Nat.add bt_check_levels].
  destruct (leftmost lvl =? P_NONE) eqn:Eleft; [reflexivity|].
  apply Z.eqb_neq in Eleft.
  destruct (bt_check_level_from_leftmost pages fuel (set_rightsplit st false) lvl)
    as [[next st1]| |] eqn:Ewalk; cbn [run_of run_bind]; try reflexivity.
  destruct (leftmost next =? InvalidBlockNumber); [reflexivity|].
  apply (bt_check_level_pages_below fuel lvl pages _ _ next st1) in Ewalk;
    cbn [current nextleveldown]; auto.
  destruct Ewalk as [[_ ->] | (Hnz & Hnext & _)].
  - rewrite !bt_check_levels_done; reflexivity.
  - assert (Hsmall : uint32 (level lvl - 1) = level lvl - 1).
    { unfold uint32. apply Z.mod_small. lia. }
    apply IH; rewrite Hnext, Hsmall; lia.
Qed.

(** X12.  The loop over the levels needs no more turns than the metapage's
    level number plus one: a run that may make more turns ends as the run
    that may make exactly that many. *)
Theorem levels_walked_bounded (setup : RunSetup) (pages fuel extra : nat)
        (rel : RelationData) (keyspace exclusive allindexed descend : bool)
        (metapage : PageData) :
  ReadBuffer 0 BTREE_METAPAGE = Some metapage ->
  0 <= btm_level (BTPageGetMeta metapage) < 4294967296 ->
  let levels := S (Z.to_nat (btm_level (BTPageGetMeta metapage))) in
  bt_check_every_level setup (levels + extra) pages fuel rel keyspace exclusive allindexed
                       descend
  = bt_check_every_level setup levels pages fuel rel keyspace exclusive allindexed descend.
Proof.
  intros Hmeta Hrange levels.
  unfold bt_check_every_level, bt_check_from_metapage.
  destruct (bt_create_filters setup _) as [st1| |] eqn:Ef; cbn [run_bind]; try reflexivity.
  apply bt_create_filters_finished in Ef. destruct Ef as (_ & Hreads & _).
  destruct (_ && _); [reflexivity|].
  destruct (palloc_btree_page st1 BTREE_METAPAGE) as [[mp st2]| |] eqn:Ep;
    cbn [run_of run_bind]; try reflexivity.
  apply palloc_btree_page_reads in Ep. destruct Ep as (_ & _ & Hread).
  rewrite Hreads in Hread. cbn [reads palloc0_state] in Hread.
  rewrite Hmeta in Hread. inversion Hread; subst mp.
  rewrite bt_check_levels_enough; [reflexivity | exact Hrange |].
  cbn [level]. subst levels. lia.
Qed.

(** ** Along one level *)





(** X15.  Under the exclusive lock the first page of a level that is not
    ignorable must be the leftmost one and, on the true root level, the
    root: when [bt_check_level_first_page] returns, the search to the left
    has answered yes and a page of the true root level carries the root
    flag; a left sibling that is not half-dead is reported as "not
    leftmost", and a leftmost page of the true root level without the root
    flag as "not true root".  Without the lock no page is read. *)
Theorem first_page_expectations (fuel : nat) (st : BtreeCheckState) (lvl : BtreeLevel)
        (w : level_walk) (opaque : BTPageOpaqueData) :
  (forall w1 st1,
     bt_check_level_first_page fuel st lvl w opaque = Ok (w1, st1) ->
     if readonly st
     then bt_leftmost_ignoring_half_dead fuel st (current w) opaque = Ok (true, st1) /\
          (istruerootlevel lvl = true -> P_ISROOT opaque = true)
     else st1 = st) /\
  (forall left st1,
     readonly st = true ->
     btpo_prev opaque <> P_NONE ->
     palloc_btree_page st (btpo_prev opaque) = Ok (left, st1) ->
     P_ISHALFDEAD (PageGetSpecialPointer left) = false ->
     bt_check_level_first_page (S fuel) st lvl w opaque = Raise (NotLeftmost (current w))) /\
  (readonly st = true ->
   btpo_prev opaque = P_NONE -> istruerootlevel lvl = true -> P_ISROOT opaque = false ->
   bt_check_level_first_page fuel st lvl w opaque = Raise (NotTrueRoot (current w))).
Proof.
  unfold bt_check_level_first_page. split; [|split].
  - intros w1 st1 H. bind_split H.
    assert (Hst1 : st1 = a).
    { destruct (negb (P_ISLEAF opaque)); [bind_split H|]; inversion H; reflexivity. }
    subst a. destruct (readonly st).
    + bind_split Hm. destruct a as [isleftmost st0].
      destruct isleftmost; cbn [negb] in Hm; [|discriminate].
      destruct (istruerootlevel lvl && negb (P_ISROOT opaque)) eqn:Eroot; [discriminate|].
      inversion Hm; subst st0. split; [exact Hm0|].
      intros Htrue. rewrite Htrue in Eroot. cbn [andb] in Eroot.
      apply negb_false_iff in Eroot. exact Eroot.
    + inversion Hm. reflexivity.
  - intros left st1 Hro Hprev Hfetch Hlive. rewrite Hro.
    unfold bt_leftmost_ignoring_half_dead. cbn [bt_leftmost_walk].
    apply Z.eqb_neq in Hprev. rewrite Hprev, Hfetch. cbn [bind].
    rewrite Hlive. reflexivity.
  - intros Hro Hprev Htrue Hroot. rewrite Hro.
    unfold bt_leftmost_ignoring_half_dead. rewrite Hprev.
    destruct fuel; cbn [bt_leftmost_walk Z.eqb P_NONE bind negb];
      rewrite Htrue, Hroot; reflexivity.
Qed.

(** ** Downlinks seen and downlinks missing *)

Lemma bt_target_page_check_item_stays fuel st offset next st' :
  readonly st = true ->
  bt_target_page_check_item fuel st offset = Ok (next, st') -> next = NextItem.
Proof.
  unfold bt_target_page_check_item. intros Hro H. bind_split H. destruct a as [entry st1].
  apply bt_target_item_prologue_walked in Hm. destruct Hm as [Hw _].
  destruct entry as [[[itemid itup] skey]|]; [|inversion H; reflexivity].
  bind_split H. bind_split H. destruct a0 as [next0 st2].
  destruct next0.
  - destruct (_ && _); [bind_split H|]; inversion H; reflexivity.
  - exfalso. apply (bt_item_order_check_readonly fuel st1 offset skey st2); [|exact Hm0].
    rewrite (walked_readonly _ _ Hw). exact Hro.
Qed.

Lemma bt_target_page_check_items_downlinks fuel : forall offsets st next st',
  heapallindexed st = true -> readonly st = true ->
  P_ISLEAF (PageGetSpecialPointer (target st)) = false ->
  bt_target_page_check_items fuel st offsets = Ok (next, st') ->
  forall offset, In offset offsets ->
    bloom_lacks_element (downlinkfilter st')
      (BlockNumber_image (BTreeInnerTupleGetDownLink (entry_tuple st offset))) = false.
Proof.
  induction offsets as [|o rest IH]; intros st next st' Hhai Hro Hleaf H offset Hin;
    [destruct Hin|].
  cbn [bt_target_page_check_items] in H. bind_split H. destruct a as [next0 st1].
  pose proof (bt_target_page_check_item_stays _ _ _ _ _ Hro Hm). subst next0.
  pose proof (bt_target_page_check_item_next _ _ _ _ Hm) as Hsame.
  apply bt_target_page_check_item_walked in Hm. destruct Hm as [Hw Hadd].
  pose proof (bt_target_page_check_items_walked _ _ _ _ _ H) as Hw'.
  destruct Hin as [<-|Hin].
  - eapply bloom_lacks_mono; [|apply bloom_add_present].
    eapply bloom_le_trans; [apply Hadd|apply Hw'].
    rewrite Hhai, Hro, Hleaf. reflexivity.
  - destruct Hsame as (_ & _ & Hro1 & Hhai1 & _ & Htarget & _).
    unfold entry_tuple. rewrite Htarget.
    apply (IH st1 next st'); auto; congruence.
Qed.

(** X16.  In a run under the exclusive lock that cross-checks the table,
    validating an internal page records the child block of every item of
    the page (the negative-infinity item included) in the downlink filter.
    A page whose block the filter holds passes [bt_downlink_missing_check]
    without a page being read, however much the filter has grown since;
    a leaf page that is not the root, is not the right half of an
    incomplete split, and whose block the filter lacks is reported. *)
Theorem downlinks_fingerprinted (fuel : nat) (st st' : BtreeCheckState) (offset : Z) :
  heapallindexed st = true -> readonly st = true ->
  P_ISLEAF (PageGetSpecialPointer (target st)) = false ->
  bt_target_page_check fuel st = Ok st' ->
  P_FIRSTDATAKEY (PageGetSpecialPointer (target st)) <= offset
    <= PageGetMaxOffsetNumber (target st) ->
  let child := BTreeInnerTupleGetDownLink (entry_tuple st offset) in
  bloom_lacks_element (downlinkfilter st') (BlockNumber_image child) = false /\
  (forall fuel' stc,
     bloom_le (downlinkfilter st') (downlinkfilter stc) ->
     targetblock stc = child ->
     bt_downlink_missing_check fuel' stc = Ok stc) /\
  (forall fuel' stc,
     P_ISROOT (PageGetSpecialPointer (target stc)) = false ->
     rightsplit stc = false ->
     bloom_lacks_element (downlinkfilter stc) (BlockNumber_image (targetblock stc)) = true ->
     P_ISLEAF (PageGetSpecialPointer (target stc)) = true ->
     bt_downlink_missing_check fuel' stc = Raise (LeafLacksDownlink (targetblock stc))).
Proof.
  intros Hhai Hro Hleaf H Hrange child.
  assert (Hheld : bloom_lacks_element (downlinkfilter st') (BlockNumber_image child) = false).
  { unfold bt_target_page_check in H. bind_split H. bind_split H.
    destruct a0 as [next st1].
    pose proof (bt_target_page_check_items_downlinks _ _ _ _ _ Hhai Hro Hleaf Hm0 offset)
      as Hin.
    rewrite page_offsets_in in Hin. specialize (Hin Hrange).
    assert (Hst' : downlinkfilter st' = downlinkfilter st1).
    { destruct next.
      - destruct (_ && _).
        + apply bt_downlink_missing_check_reads in H. rewrite H. reflexivity.
        + inversion H. reflexivity.
      - inversion H. reflexivity. }
    rewrite Hst'. exact Hin. }
  split; [exact Hheld|]. split.
  - intros fuel' stc Hle Hblk. unfold bt_downlink_missing_check.
    destruct (P_ISROOT _); [reflexivity|]. destruct (rightsplit stc); [reflexivity|].
    rewrite Hblk, (bloom_lacks_mono _ _ _ Hle Hheld). reflexivity.
  - intros fuel' stc Hroot Hsplit Hlacks Hl. unfold bt_downlink_missing_check.
    rewrite Hroot, Hsplit, Hlacks, Hl. reflexivity.
Qed.

Lemma bt_downlink_missing_descend_leaf fuel : forall st lvl childblk blk page st1,
  bt_downlink_missing_descend fuel st lvl childblk = Ok (blk, page, st1) ->
  P_ISLEAF (PageGetSpecialPointer page) = true /\
  (reads st < reads st1)%nat /\
  ReadBuffer (Nat.pred (reads st1)) blk = Some page /\
  forall n, (reads st <= n < Nat.pred (reads st1))%nat ->
    exists b inner,
      ReadBuffer n b = Some inner /\ P_ISLEAF (PageGetSpecialPointer inner) = false.
Proof.
  induction fuel as [|fuel IH]; intros st lvl childblk blk page st1 H; [discriminate|].
  cbn [bt_downlink_missing_descend] in H. bind_split H. destruct a as [child st0].
  apply palloc_btree_page_reads in Hm. destruct Hm as (_ & Hreads & Hread).
  destruct (P_ISLEAF (PageGetSpecialPointer child)) eqn:Eleaf.
  - inversion H; subst blk page st1. rewrite Hreads. cbn [Nat.pred].
    split; [exact Eleaf|]. split; [lia|]. split; [exact Hread|]. intros n Hn. lia.
  - destruct (negb _); [discriminate|]. bind_split H.
    apply IH in H. destruct H as (Hleaf & Hlt & Hlast & Hinner).
    split; [exact Hleaf|]. split; [lia|]. split; [exact Hlast|].
    intros n Hn. destruct (Nat.eq_dec n (reads st)) as [->|Hne]; [eauto|].
    apply Hinner. lia.
Qed.

(** X17.  A page passes [bt_downlink_missing_check] only for one of four
    reasons: it is the root; it is the right half of an incomplete split;
    the downlink filter holds its block; or it is an internal page and the
    descent along first downlinks, which read internal pages only on its
    way, ended on a leaf that is half-dead, not deleted and not rightmost,
    and whose high key names the page as the top of the subtree being
    deleted. *)
Theorem missing_downlink_tolerated (fuel : nat) (st st1 : BtreeCheckState) :
  bt_downlink_missing_check fuel st = Ok st1 ->
  let topaque := PageGetSpecialPointer (target st) in
  P_ISROOT topaque = true \/
  rightsplit st = true \/
  bloom_lacks_element (downlinkfilter st) (BlockNumber_image (targetblock st)) = false \/
  (P_ISLEAF topaque = false /\
   exists blk leaf,
     (reads st < reads st1)%nat /\
     ReadBuffer (Nat.pred (reads st1)) blk = Some leaf /\
     (forall n, (reads st <= n < Nat.pred (reads st1))%nat ->
        exists b inner,
          ReadBuffer n b = Some inner /\ P_ISLEAF (PageGetSpecialPointer inner) = false) /\
     P_ISLEAF (PageGetSpecialPointer leaf) = true /\
     P_ISHALFDEAD (PageGetSpecialPointer leaf) = true /\
     P_ISDELETED (PageGetSpecialPointer leaf) = false /\
     P_RIGHTMOST (PageGetSpecialPointer leaf) = false /\
     line_pointer_sound (PageGetItemId leaf P_HIKEY) /\
     BTreeTupleGetTopParent (PageGetItem leaf (PageGetItemId leaf P_HIKEY))
     = targetblock st).
Proof.
  unfold bt_downlink_missing_check. intros H. cbn zeta.
  destruct (P_ISROOT _); [left; reflexivity|].
  destruct (rightsplit st); [right; left; reflexivity|].
  destruct (bloom_lacks_element _ _); [|right; right; left; reflexivity].
  cbn [negb] in H. right. right. right.
  destruct (P_ISLEAF (PageGetSpecialPointer (target st))); [discriminate|].
  split; [reflexivity|].
  bind_split H. bind_split H. destruct a0 as [[childblk child] st0].
  pose proof (bt_downlink_missing_descend_reads _ _ _ _ _ _ _ Hm0) as Hst0.
  apply bt_downlink_missing_descend_leaf in Hm0.
  destruct Hm0 as (Hleaf & Hlt & Hlast & Hinner).
  destruct (P_ISDELETED (PageGetSpecialPointer child)) eqn:Edel; [discriminate|].
  bind_split H. destruct a0; [|discriminate]. inversion H; subst st1.
  destruct (P_ISHALFDEAD (PageGetSpecialPointer child)) eqn:Ehd;
    cbn [andb] in Hm0; [|discriminate].
  destruct (P_RIGHTMOST (PageGetSpecialPointer child)) eqn:Erm;
    cbn [negb] in Hm0; [discriminate|].
  bind_split Hm0.
  pose proof (PageGetItemIdCareful_sound _ _ _ _ _ Hm1) as Hsound.
  apply PageGetItemIdCareful_ok in Hm1. subst a0.
  injection Hm0 as Htop. apply Z.eqb_eq in Htop.
  assert (Hblk : targetblock st0 = targetblock st) by (rewrite Hst0; reflexivity).
  exists childblk, child. rewrite <- Hblk. repeat split; auto; apply Hsound.
Qed.

(** ** The run as a whole *)

Lemma bt_check_levels_walked pages fuel : forall levels st lvl previouslevel st',
  bt_check_levels levels pages fuel st lvl previouslevel = Finished st' -> walked st st'.
Proof.
  induction levels as [|levels IH]; intros st lvl previouslevel st' H;
    cbn [bt_check_levels] in H; destruct (leftmost lvl =? P_NONE);
    try discriminate; try (inversion H; subst; apply walked_refl).
  apply run_bind_finished in H. destruct H as ([next st1] & Hw & H).
  apply run_of_finished in Hw. apply bt_check_level_pages_walked in Hw.
  destruct (_ =? InvalidBlockNumber); [discriminate|].
  apply IH in H.
  eapply walked_trans; [|eapply walked_trans; [exact Hw | exact H]].
  apply walked_fields; try reflexivity. unfold same_run; cbn; intuition.
Qed.

(** X18.  A run that cross-checks the table and ends without an error has
    counted every row of the table scan in [heaptuplespresent], and the
    entry formed for each row normalizes and is not reported absent by the
    filter the run ends with. *)
Theorem clean_run_counts_rows (setup : RunSetup) (levels pages fuel : nat)
        (rel : RelationData) (keyspace exclusive descend : bool) (st' : BtreeCheckState) :
  bt_check_every_level setup levels pages fuel rel keyspace exclusive true descend
  = Finished st' ->
  heaptuplespresent st' = Z.of_nat (length (heap_rows setup)) /\
  forall htup, In htup (heap_rows setup) ->
    exists norm, bt_normalize_tuple st' (heap_entry st' htup) = Ok norm /\
                 bloom_lacks_element (filter st') (tuple_image norm) = false.
Proof.
  unfold bt_check_every_level, bt_check_from_metapage. intros H.
  apply run_bind_finished in H. destruct H as (st1 & Hf & H).
  apply bt_create_filters_finished in Hf.
  destruct Hf as ((_ & _ & _ & Hhai & _) & _ & _ & Hcount & _).
  cbn [heapallindexed palloc0_state] in Hhai, Hcount. specialize (Hcount eq_refl).
  destruct (_ && _); [discriminate|].
  apply run_bind_finished in H. destruct H as ([metapage st2] & Hm & H).
  apply run_of_finished in Hm. apply palloc_btree_page_reads in Hm.
  destruct Hm as (Hst2 & _).
  apply run_bind_finished in H. destruct H as (st3 & Hl & H).
  apply bt_check_levels_walked in Hl. destruct Hl as ((_ & _ & _ & Hhai3 & _ & Hcount3) & _).
  assert (Hhai2 : heapallindexed st2 = true) by (rewrite Hst2; symmetry; exact Hhai).
  assert (Hcount2 : heaptuplespresent st2 = 0) by (rewrite Hst2; exact Hcount).
  rewrite <- Hhai3, Hhai2 in H. apply run_of_finished in H.
  destruct (table_index_build_scan_counts (heap_rows setup) st3) as [Hvalue Hpresent].
  pose proof (Hvalue _ H) as Hst'. rewrite <- Hcount3, Hcount2 in Hst'.
  split; [rewrite Hst'; reflexivity|].
  intros htup Hin.
  assert (Hok : is_ok (table_index_build_scan st3 (heap_rows setup)) = true)
    by (rewrite H; reflexivity).
  rewrite Hpresent in Hok. destruct (Hok htup Hin) as (norm & Hn & Hl).
  exists norm. rewrite Hst'. split; [exact Hn | exact Hl].
Qed.

Lemma palloc_metapage_ok st page :
  ReadBuffer (reads st) BTREE_METAPAGE = Some page ->
  P_ISMETA (PageGetSpecialPointer page) = true ->
  btm_magic (BTPageGetMeta page) = BTREE_MAGIC ->
  BTREE_MIN_VERSION <= btm_version (BTPageGetMeta page) <= BTREE_VERSION ->
  palloc_btree_page st BTREE_METAPAGE = Ok (page, set_reads st (S (reads st))).
Proof.
  intros Hread Hmeta Hmagic Hversion. unfold palloc_btree_page.
  rewrite Hread, Hmeta, Hmagic, !Z.eqb_refl. cbn [negb andb orb].
  replace (_ <? BTREE_MIN_VERSION) with false by (symmetry; apply Z.ltb_ge; lia).
  replace (_ >? BTREE_VERSION) with false
    by (symmetry; rewrite Z.gtb_ltb; apply Z.ltb_ge; lia).
  reflexivity.
Qed.

Lemma palloc_page_ok st blocknum page :
  ReadBuffer (reads st) blocknum = Some page ->
  blocknum <> BTREE_METAPAGE ->
  fails_baseline_sanity blocknum page = false ->
  palloc_btree_page st blocknum = Ok (page, set_reads st (S (reads st))).
Proof.
  intros Hread Hblk Hsane. unfold palloc_btree_page. rewrite Hread.
  apply Z.eqb_neq in Hblk. unfold fails_baseline_sanity in Hsane.
  rewrite Hblk in *. cbn [negb] in *. rewrite andb_true_r in *.
  repeat (apply orb_false_elim in Hsane; destruct Hsane as [Hsane ?]).
  repeat match goal with H : _ = false |- _ => rewrite H; clear H end.
  reflexivity.
Qed.

Lemma bloom_lacks_element_empty nbits seed elem :
  bloom_hash seed elem <> [] ->
  bloom_lacks_element (mkBloom 0 nbits seed) elem = true.
Proof.
  unfold bloom_lacks_element. cbn [bf_seed bf_bitset].
  destruct (bloom_hash seed elem) as [|h hs]; [congruence|]. intros _.
  cbn [existsb]. rewrite N.bits_0. reflexivity.
Qed.

Lemma bt_check_from_metapage_rootless setup levels pages fuel st metapage :
  ReadBuffer (reads st) BTREE_METAPAGE = Some metapage ->
  P_ISMETA (PageGetSpecialPointer metapage) = true ->
  btm_magic (BTPageGetMeta metapage) = BTREE_MAGIC ->
  BTREE_MIN_VERSION <= btm_version (BTPageGetMeta metapage) <= BTREE_VERSION ->
  btm_root (BTPageGetMeta metapage) = P_NONE ->
  rootdescend st && negb (heapkeyspace st) = false ->
  bt_check_from_metapage setup levels pages fuel st
  = if heapallindexed st
    then run_of (table_index_build_scan (set_reads st (S (reads st))) (heap_rows setup))
    else Finished (set_reads st (S (reads st))).
Proof.
  intros Hread Hmeta Hmagic Hversion Hroot Hdescend. unfold bt_check_from_metapage.
  rewrite Hdescend, (palloc_metapage_ok _ metapage Hread Hmeta Hmagic Hversion).
  cbn [run_of run_bind]. rewrite bt_check_levels_done by exact Hroot.
  reflexivity.
Qed.

(** X19.  An index whose metapage names no root: the run reads the metapage
    and walks no level.  Without the table cross-check it ends without an
    error after that one read; with it, the first row of a table that is
    not empty is reported as lacking its index entry (provided the entry
    normalizes and hashes to at least one bit). *)
Theorem rootless_index_run (setup : RunSetup) (levels pages fuel : nat)
        (index : RelationData) (keyspace exclusive descend : bool) (metapage : PageData) :
  ReadBuffer 0 BTREE_METAPAGE = Some metapage ->
  P_ISMETA (PageGetSpecialPointer metapage) = true ->
  btm_magic (BTPageGetMeta metapage) = BTREE_MAGIC ->
  BTREE_MIN_VERSION <= btm_version (BTPageGetMeta metapage) <= BTREE_VERSION ->
  btm_root (BTPageGetMeta metapage) = P_NONE ->
  descend && negb keyspace = false ->
  bt_check_every_level setup levels pages fuel index keyspace exclusive false descend
  = Finished (set_reads (palloc0_state index keyspace exclusive false descend) 1) /\
  (forall htup rest norm,
     heap_rows setup = htup :: rest ->
     (exclusive = false -> snapshot_unusable setup = false) ->
     let st0 := palloc0_state index keyspace exclusive true descend in
     bt_normalize_tuple st0 (heap_entry st0 htup) = Ok norm ->
     bloom_hash (seed setup) (tuple_image norm) <> [] ->
     bt_check_every_level setup levels pages fuel index keyspace exclusive true descend
     = Failed (Corruption (HeapTupleLacksIndexTuple (t_self htup)))).
Proof.
  intros Hread Hmeta Hmagic Hversion Hroot Hdescend.
  unfold bt_check_every_level. split.
  - unfold bt_create_filters. cbn [heapallindexed palloc0_state run_bind].
    rewrite (bt_check_from_metapage_rootless _ _ _ _ _ metapage); auto.
  - intros htup rest norm Hrows Hsnap Hnorm Hhash.
    set (st0 := palloc0_state index keyspace exclusive true descend) in *.
    assert (Hscan : forall st1,
              rel st1 = index -> filter st1 = bloom_create setup
                (Z.max (total_pages setup * (MaxIndexTuplesPerPage / 5)) (reltuples setup))
                (maintenance_work_mem setup) (seed setup) ->
              run_of (table_index_build_scan st1 (heap_rows setup))
              = Failed (Corruption (HeapTupleLacksIndexTuple (t_self htup)))).
    { intros st1 Hrel Hfilter. rewrite Hrows.
      cbn [table_index_build_scan]. rewrite bt_tuple_present_callback_value.
      replace (heap_entry st1 htup) with (heap_entry st0 htup)
        by (unfold heap_entry; rewrite Hrel; reflexivity).
      rewrite (bt_normalize_tuple_rel st1 st0) by exact Hrel.
      rewrite Hnorm, Hfilter. unfold bloom_create.
      rewrite bloom_lacks_element_empty by exact Hhash. reflexivity. }
    unfold bt_create_filters. cbn zeta.
    change (heapallindexed st0) with true.
    change (readonly (set_heaptuplespresent (set_filter st0 _) 0)) with exclusive.
    destruct exclusive; cbn [negb].
    + cbn [run_bind].
      rewrite (bt_check_from_metapage_rootless _ _ _ _ _ metapage); auto.
      cbn [heapallindexed set_downlinkfilter]. apply Hscan; reflexivity.
    + rewrite (Hsnap eq_refl). cbn [run_bind].
      rewrite (bt_check_from_metapage_rootless _ _ _ _ _ metapage); auto.
      cbn [heapallindexed]. apply Hscan; reflexivity.
Qed.

Lemma bt_target_page_check_empty fuel st :
  P_RIGHTMOST (PageGetSpecialPointer (target st)) = true ->
  PageGetMaxOffsetNumber (target st) = 0 ->
  heapallindexed st = false ->
  bt_target_page_check fuel st = Ok st.
Proof.
  intros Hrm Hmax Hhai. unfold bt_target_page_check, P_FIRSTDATAKEY.
  rewrite Hrm, Hmax. cbn [negb bind]. unfold page_offsets.
  cbn [P_HIKEY Z.add Z.sub Z.opp Z.pos_sub Z.to_nat seq map bt_target_page_check_items bind].
  rewrite Hhai. reflexivity.
Qed.

Lemma bt_check_level_page_empty_root fuel st lvl w root :
  ReadBuffer (reads st) (current w) = Some root ->
  current w <> P_NONE ->
  leftcurrent w = P_NONE ->
  leftmost (nextleveldown w) = InvalidBlockNumber ->
  level lvl = 0 ->
  heapallindexed st = false ->
  P_ISLEAF (PageGetSpecialPointer root) = true ->
  P_ISROOT (PageGetSpecialPointer root) = true ->
  P_ISMETA (PageGetSpecialPointer root) = false ->
  P_IGNORE (PageGetSpecialPointer root) = false ->
  btpo_prev (PageGetSpecialPointer root) = P_NONE ->
  btpo_next (PageGetSpecialPointer root) = P_NONE ->
  btpo_level (PageGetSpecialPointer root) = 0 ->
  PageGetMaxOffsetNumber root = 0 ->
  bt_check_level_page fuel st lvl w
  = Ok (mkWalk (current w) P_NONE (mkLevel InvalidBtreeLevel P_NONE false),
        set_rightsplit
          (set_targetlsn
             (set_target (set_reads (set_targetblock st (current w)) (S (reads st))) root)
             (PageGetLSN root))
          (P_INCOMPLETE_SPLIT (PageGetSpecialPointer root))).
Proof.
  intros Hread Hcur Hleft Hnext Hlvl Hhai Hleaf Hroot Hmeta Hign Hprev Hright Hlevel Hmax.
  destruct (P_IGNORE_false _ Hign) as [Hdel Hhd].
  assert (Hrm : P_RIGHTMOST (PageGetSpecialPointer root) = true).
  { unfold P_RIGHTMOST. rewrite Hright. reflexivity. }
  assert (Hsane : fails_baseline_sanity (current w) root = false).
  { unfold fails_baseline_sanity.
    rewrite Hmax, Hmeta, Hleaf, Hdel, Hlevel, Hrm. reflexivity. }
  unfold bt_check_level_page. cbn [targetblock set_targetblock].
  rewrite (palloc_page_ok (set_targetblock st (current w)) _ root Hread Hcur Hsane).
  cbn [bind]. cbn zeta. cbn [reads set_targetblock].
  set (st2 := set_targetlsn
                (set_target (set_reads (set_targetblock st (current w)) (S (reads st)))
                            root)
                (PageGetLSN root)).
  assert (Hhai2 : heapallindexed st2 = false) by exact Hhai.
  assert (Hrm2 : P_RIGHTMOST (PageGetSpecialPointer (target st2)) = true) by exact Hrm.
  assert (Hmax2 : PageGetMaxOffsetNumber (target st2) = 0) by exact Hmax.
  change (target st2) with root.
  rewrite Hign, Hnext, Z.eqb_refl.
  unfold bt_check_level_first_page, bt_leftmost_ignoring_half_dead.
  rewrite Hprev, Hleaf, Hroot.
  replace (bt_leftmost_walk fuel st2 (current w) P_NONE (current w))
    with (@Ok (bool * BtreeCheckState) (true, st2)) by (destruct fuel; reflexivity).
  cbn [negb andb bind]. rewrite andb_false_r.
  apply Z.eqb_neq in Hcur.
  destruct (readonly st2); cbn [bind leftcurrent current];
    rewrite Hleft, Z.eqb_refl; cbn [negb andb]; rewrite ?andb_false_r;
    rewrite Hlvl, Hlevel; cbn [Z.eqb negb];
    rewrite (bt_target_page_check_empty fuel st2 Hrm2 Hmax2 Hhai2);
    cbn [bind]; unfold bt_check_level_nextpage;
    cbn [current leftcurrent nextleveldown];
    rewrite Hprev, Hcur, Hright; reflexivity.
Qed.

(** X20.  An index that holds nothing but an empty root leaf: when the
    metapage names as true root, on level 0, a page that is a leaf with the
    root flag, is neither deleted nor half-dead, has no siblings and no
    items, a run that does not cross-check the table ends without an error
    after reading the metapage and that page, in either locking mode. *)
Theorem empty_root_leaf_is_clean (setup : RunSetup) (levels pages fuel : nat)
        (index : RelationData) (keyspace exclusive descend : bool)
        (metapage root : PageData) :
  ReadBuffer 0 BTREE_METAPAGE = Some metapage ->
  P_ISMETA (PageGetSpecialPointer metapage) = true ->
  btm_magic (BTPageGetMeta metapage) = BTREE_MAGIC ->
  BTREE_MIN_VERSION <= btm_version (BTPageGetMeta metapage) <= BTREE_VERSION ->
  btm_root (BTPageGetMeta metapage) <> P_NONE ->
  btm_level (BTPageGetMeta metapage) = 0 ->
  ReadBuffer 1 (btm_root (BTPageGetMeta metapage)) = Some root ->
  P_ISLEAF (PageGetSpecialPointer root) = true ->
  P_ISROOT (PageGetSpecialPointer root) = true ->
  P_ISMETA (PageGetSpecialPointer root) = false ->
  P_IGNORE (PageGetSpecialPointer root) = false ->
  btpo_prev (PageGetSpecialPointer root) = P_NONE ->
  btpo_next (PageGetSpecialPointer root) = P_NONE ->
  btpo_level (PageGetSpecialPointer root) = 0 ->
  PageGetMaxOffsetNumber root = 0 ->
  descend && negb keyspace = false ->
  bt_check_every_level setup (S levels) (S pages) fuel index keyspace exclusive false descend
  = Finished (mkState index keyspace exclusive false descend
                      root (btm_root (BTPageGetMeta metapage)) (PageGetLSN root)
                      null_filter null_filter
                      (P_INCOMPLETE_SPLIT (PageGetSpecialPointer root)) 0 2).
Proof.
  intros Hread Hmeta Hmagic Hversion Hrootblk Hlevel0 Hreadroot
         Hleaf Hroot Hnometa Hign Hprev Hnext Hlevel Hmax Hdescend.
  unfold bt_check_every_level, bt_create_filters.
  cbn [heapallindexed palloc0_state run_bind].
  unfold bt_check_from_metapage. cbn [rootdescend heapkeyspace palloc0_state].
  rewrite Hdescend.
  rewrite (palloc_metapage_ok (palloc0_state index keyspace exclusive false descend)
                                metapage Hread Hmeta Hmagic Hversion).
  cbn [run_of run_bind]. cbn [bt_check_levels leftmost].
  pose proof Hrootblk as Hne. apply Z.eqb_neq in Hne. rewrite Hne.
  unfold bt_check_level_from_leftmost. cbn [bt_check_level_pages leftmost].
  rewrite (bt_check_level_page_empty_root _ _ _ _ root); auto.
  cbn [bind current Z.eqb P_NONE negb nextleveldown run_of run_bind leftmost].
  cbn [InvalidBlockNumber Z.eqb Pos.eqb].
  rewrite bt_check_levels_done by reflexivity.
  cbn [run_bind heapallindexed set_rightsplit set_targetlsn set_target set_reads
       set_targetblock rel heapkeyspace readonly rootdescend target targetblock
       targetlsn filter downlinkfilter rightsplit heaptuplespresent reads].
  reflexivity.
Qed.

(** ** Root descent *)

(** X21.  With root descent requested, every entry of a leaf page that
    [bt_target_page_check] accepts was found again by a search from the
    root; a loop turn on a leaf entry that is not found raises the
    not-found report with the block and the offset.  Entries of internal
    pages are never searched for, and none is without the request. *)
Theorem root_descent_enforced (fuel : nat) (st : BtreeCheckState) (offset : Z) :
  (validated fuel st = true -> real_entry st offset ->
   rootdescend st = true -> P_ISLEAF (PageGetSpecialPointer (target st)) = true ->
   exists st0, same_page st st0 /\ bt_rootdescend st0 (entry_tuple st offset) = true) /\
  (rootdescend st = true -> P_ISLEAF (PageGetSpecialPointer (target st)) = true ->
   line_pointer_sound (PageGetItemId (target st) offset) ->
   IndexTupleSize (entry_tuple st offset)
   = ItemIdGetLength (PageGetItemId (target st) offset) ->
   _bt_check_natts (rel st) (heapkeyspace st) (target st) offset = true ->
   bt_rootdescend st (entry_tuple st offset) = false ->
   bt_target_page_check_item fuel st offset
   = Raise (NotFoundFromRoot (targetblock st) offset)) /\
  (rootdescend st && P_ISLEAF (PageGetSpecialPointer (target st)) = false ->
   forall block o,
     bt_target_item_prologue st offset <> Raise (NotFoundFromRoot block o)).
Proof.
  split; [|split].
  - intros Hv [Hrange Hneg] Hrd Hleaf.
    destruct (validated_each fuel st offset Hv Hrange) as (st0 & next0 & st1 & Hsame & Hitem).
    exists st0. split; [exact Hsame|].
    pose proof Hsame as (Hrel & _ & _ & _ & Hrd0 & Htarget & _).
    unfold bt_target_page_check_item in Hitem. bind_split Hitem. destruct a as [entry st2].
    unfold bt_target_item_prologue in Hm. bind_split Hm.
    apply PageGetItemIdCareful_ok in Hm0. subst a.
    destruct (negb (_ =? _)); [discriminate|].
    destruct (negb (_bt_check_natts _ _ _ _)); [discriminate|].
    rewrite <- Htarget, Hleaf in Hm. rewrite andb_false_r in Hm.
    unfold offset_is_negative_infinity in Hm. rewrite Hleaf in Hm. cbn [negb andb] in Hm.
    rewrite <- Hrd0, Hrd in Hm. cbn [andb] in Hm.
    fold (entry_tuple st offset) in Hm.
    destruct (bt_rootdescend st0 (entry_tuple st offset)); [reflexivity | discriminate].
  - intros Hrd Hleaf (Hend & Hused & Hred & Hlen) Hsize Hnatts Hlost.
    unfold bt_target_page_check_item, bt_target_item_prologue, PageGetItemIdCareful.
    replace (_ >? _) with false by (symmetry; rewrite Z.gtb_ltb; apply Z.ltb_ge; exact Hend).
    apply Z.eqb_neq in Hlen. rewrite Hred, Hused, Hlen. cbn [negb orb bind].
    fold (entry_tuple st offset). rewrite Hsize, Z.eqb_refl, Hnatts. cbn [negb].
    unfold offset_is_negative_infinity. rewrite Hleaf, andb_false_r. cbn [negb andb].
    rewrite Hrd, Hlost. reflexivity.
  - intros Hoff block o H.
    unfold bt_target_item_prologue in H.
    apply bind_raise in H. destruct H as [H | (itemid & _ & H)].
    { unfold PageGetItemIdCareful in H.
      repeat match type of H with
             | (if ?c then _ else _) = _ => destruct c
             end; discriminate. }
    destruct (negb (_ =? _)); [discriminate|].
    destruct (negb (_bt_check_natts _ _ _ _)); [discriminate|].
    destruct (offset_is_negative_infinity _ _); [discriminate|].
    match type of H with
    | (if ?c then _ else _) = _ => assert (Hc : c = false)
    end.
    { destruct (heapallindexed st && readonly st
                && negb (P_ISLEAF (PageGetSpecialPointer (target st))));
        cbn [rootdescend set_downlinkfilter]; rewrite Hoff; reflexivity. }
    rewrite Hc in H.
    destruct (_ >? _); [discriminate|].
    match type of H with
    | (if ?c then _ else _) = _ => destruct c
    end.
    + apply bind_raise in H. destruct H as [H | (? & _ & H)]; [|discriminate].
      apply bt_normalize_tuple_raise in H. discriminate.
    + discriminate.
Qed.

(** ** The entry points *)

(** An error of the run proper, as against one of the entry point itself. *)
Lemma bt_index_check_internal_failed cat setup levels pages fuel parentcheck allindexed
      descend r :
  snd (bt_index_check_internal cat setup levels pages fuel parentcheck allindexed descend)
  = Failed r ->
  match r with
  | Corruption _ | SnapshotUnusable | RootDescendUnsupported | NoValidPages _ =>
    bt_check_every_level setup levels pages fuel (indrel cat) (index_heapkeyspace cat)
                         parentcheck allindexed descend
    = Failed r
  | _ => True
  end.
Proof.
  unfold bt_index_check_internal. cbn [snd]. intros H.
  apply run_bind_failed in H. destruct H as [H | (? & _ & H)].
  { destruct (OidIsValid _); [|discriminate]. unfold table_open in H.
    destruct (_ || _); inversion H. exact I. }
  apply run_bind_failed in H. destruct H as [H | (? & _ & H)].
  { unfold index_open in H. destruct (_ || _); inversion H. exact I. }
  destruct (_ || _); [inversion H; exact I|].
  apply run_bind_failed in H. destruct H as [H | (? & _ & H)].
  { unfold btree_index_checkable in H.
    repeat match type of H with
           | (if ?c then _ else _) = _ => destruct c
           end; inversion H; exact I. }
  destruct (btree_index_mainfork_expected cat); [|discriminate].
  destruct (negb (main_fork_exists cat)); [inversion H; exact I|].
  apply run_bind_failed in H. destruct H as [H | (? & _ & H)]; [|discriminate].
  rewrite H. destruct r; auto.
Qed.

Lemma bt_check_levels_own_errors pages fuel : forall levels st lvl previouslevel r,
  bt_check_levels levels pages fuel st lvl previouslevel = Failed r ->
  match r with Corruption _ | NoValidPages _ => True | _ => False end.
Proof.
  induction levels as [|levels IH]; intros st lvl previouslevel r H;
    cbn [bt_check_levels] in H; destruct (leftmost lvl =? P_NONE); try discriminate.
  apply run_bind_failed in H. destruct H as [H | ([next st1] & _ & H)].
  - apply run_of_failed in H. destruct H as (e & _ & ->). exact I.
  - destruct (_ =? InvalidBlockNumber); [inversion H; exact I|]. eapply IH; eauto.
Qed.

Lemma bt_check_every_level_descent setup levels pages fuel index keyspace exclusive
      allindexed :
  bt_check_every_level setup levels pages fuel index keyspace exclusive allindexed false
  <> Failed RootDescendUnsupported.
Proof.
  unfold bt_check_every_level. intros H.
  apply run_bind_failed in H. destruct H as [H | (st1 & Hf & H)].
  { unfold bt_create_filters in H. cbn zeta in H.
    repeat match type of H with
           | (if ?c then _ else _) = _ => destruct c
           end; discriminate. }
  apply bt_create_filters_finished in Hf.
  destruct Hf as ((_ & _ & _ & _ & Hrd & _) & _).
  cbn [rootdescend palloc0_state] in Hrd.
  unfold bt_check_from_metapage in H. rewrite <- Hrd in H. cbn [andb] in H.
  apply run_bind_failed in H. destruct H as [H | ([metapage st2] & _ & H)].
  { apply run_of_failed in H. destruct H as (? & _ & H). discriminate. }
  apply run_bind_failed in H. destruct H as [H | (st3 & _ & H)].
  { apply bt_check_levels_own_errors in H. exact H. }
  destruct (heapallindexed st3); [|discriminate].
  apply run_of_failed in H. destruct H as (? & _ & H). discriminate.
Qed.

(** X22.  [bt_index_check] opens the relations with [AccessShareLock] and
    does not consider what needs the exclusive lock: it never ends with a
    report about a downlink, about sibling links that disagree, about a
    first page that is not leftmost or not the true root, or about a deleted
    page reached by the walk, and it never asks for root descent.
    [bt_index_parent_check] opens the relations with [ShareLock]. *)
Theorem bt_index_check_is_online (cat : IndexCatalog) (setup : RunSetup)
        (levels pages fuel : nat) (args : list bool) :
  fst (bt_index_check cat setup levels pages fuel args) = AccessShareLock /\
  (forall e,
     snd (bt_index_check cat setup levels pages fuel args) = Failed (Corruption e) ->
     exclusive_only e = false) /\
  snd (bt_index_check cat setup levels pages fuel args) <> Failed RootDescendUnsupported /\
  fst (bt_index_parent_check cat setup levels pages fuel args) = ShareLock.
Proof.
  unfold bt_index_check, bt_index_parent_check.
  split; [reflexivity|]. split; [|split; [|reflexivity]].
  - intros e H. apply bt_index_check_internal_failed in H.
    eapply bt_check_every_level_online; eauto.
  - intros H. apply bt_index_check_internal_failed in H.
    exact (bt_check_every_level_descent _ _ _ _ _ _ _ _ H).
Qed.

(** X23.  An unlogged index is skipped while recovery is in progress, in a
    call that can open the relations: when the parent table was found and
    is still the index's table, the relation is a valid B-Tree index that
    is not a temporary relation of another session, and [table_open] and
    [index_open] raise for no reason of their own, a call without
    [parentcheck] ends without an error and without a run, whether or not
    the main fork exists; a call with [parentcheck] ends with the error of
    [table_open], which refuses [ShareLock] in hot standby.  A call that
    can open the relations and expects a main fork that does not exist
    ends with the lacks-main-fork error. *)
Theorem unlogged_index_skipped_in_recovery (cat : IndexCatalog) (setup : RunSetup)
        (levels pages fuel : nat) (parentcheck allindexed descend : bool) :
  OidIsValid (heapid_unlocked cat) = true ->
  heapid_unlocked cat = heapid_locked cat ->
  btree_index_checkable cat = Finished tt ->
  (forall lockmode, table_open_fails cat lockmode = false) ->
  (forall lockmode, index_open_fails cat lockmode = false) ->
  let call := snd (bt_index_check_internal cat setup levels pages fuel parentcheck
                                           allindexed descend) in
  (relpersistence cat = RELPERSISTENCE_UNLOGGED -> recovery_in_progress cat = true ->
   parentcheck = false -> call = Finished None) /\
  (recovery_in_progress cat = true -> parentcheck = true ->
   call = Failed TableOpenFailed) /\
  (btree_index_mainfork_expected cat = true -> main_fork_exists cat = false ->
   recovery_in_progress cat && parentcheck = false ->
   call = Failed LacksMainFork).
Proof.
  intros Hvalid Hsame Hcheckable Htable Hindex call. subst call.
  unfold bt_index_check_internal, table_open, index_open, lock_refused_in_hot_standby.
  cbn [snd]. rewrite Hvalid, Htable, Hindex, <- Hsame, Z.eqb_refl, Hcheckable.
  rewrite !orb_false_r. split; [|split].
  - intros Hunlogged Hrecovery ->. rewrite Hrecovery. cbn [andb negb orb run_bind].
    unfold btree_index_mainfork_expected. rewrite Hunlogged, Hrecovery. reflexivity.
  - intros Hrecovery ->. rewrite Hrecovery. reflexivity.
  - intros Hexpected Hfork Hopen.
    assert (Hlock : recovery_in_progress cat
                    && match (if parentcheck then ShareLock else AccessShareLock) with
                       | ShareLock => true
                       | AccessShareLock => false
                       end = false).
    { destruct parentcheck; [exact Hopen | apply andb_false_r]. }
    rewrite Hlock. cbn [negb orb run_bind]. rewrite Hexpected, Hfork. reflexivity.
Qed.

End Coverage.


(** * Closed examples *)

(** The leaf page of the sample index is validated, so its first entry is
    at most the high key; and the entry (40, 1) of a page with high key (30)
    raises the high-key report for block 1, offset 2. *)
Lemma high_key_bound_enforced_witness :
  @invariant_leq_offset Sample.on_leaves Sample.leaf1_state
    (@entry_key Sample.on_leaves Sample.leaf1_state 2) P_HIKEY = true /\
  @bt_target_page_check_item Sample.on_leaves 4 Sample.unbounded1_state 2
  = Raise (HighKeyInvariant 1 2).
Proof.
  assert (Hreal : real_entry Sample.leaf1_state 2).
  { split; [vm_compute; split; discriminate | reflexivity]. }
  assert (Hreal' : real_entry Sample.unbounded1_state 2).
  { split; [vm_compute; split; discriminate | reflexivity]. }
  destruct (@high_key_bound_enforced Sample.on_leaves 4 Sample.leaf1_state 2
              eq_refl Hreal) as [Hv _].
  destruct (@high_key_bound_enforced Sample.on_leaves 4 Sample.unbounded1_state 2
              eq_refl Hreal') as [_ Hreport].
  split.
  - apply Hv. vm_compute. reflexivity.
  - apply (Hreport (PageGetItemId Sample.unbounded1 2,
                    entry_tuple Sample.unbounded1_state 2,
                    @entry_key Sample.on_leaves Sample.unbounded1_state 2)
                   Sample.unbounded1_state);
      vm_compute; reflexivity.
Defined.

(** On the validated internal page the truncated separator (20) ties with
    its successor (20, 5) and wins the tie by having fewer key components;
    on the validated leaf of an index without heap TIDs in its key space the
    first entry is at most its successor; and the entry (20, 1) followed by
    (10, 1) raises the item-order report for block 1, offsets 1 and 2. *)
Lemma item_order_enforced_witness :
  @invariant_l_offset Sample.on_leaves Sample.inner3_state
    (@entry_key Sample.on_leaves Sample.inner3_state 2) 3 = Ok true /\
  (@_bt_compare Sample.on_leaves Sample.rel2
     (@entry_key Sample.on_leaves Sample.inner3_state 2) Sample.inner3 3 < 0 \/
   @_bt_compare Sample.on_leaves Sample.rel2
     (@entry_key Sample.on_leaves Sample.inner3_state 2) Sample.inner3 3 = 0) /\
  @_bt_compare Fixture.on_legacy Sample.rel2
    (@entry_key Fixture.on_legacy Fixture.duplicates1_state 1) Fixture.duplicates1 2 <= 0 /\
  @bt_target_page_check_item Sample.on_leaves 4 Sample.unordered1_state 1
  = Raise (ItemOrderInvariant 1 1 2).
Proof.
  assert (Hreal : real_entry Sample.inner3_state 2).
  { split; [vm_compute; split; discriminate | reflexivity]. }
  assert (Hnext : OffsetNumberNext 2 <= PageGetMaxOffsetNumber (target Sample.inner3_state)).
  { vm_compute. discriminate. }
  assert (Hreal' : real_entry Sample.unordered1_state 1).
  { split; [vm_compute; split; discriminate | reflexivity]. }
  assert (Hnext' : OffsetNumberNext 1
                   <= PageGetMaxOffsetNumber (target Sample.unordered1_state)).
  { vm_compute. discriminate. }
  assert (Hreal'' : real_entry Fixture.duplicates1_state 1).
  { split; [vm_compute; split; discriminate | reflexivity]. }
  assert (Hnext'' : OffsetNumberNext 1
                    <= PageGetMaxOffsetNumber (target Fixture.duplicates1_state)).
  { vm_compute. discriminate. }
  destruct (@item_order_enforced Sample.on_leaves 4 Sample.inner3_state 2 Hreal Hnext)
    as [Hv _].
  destruct (@item_order_enforced Sample.on_leaves 4 Sample.unordered1_state 1 Hreal' Hnext')
    as [_ Hreport].
  destruct (@item_order_enforced Fixture.on_legacy 4 Fixture.duplicates1_state 1
              Hreal'' Hnext'') as [Hlegacy _].
  assert (Hvalid : @validated Sample.on_leaves 4 Sample.inner3_state = true)
    by (vm_compute; reflexivity).
  assert (Hvalid'' : @validated Fixture.on_legacy 4 Fixture.duplicates1_state = true)
    by (vm_compute; reflexivity).
  cbv zeta in Hv, Hlegacy.
  destruct (Hv Hvalid) as (Hord & _ & Hstrict).
  destruct (Hlegacy Hvalid'') as (_ & Hweak & _).
  split; [exact Hord|]. split; [|split].
  - destruct (Hstrict eq_refl) as [Hlt | [Heq _]]; [left; exact Hlt | right; exact Heq].
  - apply Hweak. reflexivity.
  - apply (Hreport (PageGetItemId Sample.unordered1 1,
                    entry_tuple Sample.unordered1_state 1,
                    @entry_key Sample.on_leaves Sample.unordered1_state 1)
                   Sample.unordered1_state);
      vm_compute; reflexivity.
Defined.

(** C2 fails as stated: on an index without heap TIDs in its key space the
    leaf with the entries (10, 1) and (10, 1) is validated, its first entry
    is a real one with a successor and passes the test against it, and yet
    the two entries hold the same values and each one's key ties with the
    other, so the items are not in strictly increasing order. *)
Lemma equal_neighbours_counterexample :
  @validated Fixture.on_legacy 4 Fixture.duplicates1_state = true /\
  real_entry Fixture.duplicates1_state 1 /\
  OffsetNumberNext 1 <= PageGetMaxOffsetNumber (target Fixture.duplicates1_state) /\
  @invariant_l_offset Fixture.on_legacy Fixture.duplicates1_state
    (@entry_key Fixture.on_legacy Fixture.duplicates1_state 1) 2 = Ok true /\
  t_values (entry_tuple Fixture.duplicates1_state 1)
  = t_values (entry_tuple Fixture.duplicates1_state 2) /\
  @_bt_compare Fixture.on_legacy Sample.rel2
    (@entry_key Fixture.on_legacy Fixture.duplicates1_state 1) Fixture.duplicates1 2 = 0 /\
  @_bt_compare Fixture.on_legacy Sample.rel2
    (@entry_key Fixture.on_legacy Fixture.duplicates1_state 2) Fixture.duplicates1 1 = 0 /\
  @strictly_increasing_as_specified Fixture.on_legacy Fixture.duplicates1_state 1 = false.
Proof.
  split; [vm_compute; reflexivity|].
  split; [split; [vm_compute; split; discriminate | reflexivity]|].
  split; [vm_compute; discriminate|].
  vm_compute. repeat split.
Qed.

(** The value of the predicate for the truncated separator and its
    successor is the coded one; a tie with a leaf entry that has lost its
    heap TID is reported; and so is an offset whose line pointer is
    unused. *)
Lemma invariant_l_offset_value_witness :
  @invariant_l_offset Sample.on_leaves Sample.inner3_state
    (@entry_key Sample.on_leaves Sample.inner3_state 2) 3
  = Ok (@strictly_less_as_coded Sample.on_leaves Sample.inner3_state
          (@entry_key Sample.on_leaves Sample.inner3_state 2) 3) /\
  @invariant_l_offset Sample.on_leaves Fixture.untidy1_state
    (@entry_key Sample.on_leaves Fixture.untidy1_state 1) 2
  = Raise (NonPivotLacksHeapTid 1) /\
  @invariant_l_offset Sample.on_leaves Sample.leaf1_state
    (@entry_key Sample.on_leaves Sample.leaf1_state 2) 9
  = Raise (InvalidLinePointerStorage 1 9).
Proof.
  pose proof (@invariant_l_offset_value Sample.on_leaves Sample.inner3_state
                (@entry_key Sample.on_leaves Sample.inner3_state 2) 3) as Hvalue.
  pose proof (@invariant_l_offset_value Sample.on_leaves Fixture.untidy1_state
                (@entry_key Sample.on_leaves Fixture.untidy1_state 1) 2) as Htie.
  pose proof (@invariant_l_offset_value Sample.on_leaves Sample.leaf1_state
                (@entry_key Sample.on_leaves Sample.leaf1_state 2) 9) as Hunused.
  cbv zeta in Hvalue, Htie, Hunused.
  destruct Hvalue as (_ & _ & Hvalue). destruct Htie as (_ & _ & Htie).
  destruct Hunused as (_ & Hunused & _).
  split; [|split].
  - apply Hvalue; [|vm_compute; reflexivity].
    vm_compute. repeat split; try reflexivity; intro; discriminate.
  - apply Htie; [|vm_compute; reflexivity].
    vm_compute. repeat split; try reflexivity; intro; discriminate.
  - apply Hunused; [|vm_compute; reflexivity].
    vm_compute. intro; discriminate.
Defined.

(** C3 fails as stated: the key (20) ties with the boundary entry (20, 5),
    which has more key components than the key and no heap TID; the
    predicate holds, where the specified tie-break gives false. *)
Lemma strictly_less_tie_break_counterexample :
  @invariant_l_offset Sample.on_leaves Sample.inner3_state
    (@entry_key Sample.on_leaves Sample.inner3_state 2) 3 = Ok true /\
  @_bt_compare Sample.on_leaves (rel Sample.inner3_state)
    (@entry_key Sample.on_leaves Sample.inner3_state 2) (target Sample.inner3_state) 3 = 0 /\
  @strictly_less_as_specified Sample.on_leaves Sample.inner3_state
    (@entry_key Sample.on_leaves Sample.inner3_state 2) 3 = false.
Proof. vm_compute. repeat split. Qed.

(** The second entry of the validated root points to a child whose entries
    are all strictly above the entry's key; over a child that starts with
    (15), below the separator (20), the downlink check raises the
    lower-bound report with parent block 1, child block 3 and offset 2. *)
Lemma downlink_lower_bound_enforced_witness :
  (exists n child,
      @ReadBuffer Sample.on_tree n 3 = Some child /\
      P_ISDELETED (PageGetSpecialPointer child) = false /\
      forall co,
        P_FIRSTDATAKEY (PageGetSpecialPointer child) <= co
          <= PageGetMaxOffsetNumber child ->
        offset_is_negative_infinity (PageGetSpecialPointer child) co = false ->
        @invariant_l_nontarget_offset Sample.on_tree Sample.root1_state
          (@entry_key Sample.on_tree Sample.root1_state 2) 3 child co = Ok true) /\
  @bt_downlink_check Sample.on_low_tree Sample.root1_state
    (@entry_key Sample.on_low_tree Sample.root1_state 2) 3
  = Raise (DownlinkLowerBound 1 3 2).
Proof.
  assert (Hreal : real_entry Sample.root1_state 2).
  { split; [vm_compute; split; discriminate | reflexivity]. }
  destruct (@downlink_lower_bound_enforced Sample.on_tree 4 Sample.root1_state 2
              eq_refl) as [Hv _].
  destruct (@downlink_lower_bound_enforced Sample.on_low_tree 4 Sample.root1_state 2
              eq_refl) as (_ & Hreport & _).
  split.
  - apply Hv; [exact Hreal | vm_compute; reflexivity | vm_compute; reflexivity].
  - apply (Hreport Sample.low_child3 (set_reads Sample.root1_state 1) 2).
    + vm_compute. reflexivity.
    + vm_compute. reflexivity.
    + vm_compute. split; discriminate.
    + vm_compute. reflexivity.
    + intros o Ho.
      assert (Hfirst : P_FIRSTDATAKEY (PageGetSpecialPointer Sample.low_child3) = 1)
        by reflexivity.
      rewrite Hfirst in Ho.
      assert (Ho1 : o = 1) by lia. subst o. left. vm_compute. reflexivity.
    + vm_compute. reflexivity.
Defined.

(** C4 fails as stated: the root is validated in exclusive-lock mode, yet
    the child of its negative-infinity entry holds an entry that is not
    strictly above that entry's key; the validator never follows the
    negative-infinity downlink. *)
Lemma negative_infinity_downlink_counterexample :
  @validated Sample.on_tree 4 Sample.root1_state = true /\
  readonly Sample.root1_state = true /\
  P_ISLEAF (PageGetSpecialPointer (target Sample.root1_state)) = false /\
  (P_FIRSTDATAKEY (PageGetSpecialPointer (target Sample.root1_state)) <= 1
   <= PageGetMaxOffsetNumber (target Sample.root1_state)) /\
  BTreeInnerTupleGetDownLink (entry_tuple Sample.root1_state 1) = 2 /\
  (forall n, @ReadBuffer Sample.on_tree n 2 = Some Sample.child2) /\
  (P_FIRSTDATAKEY (PageGetSpecialPointer Sample.child2) <= 3
   <= PageGetMaxOffsetNumber Sample.child2) /\
  offset_is_negative_infinity (PageGetSpecialPointer Sample.child2) 3 = false /\
  @invariant_l_nontarget_offset Sample.on_tree Sample.root1_state
    (@entry_key Sample.on_tree Sample.root1_state 1) 2 Sample.child2 3 = Ok false.
Proof.
  repeat split; try (vm_compute; reflexivity); try (vm_compute; discriminate).
Qed.

(** The right sibling of the sample page starts below the page's last
    item.  Online, the page is fetched again, found half-dead, and the visit
    ends without a report; under the exclusive lock the report is raised. *)
Lemma last_item_race_tolerated_witness :
  @bt_last_item_check Sample.on_racing 4 Sample.racy_online 3
  = Ok (LeavePage,
        set_target (set_reads Sample.racy_online 2) Sample.racy1_halfdead) /\
  @bt_target_page_check Sample.on_racing 4 Sample.racy_online
  = Ok (set_target (set_reads Sample.racy_online 2) Sample.racy1_halfdead) /\
  @bt_last_item_check Sample.on_racing 4 Sample.racy_exclusive 3
  = Raise (CrossPageOrderInvariant 1 3) /\
  @bt_target_page_check Sample.on_racing 4 Sample.racy_exclusive
  = Raise (CrossPageOrderInvariant 1 3).
Proof.
  pose (rightkey := @bt_mkscankey_pivotsearch Sample.on_racing Sample.rel2
                      (PageGetItem Sample.racy2 (PageGetItemId Sample.racy2 1))).
  assert (Honline :
            @bt_right_page_check_scankey Sample.on_racing 4 Sample.racy_online
            = Ok (Some rightkey, set_reads Sample.racy_online 1))
    by (vm_compute; reflexivity).
  assert (Hexcl :
            @bt_right_page_check_scankey Sample.on_racing 4 Sample.racy_exclusive
            = Ok (Some rightkey, set_reads Sample.racy_exclusive 1))
    by (vm_compute; reflexivity).
  destruct (@last_item_race_tolerated Sample.on_racing 4 Sample.racy_online 3 rightkey _
              Honline eq_refl) as (Hrace & _ & Hleft).
  destruct (@last_item_race_tolerated Sample.on_racing 4 Sample.racy_exclusive 3 rightkey _
              Hexcl eq_refl) as (_ & Hstrict & _).
  split; [|split; [|split]].
  - refine (proj1 (Hrace eq_refl Sample.racy1_halfdead _ _) eq_refl).
    vm_compute. reflexivity.
  - apply Hleft; vm_compute; reflexivity.
  - apply Hstrict. reflexivity.
  - vm_compute. reflexivity.
Defined.

(** After the leaf page was validated, its live entry (10, 1) is in the
    filter; the drain passes the row of that entry and raises the
    missing-entry report for the row (99, 9), which has no entry. *)
Lemma heap_cross_check_witness :
  (exists norm,
      @bt_normalize_tuple Sample.on_leaves Sample.leaf1_state
        (entry_tuple Sample.leaf1_state 2) = Ok norm /\
      @bloom_lacks_element Sample.on_leaves (filter Sample.leaf1_checked)
        (@tuple_image Sample.on_leaves norm) = false) /\
  @table_index_build_scan Sample.on_leaves Sample.leaf1_checked
    [Sample.row [10; 1] (mkTid 1 1); Sample.row [99; 9] (mkTid 5 5)]
  = Raise (HeapTupleLacksIndexTuple (mkTid 5 5)).
Proof.
  assert (Hchecked : @bt_target_page_check Sample.on_leaves 4 Sample.leaf1_state
                     = Ok Sample.leaf1_checked) by (vm_compute; reflexivity).
  assert (Hleaf : P_ISLEAF (PageGetSpecialPointer (target Sample.leaf1_state)) = true)
    by (vm_compute; reflexivity).
  assert (Hgrown : @bloom_le (filter Sample.leaf1_checked) (filter Sample.leaf1_checked))
    by (repeat split; auto).
  destruct (@heap_cross_check Sample.on_leaves 4 Sample.leaf1_state Sample.leaf1_checked
              Sample.leaf1_checked
              [Sample.row [10; 1] (mkTid 1 1); Sample.row [99; 9] (mkTid 5 5)]
              Hchecked eq_refl Hleaf eq_refl Hgrown) as (_ & Hpresent & _ & Hfirst).
  split.
  - apply Hpresent; [vm_compute; split; discriminate | vm_compute; reflexivity].
  - apply (Hfirst [Sample.row [10; 1] (mkTid 1 1)] (Sample.row [99; 9] (mkTid 5 5)) []
                  (Sample.leaf_tuple [99; 9] (mkTid 5 5))).
    + reflexivity.
    + intros h [<-|[]]. exists (Sample.leaf_tuple [10; 1] (mkTid 1 1)).
      split; vm_compute; reflexivity.
    + vm_compute. reflexivity.
    + vm_compute. reflexivity.
Defined.

(** C6 fails as stated.  The entry (20, 1) of the validated leaf page has a
    dead line pointer: it was seen by the walk and is not in the filter.
    And of two rows without an entry, the drain reports the first and never
    reaches the second. *)
Lemma heap_cross_check_counterexample :
  @validated Sample.on_leaves 4 Sample.leaf1_state = true /\
  entry_tuple Sample.leaf1_state 3 = Sample.leaf_tuple [20; 1] (mkTid 1 2) /\
  @bt_normalize_tuple Sample.on_leaves Sample.leaf1_state
    (Sample.leaf_tuple [20; 1] (mkTid 1 2)) = Ok (Sample.leaf_tuple [20; 1] (mkTid 1 2)) /\
  @bloom_lacks_element Sample.on_leaves (filter Sample.leaf1_checked)
    (@tuple_image Sample.on_leaves (Sample.leaf_tuple [20; 1] (mkTid 1 2))) = true /\
  @bloom_lacks_element Sample.on_leaves (filter Sample.leaf1_checked)
    (@tuple_image Sample.on_leaves (Sample.leaf_tuple [98; 8] (mkTid 5 4))) = true /\
  @bloom_lacks_element Sample.on_leaves (filter Sample.leaf1_checked)
    (@tuple_image Sample.on_leaves (Sample.leaf_tuple [99; 9] (mkTid 5 5))) = true /\
  @table_index_build_scan Sample.on_leaves Sample.leaf1_checked
    [Sample.row [98; 8] (mkTid 5 4); Sample.row [99; 9] (mkTid 5 5)]
  = Raise (HeapTupleLacksIndexTuple (mkTid 5 4)).
Proof. vm_compute. repeat split. Qed.

(** A sound leaf page at block 2 is returned; a half-dead internal page at
    block 4 raises a report naming block 4. *)
Lemma page_fetch_sanity_witness :
  @palloc_btree_page Sample.on_misplaced Sample.text_state 2
  = Ok (Sample.leaf2, set_reads Sample.text_state 1) /\
  exists e, @palloc_btree_page Sample.on_misplaced Sample.text_state 4 = Raise e /\
            format_report_block e = Some 4.
Proof.
  split.
  - destruct (@page_fetch_sanity Sample.on_misplaced Sample.text_state 2 Sample.leaf2
                eq_refl) as [Hother _].
    apply Hother; [discriminate | vm_compute; reflexivity].
  - destruct (@page_fetch_sanity Sample.on_misplaced Sample.text_state 4
                Sample.halfdead_inner eq_refl) as [Hother _].
    apply Hother; [discriminate | vm_compute; reflexivity].
Defined.

(** C7 fails as stated: a page with none of the listed defects, found at
    the metadata block, makes the fetch raise the meta-page report. *)
Lemma metadata_block_counterexample :
  @ReadBuffer Sample.on_misplaced (reads Sample.text_state) BTREE_METAPAGE
  = Some Sample.leaf2 /\
  fails_baseline_sanity BTREE_METAPAGE Sample.leaf2 = false /\
  @palloc_btree_page Sample.on_misplaced Sample.text_state BTREE_METAPAGE
  = Raise MetaPageCorrupt.
Proof. vm_compute. repeat split. Qed.

(** A half-dead page whose links are in order is passed over: the walk
    goes on with its right sibling, block 6. *)
Lemma ignorable_page_skipped_witness :
  @bt_check_level_page (Sample.on_level0 4) 4 Sample.racy_online (mkLevel 0 5 false)
    (Sample.walk_from 4)
  = Ok (mkWalk 5 6 (mkLevel InvalidBtreeLevel InvalidBlockNumber false),
        set_rightsplit
          (set_targetlsn
             (set_target (set_reads (set_targetblock Sample.racy_online 5) 1)
                         (Sample.halfdead5 4)) 0) false).
Proof.
  destruct (@ignorable_page_skipped (Sample.on_level0 4) 4 Sample.racy_online
              (mkLevel 0 5 false) (Sample.walk_from 4) (Sample.halfdead5 4)
              (set_reads (set_targetblock Sample.racy_online 5) 1) eq_refl eq_refl)
    as (_ & _ & Hskip).
  apply Hskip; vm_compute; reflexivity.
Defined.

(** C8 fails as stated: in online mode a half-dead page that is not
    rightmost, and whose left link points to itself, is not passed over;
    the walk raises the circular-link report. *)
Lemma ignorable_page_cycle_counterexample :
  @ReadBuffer (Sample.on_level0 5) 0 5 = Some (Sample.halfdead5 5) /\
  P_IGNORE (PageGetSpecialPointer (Sample.halfdead5 5)) = true /\
  P_ISDELETED (PageGetSpecialPointer (Sample.halfdead5 5)) = false /\
  P_RIGHTMOST (PageGetSpecialPointer (Sample.halfdead5 5)) = false /\
  readonly Sample.racy_online = false /\
  @bt_check_level_page (Sample.on_level0 5) 4 Sample.racy_online (mkLevel 0 5 false)
    (Sample.walk_from P_NONE)
  = Raise (CircularLink 5).
Proof. vm_compute. repeat split. Qed.



(** The entry (20, 1) of the sample leaf page has a dead line pointer: its
    turn leaves the filter as it was, and the entry is within the size
    limit and at most the high key. *)
Lemma dead_entry_not_fingerprinted_witness :
  filter (snd Sample.leaf1_turn3) = filter Sample.leaf1_state /\
  IndexTupleSize (entry_tuple Sample.leaf1_state 3)
  <= @tuple_size_limit Sample.on_leaves Sample.leaf1_state 3 /\
  @invariant_leq_offset Sample.on_leaves Sample.leaf1_state
    (@entry_key Sample.on_leaves Sample.leaf1_state 3) P_HIKEY = true.
Proof.
  assert (Hleaf : P_ISLEAF (PageGetSpecialPointer (target Sample.leaf1_state)) = true)
    by (vm_compute; reflexivity).
  assert (Hturn : @bt_target_page_check_item Sample.on_leaves 4 Sample.leaf1_state 3
                  = Ok (fst Sample.leaf1_turn3, snd Sample.leaf1_turn3))
    by (vm_compute; reflexivity).
  destruct (@dead_entry_not_fingerprinted Sample.on_leaves 4 Sample.leaf1_state 3
              (fst Sample.leaf1_turn3) (snd Sample.leaf1_turn3) Hleaf Hturn)
    as [Hdead _].
  assert (Hflag : ItemIdIsDead (PageGetItemId (target Sample.leaf1_state) 3) = true)
    by (vm_compute; reflexivity).
  destruct (Hdead Hflag) as (Hfilter & Hsize & Hhk & _).
  split; [exact Hfilter|]. split; [exact Hsize|].
  apply Hhk. vm_compute. reflexivity.
Defined.

(** * Closed examples of the further properties *)

(** The leaf page of the sample index is validated; the line pointer of its
    third item is sound, its length is the tuple's size, and the tuple has
    the expected number of attributes. *)
Lemma validated_items_sound_witness :
  @validated Sample.on_leaves 4 Sample.leaf1_state = true /\
  line_pointer_sound (PageGetItemId Sample.leaf1 3) /\
  IndexTupleSize (entry_tuple Sample.leaf1_state 3)
  = ItemIdGetLength (PageGetItemId Sample.leaf1 3) /\
  @_bt_check_natts Sample.on_leaves Sample.rel2 true Sample.leaf1 3 = true.
Proof.
  assert (Hv : @validated Sample.on_leaves 4 Sample.leaf1_state = true)
    by (vm_compute; reflexivity).
  split; [exact Hv|].
  apply (proj2 (@validated_items_sound Sample.on_leaves 4 Sample.leaf1_state Hv) 3).
  vm_compute. split; intro; discriminate.
Defined.

(** The first entry of the validated sample leaf is within the size limits. *)
Lemma validated_sizes_bounded_witness :
  real_entry Sample.leaf1_state 2 /\
  IndexTupleSize (entry_tuple Sample.leaf1_state 2)
  <= @tuple_size_limit Sample.on_leaves Sample.leaf1_state 2 /\
  IndexTupleSize (entry_tuple Sample.leaf1_state 2) <= BTMaxItemSizeNoHeapTid.
Proof.
  assert (Hv : @validated Sample.on_leaves 4 Sample.leaf1_state = true)
    by (vm_compute; reflexivity).
  assert (He : real_entry Sample.leaf1_state 2).
  { split; [vm_compute; split; intro; discriminate | vm_compute; reflexivity]. }
  split; [exact He|].
  apply (@validated_sizes_bounded Sample.on_leaves 4 Sample.leaf1_state 2 Hv He).
Defined.

(** On the sample leaf the key of the entry at offset 2 is strictly below
    the entry at offset 3, hence at most it, and not above it. *)
Lemma invariant_oracle_consistent_witness :
  @invariant_leq_offset Sample.on_leaves Sample.leaf1_state
    (@entry_key Sample.on_leaves Sample.leaf1_state 2) 3 = true /\
  @invariant_g_offset Sample.on_leaves Sample.leaf1_state
    (@entry_key Sample.on_leaves Sample.leaf1_state 2) 3 = false.
Proof.
  destruct (@invariant_oracle_consistent Sample.on_leaves Sample.leaf1_state
              (@entry_key Sample.on_leaves Sample.leaf1_state 2) 3) as (Hl & Hg & _).
  assert (Hleq : @invariant_leq_offset Sample.on_leaves Sample.leaf1_state
                   (@entry_key Sample.on_leaves Sample.leaf1_state 2) 3 = true).
  { apply Hl. vm_compute. reflexivity. }
  split; [exact Hleq|].
  rewrite Hg by (vm_compute; reflexivity). rewrite Hleq. reflexivity.
Defined.

(** The scan of a one-row table against the filter of the checked sample
    leaf counts the row. *)
Lemma table_scan_counts_rows_witness :
  @table_index_build_scan Sample.on_leaves Sample.leaf1_checked
     [Sample.row [10; 1] (mkTid 1 1)]
  = Ok (set_heaptuplespresent Sample.leaf1_checked 1) /\
  set_heaptuplespresent Sample.leaf1_checked 1
  = set_heaptuplespresent Sample.leaf1_checked
      (heaptuplespresent Sample.leaf1_checked + Z.of_nat 1).
Proof.
  assert (Hscan : @table_index_build_scan Sample.on_leaves Sample.leaf1_checked
                    [Sample.row [10; 1] (mkTid 1 1)]
                  = Ok (set_heaptuplespresent Sample.leaf1_checked 1))
    by (vm_compute; reflexivity).
  split; [exact Hscan|].
  exact (proj1 (@table_scan_counts_rows Sample.on_leaves Sample.leaf1_checked
                  [Sample.row [10; 1] (mkTid 1 1)]) _ Hscan).
Defined.

(** The key for the right sibling of the sample leaf: only the read
    position of the state has changed. *)
Lemma right_page_scankey_source_witness :
  @bt_right_page_check_scankey Sample.on_leaves 4 Sample.leaf1_state
  = Ok (fst Fixture.right_of_leaf1, snd Fixture.right_of_leaf1) /\
  snd Fixture.right_of_leaf1
  = set_reads Sample.leaf1_state (reads (snd Fixture.right_of_leaf1)).
Proof.
  assert (Hkey : @bt_right_page_check_scankey Sample.on_leaves 4 Sample.leaf1_state
                 = Ok (fst Fixture.right_of_leaf1, snd Fixture.right_of_leaf1))
    by (vm_compute; reflexivity).
  split; [exact Hkey|].
  exact (proj1 (@right_page_scankey_source Sample.on_leaves 4 Sample.leaf1_state _ _ Hkey)).
Defined.

(** Block 7 has the half-dead block 6 to its left, which has no left
    sibling: the search answers yes after one read, of a half-dead page. *)
Lemma leftmost_ignoring_half_dead_chain_witness :
  @bt_leftmost_ignoring_half_dead Fixture.on_shrunk 4 (Fixture.start_state true false) 7
     (PageGetSpecialPointer Fixture.leaf7)
  = Ok (true, set_reads (Fixture.start_state true false) 1) /\
  exists b page,
    @ReadBuffer Fixture.on_shrunk 0 b = Some page /\
    P_ISHALFDEAD (PageGetSpecialPointer page) = true /\ b <> 7 /\ b <> P_NONE.
Proof.
  assert (Hleft : @bt_leftmost_ignoring_half_dead Fixture.on_shrunk 4
                    (Fixture.start_state true false) 7
                    (PageGetSpecialPointer Fixture.leaf7)
                  = Ok (true, set_reads (Fixture.start_state true false) 1))
    by (vm_compute; reflexivity).
  split; [exact Hleft|].
  destruct (@leftmost_ignoring_half_dead_chain Fixture.on_shrunk 4
              (Fixture.start_state true false) 7 (PageGetSpecialPointer Fixture.leaf7))
    as (_ & Hchain & _).
  destruct (Hchain _ _ Hleft) as [_ Hpages].
  apply (Hpages eq_refl 0%nat). vm_compute. lia.
Defined.

(** The walk of the leaf level of the healthy index, cross-checking the
    table without the exclusive lock. *)
Lemma level_walk_keeps_run_witness :
  @bt_check_level_from_leftmost Fixture.on_healthy 5 5 (Fixture.start_state false true)
     Fixture.leaf_level
  = Ok (Fixture.walked_level false true Fixture.leaf_level) /\
  walked (Fixture.start_state false true)
          (snd (Fixture.walked_level false true Fixture.leaf_level)).
Proof.
  assert (Hwalk : @bt_check_level_from_leftmost Fixture.on_healthy 5 5
                    (Fixture.start_state false true) Fixture.leaf_level
                  = Ok (fst (Fixture.walked_level false true Fixture.leaf_level),
                        snd (Fixture.walked_level false true Fixture.leaf_level)))
    by (vm_compute; reflexivity).
  split; [rewrite Hwalk; destruct (Fixture.walked_level false true Fixture.leaf_level);
          reflexivity|].
  exact (@level_walk_keeps_run Fixture.on_healthy 5 5 _ _ _ _ Hwalk).
Defined.

(** A run without the exclusive lock on the damaged index fails with the
    item order report for block 3. *)
Lemma online_run_raises_no_exclusive_report_witness :
  @bt_check_every_level Fixture.on_damaged (Fixture.setup Fixture.table) 3 5 5
     Sample.rel2 true false true false
  = Failed (Corruption (ItemOrderInvariant 3 1 2)) /\
  exclusive_only (ItemOrderInvariant 3 1 2) = false.
Proof.
  assert (Hrun : @bt_check_every_level Fixture.on_damaged (Fixture.setup Fixture.table)
                   3 5 5 Sample.rel2 true false true false
                 = Failed (Corruption (ItemOrderInvariant 3 1 2)))
    by (vm_compute; reflexivity).
  split; [exact Hrun|].
  exact (@online_run_raises_no_exclusive_report Fixture.on_damaged _ _ _ _ _ _ _ _ _ Hrun).
Defined.

(** The walk of the root level of the healthy index announces level 0,
    starting at block 2. *)
Lemma level_walk_announces_level_below_witness :
  @bt_check_level_from_leftmost Fixture.on_healthy 5 5 (Fixture.start_state true false)
     Fixture.root_level
  = Ok (mkLevel 0 2 false, snd (Fixture.walked_level true false Fixture.root_level)) /\
  level_below Fixture.root_level (mkLevel 0 2 false).
Proof.
  assert (Hwalk : @bt_check_level_from_leftmost Fixture.on_healthy 5 5
                    (Fixture.start_state true false) Fixture.root_level
                  = Ok (mkLevel 0 2 false,
                        snd (Fixture.walked_level true false Fixture.root_level)))
    by (vm_compute; reflexivity).
  split; [exact Hwalk|].
  apply (@level_walk_announces_level_below Fixture.on_healthy 5 5 _ _ _ _) with (2 := Hwalk).
  vm_compute. discriminate.
Defined.

(** The healthy index has a root on level 1: two turns of the loop over the
    levels are as good as five. *)
Lemma levels_walked_bounded_witness :
  @bt_check_every_level Fixture.on_healthy (Fixture.setup Fixture.table) (2 + 3) 5 5
     Sample.rel2 true true true false
  = @bt_check_every_level Fixture.on_healthy (Fixture.setup Fixture.table) 2 5 5
      Sample.rel2 true true true false.
Proof.
  apply (@levels_walked_bounded Fixture.on_healthy (Fixture.setup Fixture.table) 5 5 3
           Sample.rel2 true true true false (Fixture.meta_page 1 1)).
  - vm_compute. reflexivity.
  - vm_compute. split; [intro; discriminate | reflexivity].
Defined.



(** Block 3 of the healthy index has the live block 2 to its left: taken for
    the first page of its level, it is reported. *)
Lemma first_page_expectations_witness :
  @bt_check_level_first_page Fixture.on_healthy 5 (Fixture.start_state true false)
     Fixture.leaf_level (mkWalk P_NONE 3 (mkLevel InvalidBtreeLevel InvalidBlockNumber false))
     (PageGetSpecialPointer Fixture.leaf3)
  = Raise (NotLeftmost 3).
Proof.
  destruct (@first_page_expectations Fixture.on_healthy 4 (Fixture.start_state true false)
              Fixture.leaf_level
              (mkWalk P_NONE 3 (mkLevel InvalidBtreeLevel InvalidBlockNumber false))
              (PageGetSpecialPointer Fixture.leaf3)) as (_ & Hleft & _).
  apply (Hleft Fixture.leaf2 (set_reads (Fixture.start_state true false) 1)).
  - reflexivity.
  - vm_compute. discriminate.
  - vm_compute. reflexivity.
  - vm_compute. reflexivity.
Defined.

(** Validating the root of the healthy index under the exclusive lock, with
    the table cross-check, records child block 3 in the downlink filter. *)
Lemma downlinks_fingerprinted_witness :
  @bt_target_page_check Fixture.on_healthy 5 Fixture.root1_state
  = Ok Fixture.root1_checked /\
  @bloom_lacks_element Fixture.on_healthy (downlinkfilter Fixture.root1_checked)
     (BlockNumber_image 3) = false.
Proof.
  assert (Hpage : @bt_target_page_check Fixture.on_healthy 5 Fixture.root1_state
                  = Ok Fixture.root1_checked) by (vm_compute; reflexivity).
  split; [exact Hpage|].
  apply (proj1 (@downlinks_fingerprinted Fixture.on_healthy 5 Fixture.root1_state
                  Fixture.root1_checked 2
                  ltac:(reflexivity) ltac:(reflexivity) ltac:(vm_compute; reflexivity)
                  Hpage ltac:(vm_compute; split; intro; discriminate))).
Defined.

(** The run on the healthy index with its table of four rows ends without
    an error and has counted four rows. *)
Lemma clean_run_counts_rows_witness :
  @bt_check_every_level Fixture.on_healthy (Fixture.setup Fixture.table) 3 5 5
     Sample.rel2 true true true false
  = Finished Fixture.clean_run /\
  heaptuplespresent Fixture.clean_run = 4.
Proof.
  assert (Hrun : @bt_check_every_level Fixture.on_healthy (Fixture.setup Fixture.table)
                   3 5 5 Sample.rel2 true true true false
                 = Finished Fixture.clean_run) by (vm_compute; reflexivity).
  split; [exact Hrun|].
  exact (proj1 (@clean_run_counts_rows Fixture.on_healthy _ _ _ _ _ _ _ _ _ Hrun)).
Defined.

(** On an index that has a metapage only, the run without the table
    cross-check is clean, and the run with it reports the first row. *)
Lemma rootless_index_run_witness :
  @bt_check_every_level Fixture.on_rootless (Fixture.setup Fixture.table) 3 5 5
     Sample.rel2 true true false false
  = Finished (set_reads (palloc0_state Sample.rel2 true true false false) 1) /\
  @bt_check_every_level Fixture.on_rootless (Fixture.setup Fixture.table) 3 5 5
     Sample.rel2 true true true false
  = Failed (Corruption (HeapTupleLacksIndexTuple (mkTid 1 1))).
Proof.
  destruct (@rootless_index_run Fixture.on_rootless (Fixture.setup Fixture.table) 3 5 5
              Sample.rel2 true true false (Fixture.meta_page P_NONE 0))
    as [Hplain Hcross].
  - reflexivity.
  - reflexivity.
  - reflexivity.
  - vm_compute. split; intro; discriminate.
  - reflexivity.
  - reflexivity.
  - split; [exact Hplain|].
    apply (Hcross (Sample.row [10; 1] (mkTid 1 1)) (tl Fixture.table)
                  (Sample.leaf_tuple [10; 1] (mkTid 1 1))).
    + reflexivity.
    + discriminate.
    + vm_compute. reflexivity.
    + vm_compute. discriminate.
Defined.

(** On an index whose root is an empty leaf a run that may walk one level
    and one page is clean and has read two pages. *)
Lemma empty_root_leaf_is_clean_witness :
  @bt_check_every_level Fixture.on_emptied (Fixture.setup []) 1 1 0
     Sample.rel2 true true false false
  = Finished (mkState Sample.rel2 true true false false Fixture.empty_root 1 0
                      null_filter null_filter false 0 2).
Proof.
  apply (@empty_root_leaf_is_clean Fixture.on_emptied (Fixture.setup []) 0 0 0
           Sample.rel2 true true false (Fixture.meta_page 1 0) Fixture.empty_root);
    try (vm_compute; reflexivity).
  - vm_compute. split; intro; discriminate.
  - vm_compute. discriminate.
Defined.

(** With a search that finds nothing, the first entry of the sample leaf is
    reported as not found from the root. *)
Lemma root_descent_enforced_witness :
  @bt_target_page_check_item Sample.on_leaves 4 Fixture.descending_state 2
  = Raise (NotFoundFromRoot 1 2).
Proof.
  destruct (@root_descent_enforced Sample.on_leaves 4 Fixture.descending_state 2)
    as (_ & Hlost & _).
  apply Hlost.
  - reflexivity.
  - reflexivity.
  - vm_compute. repeat split; try reflexivity; intro; discriminate.
  - vm_compute. reflexivity.
  - vm_compute. reflexivity.
  - vm_compute. reflexivity.
Defined.

(** Block 4 is an internal page without a downlink in the filter; its first
    downlink leads to the half-dead leaf 8, whose high key names block 4:
    the page passes, for the fourth reason. *)
Lemma missing_downlink_tolerated_witness :
  @bt_downlink_missing_check Fixture.on_interrupted 5 Fixture.inner4_state
  = Ok (set_reads Fixture.inner4_state 1) /\
  exists blk leaf,
    @ReadBuffer Fixture.on_interrupted 0 blk = Some leaf /\
    P_ISHALFDEAD (PageGetSpecialPointer leaf) = true /\
    BTreeTupleGetTopParent (PageGetItem leaf (PageGetItemId leaf P_HIKEY)) = 4.
Proof.
  assert (Hcheck : @bt_downlink_missing_check Fixture.on_interrupted 5 Fixture.inner4_state
                   = Ok (set_reads Fixture.inner4_state 1)) by (vm_compute; reflexivity).
  split; [exact Hcheck|].
  pose proof (@missing_downlink_tolerated Fixture.on_interrupted 5 _ _ Hcheck) as Hwhy.
  cbv zeta in Hwhy.
  destruct Hwhy as [Hroot | [Hsplit | [Hheld | (_ & blk & leaf & _ & Hread & _ & _ & Hhd
                                                 & _ & _ & _ & Htop)]]].
  - vm_compute in Hroot. discriminate.
  - vm_compute in Hsplit. discriminate.
  - vm_compute in Hheld. discriminate.
  - exists blk, leaf. split; [exact Hread|]. split; [exact Hhd | exact Htop].
Defined.

(** [bt_index_check] on the damaged index, asked to cross-check the table:
    the item order report, which needs no exclusive lock. *)
Lemma bt_index_check_is_online_witness :
  snd (@bt_index_check Fixture.on_damaged Fixture.healthy_index
         (Fixture.setup Fixture.table) 3 5 5 [true])
  = Failed (Corruption (ItemOrderInvariant 3 1 2)) /\
  exclusive_only (ItemOrderInvariant 3 1 2) = false.
Proof.
  assert (Hcall : snd (@bt_index_check Fixture.on_damaged Fixture.healthy_index
                         (Fixture.setup Fixture.table) 3 5 5 [true])
                  = Failed (Corruption (ItemOrderInvariant 3 1 2)))
    by (vm_compute; reflexivity).
  split; [exact Hcall|].
  destruct (@bt_index_check_is_online Fixture.on_damaged Fixture.healthy_index
              (Fixture.setup Fixture.table) 3 5 5 [true]) as (_ & Honline & _).
  exact (Honline _ Hcall).
Defined.

(** An unlogged index on a standby is skipped by [bt_index_check] though it
    has no main fork; [bt_index_parent_check] cannot open the table. *)
Lemma unlogged_index_skipped_in_recovery_witness :
  snd (@bt_index_check_internal Fixture.on_healthy Fixture.unlogged_on_standby
         (Fixture.setup Fixture.table) 3 5 5 false true false)
  = Finished None /\
  snd (@bt_index_check_internal Fixture.on_healthy Fixture.unlogged_on_standby
         (Fixture.setup Fixture.table) 3 5 5 true true false)
  = Failed TableOpenFailed.
Proof.
  pose proof (@unlogged_index_skipped_in_recovery Fixture.on_healthy
                Fixture.unlogged_on_standby (Fixture.setup Fixture.table) 3 5 5
                false true false eq_refl eq_refl eq_refl
                (fun _ => eq_refl) (fun _ => eq_refl)) as Hskipped.
  pose proof (@unlogged_index_skipped_in_recovery Fixture.on_healthy
                Fixture.unlogged_on_standby (Fixture.setup Fixture.table) 3 5 5
                true true false eq_refl eq_refl eq_refl
                (fun _ => eq_refl) (fun _ => eq_refl)) as Hrefused.
  cbv zeta in Hskipped, Hrefused.
  destruct Hskipped as (Hskipped & _). destruct Hrefused as (_ & Hrefused & _).
  split; [apply Hskipped; reflexivity | apply Hrefused; reflexivity].
Defined.
